(** * Ride-pool matching core: a shallow embedding of the SQL migrations

    The pool-matching logic of the repository lives in the PL/pgSQL functions
    and triggers of [backend/supabase/migrations].  This development embeds
    the functions of [initial_schema_no_row_returned.sql] (scoring engine,
    pool state machine, cancellation cascade, join check, location ingestion)
    and [find_nearest_available_drivers] of [1_init_schema.sql].

    Conventions of the embedding:
    - a table is the list of its rows in scan order; a [SELECT] without
      [ORDER BY] returns rows in that order, and [LIMIT 1] takes the first;
    - a nullable column is an [option]; SQL's three-valued logic is written
      out ([tv]); a PL/pgSQL [IF] and a [WHERE] take a branch or keep a row
      only when the condition is [TRUE];
    - [DECIMAL] values are exact rationals;
    - [RAISE EXCEPTION], division by zero and violated constraints are the
      [Raise] results of the error monad [result]; a statement that raises
      leaves the database as it was;
    - PostGIS' [ST_Distance] and PostgreSQL's [FORMAT] are parameters
      ([Section] variables).  [FORMAT] returns a text or raises: nothing is
      assumed about what it renders, nor that it accepts a template
      (PostgreSQL's [format] documents the conversions [%s], [%I] and [%L]
      only).  That it rejects a template with another conversion, as
      PostgreSQL's [format] does, is the hypothesis [rejects_unrecognized]
      of the theorems that depend on it.  About [ST_Distance] a theorem
      assumes only what it states as a hypothesis;
    - columns that no embedded function reads or writes ([updated_at],
      addresses, fares, ...) are left out of the row records. *)

From Stdlib Require Import ZArith QArith Qround Qabs List String Ascii Bool Lia Lqa.
From Stdlib Require Import Sorting.Sorted Sorting.Permutation.
Import ListNotations.
Local Open Scope Q_scope.
Local Open Scope string_scope.


(** ** The error monad of PL/pgSQL exceptions *)

Inductive result (A : Type) : Type :=
| Ok (a : A)
| Raise (msg : string).
Arguments Ok {A} a.
Arguments Raise {A} msg.

Definition bind {A B : Type} (m : result A) (k : A -> result B) : result B :=
  match m with
  | Ok a => k a
  | Raise msg => Raise msg
  end.

Notation "x <- m ;; k" := (bind m (fun x => k))
  (at level 61, m at next level, right associativity).

(** A computation for every row of a query, failing as a whole when it
    fails for one row. *)
Fixpoint map_result {A B : Type} (f : A -> result B) (l : list A)
  : result (list B) :=
  match l with
  | [] => Ok []
  | x :: rest =>
      y <- f x ;;
      ys <- map_result f rest ;;
      Ok (y :: ys)
  end.

(** ** SQL values: three-valued logic and nullable numerics *)

Definition tv := option bool.

Definition is_true (b : tv) : bool :=
  match b with Some true => true | _ => false end.

Definition tv_not (a : tv) : tv := option_map negb a.

Definition tv_and (a b : tv) : tv :=
  match a, b with
  | Some false, _ | _, Some false => Some false
  | Some true, Some true => Some true
  | _, _ => None
  end.

Definition tv_or (a b : tv) : tv :=
  match a, b with
  | Some true, _ | _, Some true => Some true
  | Some false, Some false => Some false
  | _, _ => None
  end.

Definition is_null {A : Type} (x : option A) : bool :=
  match x with None => true | Some _ => false end.

Definition lift2 {A B C : Type} (f : A -> B -> C) (x : option A) (y : option B)
  : option C :=
  match x, y with
  | Some a, Some b => Some (f a b)
  | _, _ => None
  end.

Definition num := option Q.

Definition Qlt_bool (a b : Q) : bool := negb (Qle_bool b a).

Definition num_add : num -> num -> num := lift2 Qplus.
Definition num_sub : num -> num -> num := lift2 Qminus.
Definition num_mul : num -> num -> num := lift2 Qmult.
Definition num_neg (x : num) : num := option_map Qopp x.

(** [x / y]: NULL when an operand is NULL, an error when [y] is zero. *)
Definition num_div (x y : num) : result num :=
  match x, y with
  | Some a, Some b =>
      if Qeq_bool b 0 then Raise "division by zero" else Ok (Some (a / b))
  | _, _ => Ok None
  end.

(** [x / c] for a non-zero literal [c] (the [/ 1000] of the metre-to-km
    conversions), which cannot raise. *)
Definition num_div_by (x : num) (c : Q) : num := option_map (fun a => a / c) x.

Definition num_gt : num -> num -> tv := lift2 (fun a b => Qlt_bool b a).
Definition num_lt : num -> num -> tv := lift2 Qlt_bool.
Definition num_ge : num -> num -> tv := lift2 (fun a b => Qle_bool b a).
Definition num_le : num -> num -> tv := lift2 Qle_bool.

Definition int_gt : option Z -> option Z -> tv := lift2 Z.gtb.

Definition num_of_int (z : option Z) : num := option_map inject_Z z.

(** [NULLIF(x, c)] *)
Definition NULLIF (x : num) (c : Q) : num :=
  match x with
  | Some a => if Qeq_bool a c then None else Some a
  | None => None
  end.

(** [x / NULLIF(y, 0)]: the division cannot raise, its divisor being NULL
    when [y] is zero. *)
Definition num_div_nullif (x y : num) : num :=
  match x, NULLIF y 0 with
  | Some a, Some b => Some (a / b)
  | _, _ => None
  end.

(** PostgreSQL's [LEAST] and [GREATEST] skip NULL arguments and are NULL
    only when every argument is. *)
Definition LEAST (x y : num) : num :=
  match x, y with
  | Some a, Some b => Some (if Qle_bool a b then a else b)
  | Some a, None => Some a
  | None, y => y
  end.

Definition GREATEST (x y : num) : num :=
  match x, y with
  | Some a, Some b => Some (if Qle_bool a b then b else a)
  | Some a, None => Some a
  | None, y => y
  end.

(** Rounding of [numeric]: half away from zero. *)
Definition round_half_away (q : Q) : Z :=
  if Qle_bool 0 q then Qfloor (q + (1 # 2)) else Qceiling (q - (1 # 2)).

Definition pow10 (places : nat) : Q := inject_Z (10 ^ Z.of_nat places).

(** [ROUND(x, places)] *)
Definition ROUND (x : num) (places : nat) : num :=
  option_map
    (fun q => inject_Z (round_half_away (q * pow10 places)) / pow10 places) x.

(** [COALESCE(s || E'\n', '')] followed by [|| msg]: how a rejection
    reason is appended to the reasons collected so far. *)
Definition newline : string := String (ascii_of_nat 10) EmptyString.

Definition dquote : string := String (ascii_of_nat 34) EmptyString.

Definition text_concat : option string -> option string -> option string :=
  lift2 String.append.

Definition COALESCE {A : Type} (x : option A) (d : A) : A :=
  match x with Some a => a | None => d end.

Definition append_reason (v_rejection_reason : option string) (msg : string)
  : option string :=
  Some (COALESCE (text_concat v_rejection_reason (Some newline)) "" ++ msg).

(** Arguments of [FORMAT]. *)
Inductive fmt_arg : Type :=
| FNum (x : num)
| FInt (z : option Z)
| FText (s : option string).

(** The templates that PostgreSQL's [format] rejects at sight.  After a
    [%] it reads a second [%] (a literal), one of the conversions [s], [I]
    and [L], or the beginning of a position, a flag or a width, which is a
    digit, [-] or [*].  Any other character after a [%], the [.] of a
    precision for instance, and a [%] at the end of the template are
    errors. *)
Definition conversion_char (c : ascii) : bool :=
  existsb (Ascii.eqb c)
          ["%"; "s"; "I"; "L"; "-"; "*";
           "0"; "1"; "2"; "3"; "4"; "5"; "6"; "7"; "8"; "9"]%char.

Fixpoint unrecognized_conversion (template : string) : bool :=
  match template with
  | EmptyString => false
  | String c rest =>
      if Ascii.eqb c "%" then
        match rest with
        | EmptyString => true
        | String d rest' =>
            negb (conversion_char d) || unrecognized_conversion rest'
        end
      else unrecognized_conversion rest
  end.

(** A [FORMAT] that raises for these templates, as PostgreSQL's does. *)
Definition rejects_unrecognized
  (FORMAT : string -> list fmt_arg -> result string) : Prop :=
  forall template args,
    unrecognized_conversion template = true ->
    exists msg, FORMAT template args = Raise msg.

(** [jsonb] values, as far as the functions build them. *)
#[warnings="-register-all"]
Inductive jsonb : Type :=
| JNull
| JNum (q : Q)
| JInt (z : Z)
| JText (s : string)
| JUuid (u : N)
| JObject (fields : list (string * jsonb)).

Definition jnum (x : num) : jsonb :=
  match x with Some q => JNum q | None => JNull end.

Definition jint (z : option Z) : jsonb :=
  match z with Some n => JInt n | None => JNull end.

(** ** Column types *)

Definition uuid := N.

(** [TIMESTAMP WITH TIME ZONE]: microseconds since the epoch. *)
Definition timestamptz := Z.

(** [GEOGRAPHY(POINT, 4326)] *)
Record geography : Type := MakePoint { lng : Q; lat : Q }.

Inductive vehicle_type : Type := CAR | CNG.

Inductive gender_restriction : Type := FEMALE_ONLY | ANY.

Inductive pool_status : Type :=
| WAITING_FOR_RIDERS
| WAITING_FOR_DRIVER
| READY_TO_START
| STARTED
| COMPLETED
| CANCELLED.

Inductive ride_status : Type :=
| RIDE_CREATING_POOL
| RIDE_IN_POOL
| RIDE_DRIVER_ASSIGNED
| RIDE_STARTED
| RIDE_COMPLETED
| RIDE_CANCELLED.

Definition vehicle_type_eqb (a b : vehicle_type) : bool :=
  match a, b with CAR, CAR | CNG, CNG => true | _, _ => false end.

Definition pool_status_eqb (a b : pool_status) : bool :=
  match a, b with
  | WAITING_FOR_RIDERS, WAITING_FOR_RIDERS
  | WAITING_FOR_DRIVER, WAITING_FOR_DRIVER
  | READY_TO_START, READY_TO_START
  | STARTED, STARTED
  | COMPLETED, COMPLETED
  | CANCELLED, CANCELLED => true
  | _, _ => false
  end.

(** [status IN ('STARTED', 'COMPLETED', 'CANCELLED')] *)
Definition terminal (s : pool_status) : bool :=
  match s with STARTED | COMPLETED | CANCELLED => true | _ => false end.

(** [status NOT IN ('COMPLETED', 'CANCELLED')] on rides *)
Definition ride_open (s : ride_status) : bool :=
  match s with RIDE_COMPLETED | RIDE_CANCELLED => false | _ => true end.

Definition uuid_eq (a b : option uuid) : tv := lift2 N.eqb a b.

(** ** Tables *)

Module Users.
Record row : Type := {
  id : uuid;
  is_driver : option bool;
  average_rating : num;
  total_rides : option Z;
  deleted_at : option timestamptz
}.
End Users.

Module Vehicles.
Record row : Type := {
  id : uuid;
  driver_id : uuid;
  vehicle_type : vehicle_type;
  vehicle_number : string;
  is_active : option bool;
  deleted_at : option timestamptz
}.
End Vehicles.

Module VehicleLocations.
Record row : Type := {
  id : uuid;
  vehicle_id : uuid;
  driver_id : uuid;
  pool_id : option uuid;
  current_lat : Q;
  current_lng : Q;
  current_location : option geography;
  heading : num;
  speed_kmh : num;
  accuracy_meters : option Z;
  is_active : option bool;
  is_available : option bool;
  recorded_at : option timestamptz
}.
End VehicleLocations.

Module Config.
Record row : Type := {
  id : uuid;
  config_name : string;
  min_viable_score : Q;
  destination_proximity_weight : num;
  pickup_proximity_weight : num;
  route_overlap_weight : num;
  time_alignment_weight : num;
  detour_penalty_weight : num;
  max_destination_distance_km : num;
  max_pickup_distance_km : num;
  min_route_overlap_percent : num;
  max_detour_percent : num;
  max_time_difference_minutes : option Z;
  front_route_only : option bool;
  max_off_route_distance_km : num;
  is_active : option bool
}.
End Config.

Module Pools.
Record row : Type := {
  id : uuid;
  creator_user_id : uuid;
  driver_id : option uuid;
  vehicle_id : option uuid;
  status : pool_status;
  destination_location : option geography;
  vehicle_type : vehicle_type;
  gender_restriction : option gender_restriction;
  current_passengers : Z;
  max_passengers : Z;
  min_passengers_to_start : Z;
  viability_score : num;
  score_breakdown : option jsonb;
  scoring_config_id : option uuid;
  deleted_at : option timestamptz;
  created_at : option timestamptz
}.
End Pools.

Module Rides.
Record row : Type := {
  id : uuid;
  user_id : uuid;
  pool_id : option uuid;
  pickup_location : option geography;
  dropoff_location : option geography;
  preferred_vehicle_type : vehicle_type;
  preferred_gender_restriction : option gender_restriction;
  status : ride_status;
  is_on_front_route : option bool;
  created_at : option timestamptz;
  cancelled_reason : option string
}.
End Rides.

Module PoolMembers.
Record row : Type := {
  id : uuid;
  pool_id : uuid;
  user_id : uuid;
  ride_id : uuid;
  joined_at : option timestamptz;
  left_at : option timestamptz;
  join_score : num;
  join_score_breakdown : option jsonb;
  is_front_route_passenger : option bool
}.
End PoolMembers.

Module Notifications.
Record row : Type := {
  user_id : uuid;
  title : string;
  message : string;
  type : string;
  metadata : jsonb
}.
End Notifications.

Record database : Type := {
  users : list Users.row;
  vehicles : list Vehicles.row;
  vehicle_locations : list VehicleLocations.row;
  pool_scoring_config : list Config.row;
  pools : list Pools.row;
  rides : list Rides.row;
  pool_members : list PoolMembers.row;
  notifications : list Notifications.row
}.

(** The row type of [can_join_pool]. *)
Module CanJoin.
Record row : Type := {
  can_join : tv;
  viability_score : num;
  score_breakdown : jsonb;
  rejection_reason : option string
}.
End CanJoin.

(** The row type of [find_nearest_available_drivers]. *)
Module Nearest.
Record row : Type := {
  driver_id : uuid;
  vehicle_id : uuid;
  vehicle_type : vehicle_type;
  vehicle_number : string;
  distance_km : num;
  current_lat : Q;
  current_lng : Q;
  heading : num;
  driver_rating : num;
  driver_total_rides : option Z;
  location_updated_at : option timestamptz
}.
End Nearest.

(** ** The scoring engine *)

(** The four columns of a ride that [calculate_pool_viability_score]
    selects [INTO] a record; every field is NULL when no row matches. *)
Record ride_record : Type := {
  rec_pickup_location : option geography;
  rec_dropoff_location : option geography;
  rec_created_at : option timestamptz;
  rec_is_on_front_route : option bool
}.

Definition select_ride (db : database) (p_ride_id : option uuid) : ride_record :=
  match find (fun r => is_true (uuid_eq (Some (Rides.id r)) p_ride_id)) (rides db) with
  | Some r =>
      {| rec_pickup_location := Rides.pickup_location r;
         rec_dropoff_location := Rides.dropoff_location r;
         rec_created_at := Rides.created_at r;
         rec_is_on_front_route := Rides.is_on_front_route r |}
  | None =>
      {| rec_pickup_location := None;
         rec_dropoff_location := None;
         rec_created_at := None;
         rec_is_on_front_route := None |}
  end.

(** [SELECT * FROM pool_scoring_config WHERE config_name = p_config_name
    AND is_active = TRUE LIMIT 1] *)
Definition select_config (db : database) (p_config_name : string)
  : option Config.row :=
  find (fun c => String.eqb (Config.config_name c) p_config_name
                 && is_true (Config.is_active c))
       (pool_scoring_config db).

(** The row type of [RETURNS TABLE (total_score, is_viable, breakdown,
    rejection_reason)]. *)
Record score_result : Type := {
  total_score : num;
  is_viable : tv;
  breakdown : jsonb;
  rejection_reason : option string
}.

Definition calculate_destination_proximity_score
  (distance_km max_distance_km weight : num) : result num :=
  if is_true (num_gt distance_km max_distance_km) then Ok (Some 0)
  else
    ratio <- num_div distance_km max_distance_km ;;
    Ok (num_mul weight (num_sub (Some 1) ratio)).

Definition calculate_pickup_proximity_score
  (distance_km max_distance_km weight : num) : result num :=
  if is_true (num_gt distance_km max_distance_km) then Ok (Some 0)
  else
    ratio <- num_div distance_km max_distance_km ;;
    let base := num_sub (Some 1) ratio in
    Ok (num_mul weight (num_mul base base)).

Definition calculate_route_overlap_score
  (overlap_percent min_overlap_percent weight : num) : result num :=
  if is_true (num_lt overlap_percent min_overlap_percent) then Ok (Some 0)
  else
    ratio <- num_div (num_sub overlap_percent min_overlap_percent)
                     (num_sub (Some 100) min_overlap_percent) ;;
    Ok (num_mul weight ratio).

Definition calculate_time_alignment_score
  (time_diff_minutes max_time_diff_minutes : option Z) (weight : num)
  : result num :=
  if is_true (int_gt time_diff_minutes max_time_diff_minutes) then Ok (Some 0)
  else
    ratio <- num_div (num_of_int time_diff_minutes)
                     (num_of_int max_time_diff_minutes) ;;
    Ok (num_mul weight (num_sub (Some 1) ratio)).

Definition calculate_detour_penalty
  (detour_percent max_detour_percent weight : num) : result num :=
  if is_true (num_gt detour_percent max_detour_percent) then Ok (num_neg weight)
  else
    ratio <- num_div detour_percent max_detour_percent ;;
    Ok (num_mul (num_neg weight) ratio).

(** [ABS(EXTRACT(EPOCH FROM (t1 - t2)) / 60)::INTEGER] *)
Definition time_diff_minutes (t1 t2 : option timestamptz) : option Z :=
  lift2 (fun a b =>
           round_half_away (Qabs (inject_Z (a - b) / 1000000 / 60))) t1 t2.

Section Engine.

(** [ST_Distance] between two geography points, in metres. *)
Variable ST_Distance : geography -> geography -> Q.

(** [FORMAT(template, args...)]; it may raise, as PostgreSQL's [format]
    does on a conversion that it does not know. *)
Variable FORMAT : string -> list fmt_arg -> result string.

Definition distance (a b : option geography) : num := lift2 ST_Distance a b.

(** [ST_DWithin(a, b, metres)] *)
Definition ST_DWithin (a b : option geography) (metres : num) : tv :=
  num_le (distance a b) metres.

(** The five measured quantities ([v_dest_distance_km], ...). *)
Definition dest_distance_km (v_ride1 v_ride2 : ride_record) : num :=
  num_div_by (distance (rec_dropoff_location v_ride1)
                       (rec_dropoff_location v_ride2)) 1000.

Definition pickup_distance_km (v_ride1 v_ride2 : ride_record) : num :=
  num_div_by (distance (rec_pickup_location v_ride1)
                       (rec_pickup_location v_ride2)) 1000.

Definition direct_route_km (v_ride1 : ride_record) : num :=
  num_div_by (distance (rec_pickup_location v_ride1)
                       (rec_dropoff_location v_ride1)) 1000.

Definition pooled_route_km (v_ride1 v_ride2 : ride_record) : num :=
  num_div_by
    (num_add
       (num_add (distance (rec_pickup_location v_ride1)
                          (rec_pickup_location v_ride2))
                (distance (rec_pickup_location v_ride2)
                          (rec_dropoff_location v_ride2)))
       (distance (rec_dropoff_location v_ride2)
                 (rec_dropoff_location v_ride1)))
    1000.

(** [LEAST(100, (v_direct_distance / NULLIF(v_combined_distance, 0)) * 100)] *)
Definition route_overlap_percent (v_ride1 v_ride2 : ride_record) : num :=
  LEAST (Some 100)
    (num_mul (num_div_nullif (direct_route_km v_ride1)
                             (pooled_route_km v_ride1 v_ride2))
             (Some 100)).

(** [((v_pooled_route_km - v_direct_route_km) / NULLIF(v_direct_route_km,
    0)) * 100] *)
Definition detour_percent (v_ride1 v_ride2 : ride_record) : num :=
  num_mul (num_div_nullif (num_sub (pooled_route_km v_ride1 v_ride2)
                                   (direct_route_km v_ride1))
                          (direct_route_km v_ride1))
          (Some 100).

(** The front-route gate: [v_config.front_route_only AND (NOT
    v_ride1.is_on_front_route OR NOT v_ride2.is_on_front_route)]. *)
Definition front_route_gate (v_config : Config.row)
  (v_ride1 v_ride2 : ride_record) : bool :=
  is_true (tv_and (Config.front_route_only v_config)
                  (tv_or (tv_not (rec_is_on_front_route v_ride1))
                         (tv_not (rec_is_on_front_route v_ride2)))).

(** The body of [calculate_pool_viability_score] after its three
    [SELECT ... INTO]. *)
Definition score_rides (v_config : Config.row) (v_ride1 v_ride2 : ride_record)
  : result score_result :=
  if front_route_gate v_config v_ride1 v_ride2 then
    Ok {| total_score := Some 0;
          is_viable := Some false;
          breakdown := JObject [];
          rejection_reason :=
            Some "One or both riders are not on the front route" |}
  else
    let v_rejection_reason : option string := None in
    (* destination proximity *)
    let v_dest_distance_km := dest_distance_km v_ride1 v_ride2 in
    v_rejection_reason <-
      (if is_true (num_gt v_dest_distance_km
                          (Config.max_destination_distance_km v_config))
       then
         msg <- FORMAT "Destinations too far apart: %.2f km (max: %.2f km)"
                  [FNum v_dest_distance_km;
                   FNum (Config.max_destination_distance_km v_config)] ;;
         Ok (Some msg)
       else Ok v_rejection_reason) ;;
    v_dest_score <- calculate_destination_proximity_score
                      v_dest_distance_km
                      (Config.max_destination_distance_km v_config)
                      (Config.destination_proximity_weight v_config) ;;
    (* pickup proximity *)
    let v_pickup_distance_km := pickup_distance_km v_ride1 v_ride2 in
    v_rejection_reason <-
      (if is_true (num_gt v_pickup_distance_km
                          (Config.max_pickup_distance_km v_config))
       then
         msg <- FORMAT "Pickups too far apart: %.2f km (max: %.2f km)"
                  [FNum v_pickup_distance_km;
                   FNum (Config.max_pickup_distance_km v_config)] ;;
         Ok (append_reason v_rejection_reason msg)
       else Ok v_rejection_reason) ;;
    v_pickup_score <- calculate_pickup_proximity_score
                        v_pickup_distance_km
                        (Config.max_pickup_distance_km v_config)
                        (Config.pickup_proximity_weight v_config) ;;
    (* route overlap *)
    let v_route_overlap_percent := route_overlap_percent v_ride1 v_ride2 in
    v_rejection_reason <-
      (if is_true (num_lt v_route_overlap_percent
                          (Config.min_route_overlap_percent v_config))
       then
         msg <- FORMAT "Insufficient route overlap: %.1f%% (min: %.1f%%)"
                  [FNum v_route_overlap_percent;
                   FNum (Config.min_route_overlap_percent v_config)] ;;
         Ok (append_reason v_rejection_reason msg)
       else Ok v_rejection_reason) ;;
    v_overlap_score <- calculate_route_overlap_score
                         v_route_overlap_percent
                         (Config.min_route_overlap_percent v_config)
                         (Config.route_overlap_weight v_config) ;;
    (* time alignment *)
    let v_time_diff_minutes :=
      time_diff_minutes (rec_created_at v_ride1) (rec_created_at v_ride2) in
    v_rejection_reason <-
      (if is_true (int_gt v_time_diff_minutes
                          (Config.max_time_difference_minutes v_config))
       then
         msg <- FORMAT
                  "Requests too far apart in time: %s minutes (max: %s minutes)"
                  [FInt v_time_diff_minutes;
                   FInt (Config.max_time_difference_minutes v_config)] ;;
         Ok (append_reason v_rejection_reason msg)
       else Ok v_rejection_reason) ;;
    v_time_score <- calculate_time_alignment_score
                      v_time_diff_minutes
                      (Config.max_time_difference_minutes v_config)
                      (Config.time_alignment_weight v_config) ;;
    (* detour *)
    let v_detour_percent := detour_percent v_ride1 v_ride2 in
    v_rejection_reason <-
      (if is_true (num_gt v_detour_percent (Config.max_detour_percent v_config))
       then
         msg <- FORMAT "Excessive detour: %.1f%% (max: %.1f%%)"
                  [FNum v_detour_percent;
                   FNum (Config.max_detour_percent v_config)] ;;
         Ok (append_reason v_rejection_reason msg)
       else Ok v_rejection_reason) ;;
    v_detour_score <- calculate_detour_penalty
                        v_detour_percent
                        (Config.max_detour_percent v_config)
                        (Config.detour_penalty_weight v_config) ;;
    let v_total_score :=
      GREATEST (Some 0)
        (LEAST (Some 100)
           (num_add
              (num_add
                 (num_add (num_add v_dest_score v_pickup_score) v_overlap_score)
                 v_time_score)
              v_detour_score)) in
    Ok {| total_score := v_total_score;
          is_viable :=
            tv_and (num_ge v_total_score
                           (Some (Config.min_viable_score v_config)))
                   (Some (is_null v_rejection_reason));
          breakdown :=
            JObject
              [("destination_proximity",
                JObject
                  [("score", jnum (ROUND v_dest_score 2));
                   ("distance_km", jnum (ROUND v_dest_distance_km 2));
                   ("max_allowed_km",
                    jnum (Config.max_destination_distance_km v_config))]);
               ("pickup_proximity",
                JObject
                  [("score", jnum (ROUND v_pickup_score 2));
                   ("distance_km", jnum (ROUND v_pickup_distance_km 2));
                   ("max_allowed_km",
                    jnum (Config.max_pickup_distance_km v_config))]);
               ("route_overlap",
                JObject
                  [("score", jnum (ROUND v_overlap_score 2));
                   ("overlap_percent", jnum (ROUND v_route_overlap_percent 1));
                   ("min_required_percent",
                    jnum (Config.min_route_overlap_percent v_config))]);
               ("time_alignment",
                JObject
                  [("score", jnum (ROUND v_time_score 2));
                   ("time_diff_minutes", jint v_time_diff_minutes);
                   ("max_allowed_minutes",
                    jint (Config.max_time_difference_minutes v_config))]);
               ("detour_penalty",
                JObject
                  [("score", jnum (ROUND v_detour_score 2));
                   ("detour_percent", jnum (ROUND v_detour_percent 1));
                   ("max_allowed_percent",
                    jnum (Config.max_detour_percent v_config))]);
               ("total_score", jnum (ROUND v_total_score 2));
               ("min_viable_score",
                JNum (Config.min_viable_score v_config))];
          rejection_reason := v_rejection_reason |}.

Definition calculate_pool_viability_score (db : database)
  (p_ride1_id p_ride2_id : option uuid) (p_config_name : string)
  : result score_result :=
  match select_config db p_config_name with
  | None =>
      Raise ("Scoring configuration " ++ dquote ++ p_config_name
             ++ dquote ++ " not found")
  | Some v_config =>
      score_rides v_config (select_ride db p_ride1_id)
                  (select_ride db p_ride2_id)
  end.

(** ** The pool state machine *)

Definition select_pool (db : database) (p_pool_id : uuid) : option Pools.row :=
  find (fun p => N.eqb (Pools.id p) p_pool_id) (pools db).

(** [LEFT JOIN pool_scoring_config c ON c.id = p.scoring_config_id] *)
Definition config_of_pool (db : database) (p : Pools.row) : option Config.row :=
  match Pools.scoring_config_id p with
  | None => None
  | Some cid => find (fun c => N.eqb (Config.id c) cid) (pool_scoring_config db)
  end.

(** [SELECT COALESCE(c.front_route_only, TRUE) INTO v_front_route_only]:
    NULL when the pool row does not exist. *)
Definition pool_front_route_only (db : database) (p_pool_id : uuid) : tv :=
  match select_pool db p_pool_id with
  | None => None
  | Some p =>
      Some (COALESCE
              (match config_of_pool db p with
               | Some c => Config.front_route_only c
               | None => None
               end) true)
  end.

(** The [WHERE] clause of the member counts: active members of the pool,
    front-route members only when [front_only]. *)
Definition counted_member (p_pool_id : uuid) (front_only : bool)
  (pm : PoolMembers.row) : bool :=
  N.eqb (PoolMembers.pool_id pm) p_pool_id
  && is_null (PoolMembers.left_at pm)
  && (if front_only
      then is_true (PoolMembers.is_front_route_passenger pm)
      else true).

Definition count_members (db : database) (p_pool_id : uuid)
  (v_front_route_only : tv) : Z :=
  Z.of_nat (List.length (filter (counted_member p_pool_id (is_true v_front_route_only))
                           (pool_members db))).

(** The [CASE] of [sync_pool_status] and [sync_pool_status_internal]. *)
Definition next_status (status : pool_status) (v_count v_min_passengers : Z)
  (v_has_driver : bool) : pool_status :=
  if terminal status then status
  else if (v_count >=? v_min_passengers)%Z && v_has_driver then READY_TO_START
  else if (v_count >=? v_min_passengers)%Z && negb v_has_driver
       then WAITING_FOR_DRIVER
  else WAITING_FOR_RIDERS.

(** The [CHECK] constraints of [pools] over the columns that the embedded
    statements write: [current_passengers >= 0], [pool_capacity] and
    [pool_driver_required_when_started]. *)
Definition pool_checks (p : Pools.row) : bool :=
  (0 <=? Pools.current_passengers p)%Z
  && (Pools.current_passengers p <=? Pools.max_passengers p)%Z
  && (negb (match Pools.status p with
            | STARTED | COMPLETED => true
            | _ => false
            end)
      || negb (is_null (Pools.driver_id p))).

Definition set_pools (db : database) (ps : list Pools.row) : database :=
  {| users := users db;
     vehicles := vehicles db;
     vehicle_locations := vehicle_locations db;
     pool_scoring_config := pool_scoring_config db;
     pools := ps;
     rides := rides db;
     pool_members := pool_members db;
     notifications := notifications db |}.

Definition set_rides (db : database) (rs : list Rides.row) : database :=
  {| users := users db;
     vehicles := vehicles db;
     vehicle_locations := vehicle_locations db;
     pool_scoring_config := pool_scoring_config db;
     pools := pools db;
     rides := rs;
     pool_members := pool_members db;
     notifications := notifications db |}.

Definition set_pool_members (db : database) (ms : list PoolMembers.row)
  : database :=
  {| users := users db;
     vehicles := vehicles db;
     vehicle_locations := vehicle_locations db;
     pool_scoring_config := pool_scoring_config db;
     pools := pools db;
     rides := rides db;
     pool_members := ms;
     notifications := notifications db |}.

Definition set_notifications (db : database) (ns : list Notifications.row)
  : database :=
  {| users := users db;
     vehicles := vehicles db;
     vehicle_locations := vehicle_locations db;
     pool_scoring_config := pool_scoring_config db;
     pools := pools db;
     rides := rides db;
     pool_members := pool_members db;
     notifications := ns |}.

Definition set_vehicle_locations (db : database)
  (ls : list VehicleLocations.row) : database :=
  {| users := users db;
     vehicles := vehicles db;
     vehicle_locations := ls;
     pool_scoring_config := pool_scoring_config db;
     pools := pools db;
     rides := rides db;
     pool_members := pool_members db;
     notifications := notifications db |}.

(** [UPDATE public.pools SET ... WHERE id = p_pool_id]: every row with that
    id is rewritten by [f]; the statement fails when a rewritten row
    violates a [CHECK]. *)
Definition update_pools (db : database) (p_pool_id : uuid)
  (f : Pools.row -> Pools.row) : result database :=
  let ps := map (fun p => if N.eqb (Pools.id p) p_pool_id then f p else p)
                (pools db) in
  if forallb (fun p => negb (N.eqb (Pools.id p) p_pool_id) || pool_checks p) ps
  then Ok (set_pools db ps)
  else Raise "new row for relation pools violates check constraint".

Definition pool_with_count_status (v_count : Z) (s : pool_status)
  (p : Pools.row) : Pools.row :=
  {| Pools.id := Pools.id p;
     Pools.creator_user_id := Pools.creator_user_id p;
     Pools.driver_id := Pools.driver_id p;
     Pools.vehicle_id := Pools.vehicle_id p;
     Pools.status := s;
     Pools.destination_location := Pools.destination_location p;
     Pools.vehicle_type := Pools.vehicle_type p;
     Pools.gender_restriction := Pools.gender_restriction p;
     Pools.current_passengers := v_count;
     Pools.max_passengers := Pools.max_passengers p;
     Pools.min_passengers_to_start := Pools.min_passengers_to_start p;
     Pools.viability_score := Pools.viability_score p;
     Pools.score_breakdown := Pools.score_breakdown p;
     Pools.scoring_config_id := Pools.scoring_config_id p;
     Pools.deleted_at := Pools.deleted_at p;
     Pools.created_at := Pools.created_at p |}.

Definition pool_with_score (score : num) (b : option jsonb) (p : Pools.row)
  : Pools.row :=
  {| Pools.id := Pools.id p;
     Pools.creator_user_id := Pools.creator_user_id p;
     Pools.driver_id := Pools.driver_id p;
     Pools.vehicle_id := Pools.vehicle_id p;
     Pools.status := Pools.status p;
     Pools.destination_location := Pools.destination_location p;
     Pools.vehicle_type := Pools.vehicle_type p;
     Pools.gender_restriction := Pools.gender_restriction p;
     Pools.current_passengers := Pools.current_passengers p;
     Pools.max_passengers := Pools.max_passengers p;
     Pools.min_passengers_to_start := Pools.min_passengers_to_start p;
     Pools.viability_score := score;
     Pools.score_breakdown := b;
     Pools.scoring_config_id := Pools.scoring_config_id p;
     Pools.deleted_at := Pools.deleted_at p;
     Pools.created_at := Pools.created_at p |}.

Definition pool_cancelled (now : timestamptz) (p : Pools.row) : Pools.row :=
  {| Pools.id := Pools.id p;
     Pools.creator_user_id := Pools.creator_user_id p;
     Pools.driver_id := Pools.driver_id p;
     Pools.vehicle_id := Pools.vehicle_id p;
     Pools.status := CANCELLED;
     Pools.destination_location := Pools.destination_location p;
     Pools.vehicle_type := Pools.vehicle_type p;
     Pools.gender_restriction := Pools.gender_restriction p;
     Pools.current_passengers := Pools.current_passengers p;
     Pools.max_passengers := Pools.max_passengers p;
     Pools.min_passengers_to_start := Pools.min_passengers_to_start p;
     Pools.viability_score := Pools.viability_score p;
     Pools.score_breakdown := Pools.score_breakdown p;
     Pools.scoring_config_id := Pools.scoring_config_id p;
     Pools.deleted_at := Some now;
     Pools.created_at := Pools.created_at p |}.

Definition pool_with_driver (d v : option uuid) (p : Pools.row) : Pools.row :=
  {| Pools.id := Pools.id p;
     Pools.creator_user_id := Pools.creator_user_id p;
     Pools.driver_id := d;
     Pools.vehicle_id := v;
     Pools.status := Pools.status p;
     Pools.destination_location := Pools.destination_location p;
     Pools.vehicle_type := Pools.vehicle_type p;
     Pools.gender_restriction := Pools.gender_restriction p;
     Pools.current_passengers := Pools.current_passengers p;
     Pools.max_passengers := Pools.max_passengers p;
     Pools.min_passengers_to_start := Pools.min_passengers_to_start p;
     Pools.viability_score := Pools.viability_score p;
     Pools.score_breakdown := Pools.score_breakdown p;
     Pools.scoring_config_id := Pools.scoring_config_id p;
     Pools.deleted_at := Pools.deleted_at p;
     Pools.created_at := Pools.created_at p |}.

(** [sync_pool_status], the row trigger [sync_pool_status_on_member_change]
    of [pool_members], for [v_pool_id = COALESCE(NEW.pool_id, OLD.pool_id)].
    Its [UPDATE] writes [status], so the trigger [cascade_pool_cancel] is
    considered; its [WHEN] never holds, because the [CASE] yields
    [CANCELLED] only for a row that is [CANCELLED] already. *)
Definition sync_pool_status (db : database) (v_pool_id : uuid)
  : result database :=
  match select_pool db v_pool_id with
  | None => Ok db
  | Some p0 =>
      let v_min_passengers := Pools.min_passengers_to_start p0 in
      let v_has_driver := negb (is_null (Pools.driver_id p0)) in
      let v_front_route_only := pool_front_route_only db v_pool_id in
      let v_count := count_members db v_pool_id v_front_route_only in
      update_pools db v_pool_id
        (fun p => pool_with_count_status v_count
                    (next_status (Pools.status p) v_count v_min_passengers
                                 v_has_driver) p)
  end.

(** [sync_pool_status_internal(p_pool_id)]: the same [CASE], without the
    write of [current_passengers]. *)
Definition sync_pool_status_internal (db : database) (p_pool_id : uuid)
  : result database :=
  match select_pool db p_pool_id with
  | None => Ok db
  | Some p0 =>
      let v_min_passengers := Pools.min_passengers_to_start p0 in
      let v_has_driver := negb (is_null (Pools.driver_id p0)) in
      let v_front_route_only := pool_front_route_only db p_pool_id in
      let v_count := count_members db p_pool_id v_front_route_only in
      update_pools db p_pool_id
        (fun p => pool_with_count_status (Pools.current_passengers p)
                    (next_status (Pools.status p) v_count v_min_passengers
                                 v_has_driver) p)
  end.

(** The row trigger [sync_pool_status_on_member_change] after a statement
    on [pool_members] that touched the rows [touched]. *)
Fixpoint after_pool_members_change (db : database)
  (touched : list PoolMembers.row) : result database :=
  match touched with
  | [] => Ok db
  | pm :: rest =>
      db1 <- sync_pool_status db (PoolMembers.pool_id pm) ;;
      after_pool_members_change db1 rest
  end.

(** ** Cancellation cascade *)

Definition ride_cancelled (reason : string) (r : Rides.row) : Rides.row :=
  {| Rides.id := Rides.id r;
     Rides.user_id := Rides.user_id r;
     Rides.pool_id := Rides.pool_id r;
     Rides.pickup_location := Rides.pickup_location r;
     Rides.dropoff_location := Rides.dropoff_location r;
     Rides.preferred_vehicle_type := Rides.preferred_vehicle_type r;
     Rides.preferred_gender_restriction := Rides.preferred_gender_restriction r;
     Rides.status := RIDE_CANCELLED;
     Rides.is_on_front_route := Rides.is_on_front_route r;
     Rides.created_at := Rides.created_at r;
     Rides.cancelled_reason := Some reason |}.

Definition member_left (now : timestamptz) (pm : PoolMembers.row)
  : PoolMembers.row :=
  {| PoolMembers.id := PoolMembers.id pm;
     PoolMembers.pool_id := PoolMembers.pool_id pm;
     PoolMembers.user_id := PoolMembers.user_id pm;
     PoolMembers.ride_id := PoolMembers.ride_id pm;
     PoolMembers.joined_at := PoolMembers.joined_at pm;
     PoolMembers.left_at := Some now;
     PoolMembers.join_score := PoolMembers.join_score pm;
     PoolMembers.join_score_breakdown := PoolMembers.join_score_breakdown pm;
     PoolMembers.is_front_route_passenger :=
       PoolMembers.is_front_route_passenger pm |}.

Definition member_with_score (score : num) (b : option jsonb)
  (pm : PoolMembers.row) : PoolMembers.row :=
  {| PoolMembers.id := PoolMembers.id pm;
     PoolMembers.pool_id := PoolMembers.pool_id pm;
     PoolMembers.user_id := PoolMembers.user_id pm;
     PoolMembers.ride_id := PoolMembers.ride_id pm;
     PoolMembers.joined_at := PoolMembers.joined_at pm;
     PoolMembers.left_at := PoolMembers.left_at pm;
     PoolMembers.join_score := score;
     PoolMembers.join_score_breakdown := b;
     PoolMembers.is_front_route_passenger :=
       PoolMembers.is_front_route_passenger pm |}.

(** [WHERE pool_id = NEW.id AND status NOT IN ('COMPLETED', 'CANCELLED')] *)
Definition ride_to_cancel (p_pool_id : uuid) (r : Rides.row) : bool :=
  is_true (uuid_eq (Rides.pool_id r) (Some p_pool_id))
  && ride_open (Rides.status r).

(** [WHERE pool_id = NEW.id AND left_at IS NULL] *)
Definition member_active (p_pool_id : uuid) (pm : PoolMembers.row) : bool :=
  N.eqb (PoolMembers.pool_id pm) p_pool_id
  && is_null (PoolMembers.left_at pm).

(** The [WHEN] of the trigger [cascade_pool_cancel], repeated by the
    [IF] of its function. *)
Definition becomes_cancelled (OLD NEW : Pools.row) : bool :=
  pool_status_eqb (Pools.status NEW) CANCELLED
  && negb (pool_status_eqb (Pools.status OLD) CANCELLED).

(** [cascade_pool_cancellation()].  Its [UPDATE] of [rides] writes
    [status] and [cancelled_reason] only, which fires no ride trigger with
    a [WHEN] that holds; its [UPDATE] of [pool_members] fires
    [sync_pool_status] for every row it touched. *)
Definition cascade_pool_cancellation (db : database) (OLD NEW : Pools.row)
  (now : timestamptz) : result database :=
  if becomes_cancelled OLD NEW then
    let db1 :=
      set_rides db
        (map (fun r => if ride_to_cancel (Pools.id NEW) r
                       then ride_cancelled "Pool was cancelled" r
                       else r)
             (rides db)) in
    let touched := filter (member_active (Pools.id NEW)) (pool_members db1) in
    let db2 :=
      set_pool_members db1
        (map (fun pm => if member_active (Pools.id NEW) pm
                        then member_left now pm
                        else pm)
             (pool_members db1)) in
    after_pool_members_change db2 touched
  else Ok db.

(** The trigger [cascade_pool_cancel], [AFTER UPDATE OF status ... FOR
    EACH ROW WHEN (NEW.status = 'CANCELLED' AND OLD.status !=
    'CANCELLED')], for the rows [olds] rewritten by [f]. *)
Fixpoint cascade_pool_cancel (db : database) (olds : list Pools.row)
  (f : Pools.row -> Pools.row) (now : timestamptz) : result database :=
  match olds with
  | [] => Ok db
  | OLD :: rest =>
      db1 <- (if becomes_cancelled OLD (f OLD)
              then cascade_pool_cancellation db OLD (f OLD) now
              else Ok db) ;;
      cascade_pool_cancel db1 rest f now
  end.

(** [UPDATE public.pools SET status = 'CANCELLED', deleted_at = NOW()
    WHERE id = p_pool_id], with its trigger. *)
Definition update_pool_cancelled (db : database) (p_pool_id : uuid)
  (now : timestamptz) : result database :=
  let olds := filter (fun p => N.eqb (Pools.id p) p_pool_id) (pools db) in
  db1 <- update_pools db p_pool_id (pool_cancelled now) ;;
  cascade_pool_cancel db1 olds (pool_cancelled now) now.

(** ** Scoring on join *)

(** [ORDER BY key ASC]: a stable insertion sort. *)
Fixpoint insert_by {A : Type} (leb : A -> A -> bool) (x : A) (l : list A)
  : list A :=
  match l with
  | [] => [x]
  | y :: rest => if leb x y then x :: l else y :: insert_by leb x rest
  end.

Definition ORDER_BY {A : Type} (leb : A -> A -> bool) (l : list A) : list A :=
  fold_right (insert_by leb) [] l.

(** Ascending order of a nullable timestamp, NULLs last. *)
Definition timestamp_leb (a b : option timestamptz) : bool :=
  match a, b with
  | Some x, Some y => (x <=? y)%Z
  | _, None => true
  | None, Some _ => false
  end.

Definition joined_at_leb (a b : PoolMembers.row) : bool :=
  timestamp_leb (PoolMembers.joined_at a) (PoolMembers.joined_at b).

(** The row that the [INSERT INTO public.notifications ... SELECT] builds
    for the membership [pm]. *)
Definition pool_cancelled_notification (pm : PoolMembers.row)
  (p_pool_id : uuid) (v_score_result : score_result)
  : result Notifications.row :=
  msg <- FORMAT "Pool cancelled: %s (Score: %.1f/100)"
           [FText (rejection_reason v_score_result);
            FNum (total_score v_score_result)] ;;
  Ok {| Notifications.user_id := PoolMembers.user_id pm;
        Notifications.title := "Pool Formation Failed";
        Notifications.message := msg;
        Notifications.type := "POOL_CANCELLED";
        Notifications.metadata :=
          JObject [("pool_id", JUuid p_pool_id);
                   ("score", jnum (total_score v_score_result))] |}.

(** [update_pool_viability_score()], the row trigger
    [validate_pool_score_on_member_join] after an insert of [NEW] into
    [pool_members].  [viability_score] and [join_score] are
    [DECIMAL(5,2)] columns, hence the [ROUND]. *)
Definition update_pool_viability_score (db : database) (NEW : PoolMembers.row)
  (now : timestamptz) : result database :=
  let p_pool_id := PoolMembers.pool_id NEW in
  let v_front_route_only := pool_front_route_only db p_pool_id in
  let v_member_count := count_members db p_pool_id v_front_route_only in
  if (v_member_count =? 2)%Z then
    let ordered :=
      ORDER_BY joined_at_leb
        (filter (counted_member p_pool_id (is_true v_front_route_only))
                (pool_members db)) in
    let v_first_ride_id := option_map PoolMembers.ride_id (nth_error ordered 0) in
    let v_second_ride_id := option_map PoolMembers.ride_id (nth_error ordered 1) in
    v_score_result <- calculate_pool_viability_score db v_first_ride_id
                        v_second_ride_id "default" ;;
    db1 <- update_pools db p_pool_id
             (pool_with_score (ROUND (total_score v_score_result) 2)
                              (Some (breakdown v_score_result))) ;;
    let is_new pm := N.eqb (PoolMembers.id pm) (PoolMembers.id NEW) in
    let db2 :=
      set_pool_members db1
        (map (fun pm => if is_new pm
                        then member_with_score
                               (ROUND (total_score v_score_result) 2)
                               (Some (breakdown v_score_result)) pm
                        else pm)
             (pool_members db1)) in
    db3 <- after_pool_members_change db2 (filter is_new (pool_members db1)) ;;
    if is_true (tv_not (is_viable v_score_result)) then
      db4 <- update_pool_cancelled db3 p_pool_id now ;;
      inserted <- map_result
                    (fun pm => pool_cancelled_notification pm p_pool_id
                                 v_score_result)
                    (filter (fun pm => N.eqb (PoolMembers.pool_id pm) p_pool_id)
                            (pool_members db4)) ;;
      Ok (set_notifications db4 (notifications db4 ++ inserted))
    else Ok db3
  else Ok db.

(** ** The statements that drive the state machine *)

(** Primary key, [UNIQUE(pool_id, user_id)], [UNIQUE(ride_id)] and the
    foreign keys of [pool_members]. *)
Definition pool_members_insertable (db : database) (NEW : PoolMembers.row)
  : bool :=
  forallb (fun pm =>
             negb (N.eqb (PoolMembers.id pm) (PoolMembers.id NEW))
             && negb (N.eqb (PoolMembers.pool_id pm) (PoolMembers.pool_id NEW)
                      && N.eqb (PoolMembers.user_id pm) (PoolMembers.user_id NEW))
             && negb (N.eqb (PoolMembers.ride_id pm) (PoolMembers.ride_id NEW)))
          (pool_members db)
  && existsb (fun p => N.eqb (Pools.id p) (PoolMembers.pool_id NEW)) (pools db)
  && existsb (fun u => N.eqb (Users.id u) (PoolMembers.user_id NEW)) (users db)
  && existsb (fun r => N.eqb (Rides.id r) (PoolMembers.ride_id NEW)) (rides db).

(** [INSERT INTO public.pool_members]: the two [AFTER INSERT] row triggers
    fire in the order of their names, [sync_pool_status_on_member_change]
    before [validate_pool_score_on_member_join]. *)
Definition insert_pool_member (db : database) (NEW : PoolMembers.row)
  (now : timestamptz) : result database :=
  if pool_members_insertable db NEW then
    let db1 := set_pool_members db (pool_members db ++ [NEW]) in
    db2 <- sync_pool_status db1 (PoolMembers.pool_id NEW) ;;
    update_pool_viability_score db2 NEW now
  else Raise "insert on pool_members violates a key constraint".

(** [UPDATE public.pool_members SET left_at = NOW() WHERE id = member_id] *)
Definition leave_pool_member (db : database) (member_id : uuid)
  (now : timestamptz) : result database :=
  let hit pm := N.eqb (PoolMembers.id pm) member_id in
  let db1 :=
    set_pool_members db
      (map (fun pm => if hit pm then member_left now pm else pm)
           (pool_members db)) in
  after_pool_members_change db1 (filter hit (pool_members db)).

(** [DELETE FROM public.pool_members WHERE id = member_id] *)
Definition delete_pool_member (db : database) (member_id : uuid)
  : result database :=
  let hit pm := N.eqb (PoolMembers.id pm) member_id in
  let db1 :=
    set_pool_members db (filter (fun pm => negb (hit pm)) (pool_members db)) in
  after_pool_members_change db1 (filter hit (pool_members db)).

(** The trigger [sync_pool_status_on_driver_assignment], [AFTER UPDATE OF
    driver_id ... WHEN (OLD.driver_id IS DISTINCT FROM NEW.driver_id)]. *)
Definition is_distinct_from (a b : option uuid) : bool :=
  match a, b with
  | Some x, Some y => negb (N.eqb x y)
  | None, None => false
  | _, _ => true
  end.

Fixpoint sync_pool_status_on_driver_change (db : database)
  (olds : list Pools.row) (d : option uuid) : result database :=
  match olds with
  | [] => Ok db
  | OLD :: rest =>
      db1 <- (if is_distinct_from (Pools.driver_id OLD) d
              then sync_pool_status_internal db (Pools.id OLD)
              else Ok db) ;;
      sync_pool_status_on_driver_change db1 rest d
  end.

(** [UPDATE public.pools SET driver_id = d, vehicle_id = v WHERE id =
    p_pool_id] *)
Definition set_pool_driver (db : database) (p_pool_id : uuid)
  (d v : option uuid) : result database :=
  let olds := filter (fun p => N.eqb (Pools.id p) p_pool_id) (pools db) in
  db1 <- update_pools db p_pool_id (pool_with_driver d v) ;;
  sync_pool_status_on_driver_change db1 olds d.

Inductive event : Type :=
| InsertMember (NEW : PoolMembers.row)
| LeaveMember (member_id : uuid)
| DeleteMember (member_id : uuid)
| SetDriver (p_pool_id : uuid) (d v : option uuid)
| Recompute (p_pool_id : uuid).

Definition step (db : database) (now : timestamptz) (e : event)
  : result database :=
  match e with
  | InsertMember NEW => insert_pool_member db NEW now
  | LeaveMember member_id => leave_pool_member db member_id now
  | DeleteMember member_id => delete_pool_member db member_id
  | SetDriver p_pool_id d v => set_pool_driver db p_pool_id d v
  | Recompute p_pool_id => sync_pool_status_internal db p_pool_id
  end.

(** A statement that raises is rolled back. *)
Definition exec (db : database) (now : timestamptz) (e : event) : database :=
  match step db now e with
  | Ok db1 => db1
  | Raise _ => db
  end.

Fixpoint run (db : database) (evs : list (timestamptz * event)) : database :=
  match evs with
  | [] => db
  | (now, e) :: rest => run (exec db now e) rest
  end.

Definition pool_status_of (db : database) (p_pool_id : uuid)
  : option pool_status :=
  option_map Pools.status (select_pool db p_pool_id).

(** ** The join check *)

(** [WHERE pool_id = p_pool_id AND left_at IS NULL AND (NOT
    v_config.front_route_only OR is_front_route_passenger = TRUE)];
    [v_config] is a record of NULLs when no configuration was found. *)
Definition eligible_member (v_config : option Config.row) (p_pool_id : uuid)
  (pm : PoolMembers.row) : bool :=
  N.eqb (PoolMembers.pool_id pm) p_pool_id
  && is_null (PoolMembers.left_at pm)
  && is_true (tv_or (tv_not (match v_config with
                             | Some c => Config.front_route_only c
                             | None => None
                             end))
                    (PoolMembers.is_front_route_passenger pm)).

(** [SELECT ride_id INTO v_existing_ride_id FROM public.pool_members
    WHERE ... LIMIT 1]: no [ORDER BY], the first eligible row of the
    scan. *)
Definition existing_ride_id (db : database) (p_pool_id : uuid)
  (p_config_name : string) : option uuid :=
  option_map PoolMembers.ride_id
    (find (eligible_member (select_config db p_config_name) p_pool_id)
          (pool_members db)).

Definition can_join_pool (db : database) (p_pool_id p_new_ride_id : uuid)
  (p_config_name : string) : result CanJoin.row :=
  match existing_ride_id db p_pool_id p_config_name with
  | None =>
      Ok {| CanJoin.can_join := Some true;
            CanJoin.viability_score := Some 100;
            CanJoin.score_breakdown := JObject [];
            CanJoin.rejection_reason := Some "First member - auto-approved" |}
  | Some v_existing_ride_id =>
      v_score_result <- calculate_pool_viability_score db
                          (Some v_existing_ride_id) (Some p_new_ride_id)
                          p_config_name ;;
      Ok {| CanJoin.can_join := is_viable v_score_result;
            CanJoin.viability_score := total_score v_score_result;
            CanJoin.score_breakdown := breakdown v_score_result;
            CanJoin.rejection_reason := rejection_reason v_score_result |}
  end.

(** ** Location ingestion *)

(** A value stored in a [DECIMAL(precision, scale)] column: rounded to
    [scale] digits, an overflow error when it needs more than [precision]
    digits. *)
Definition to_decimal (precision scale : nat) (x : Q) : result Q :=
  match ROUND (Some x) scale with
  | Some q =>
      if Qlt_bool (Qabs q) (pow10 (precision - scale)) then Ok q
      else Raise "numeric field overflow"
  | None => Raise "numeric field overflow"
  end.

Definition to_decimal_opt (precision scale : nat) (x : num) : result num :=
  match x with
  | None => Ok None
  | Some q => r <- to_decimal precision scale q ;; Ok (Some r)
  end.

Definition location_deactivated (vl : VehicleLocations.row)
  : VehicleLocations.row :=
  {| VehicleLocations.id := VehicleLocations.id vl;
     VehicleLocations.vehicle_id := VehicleLocations.vehicle_id vl;
     VehicleLocations.driver_id := VehicleLocations.driver_id vl;
     VehicleLocations.pool_id := VehicleLocations.pool_id vl;
     VehicleLocations.current_lat := VehicleLocations.current_lat vl;
     VehicleLocations.current_lng := VehicleLocations.current_lng vl;
     VehicleLocations.current_location := VehicleLocations.current_location vl;
     VehicleLocations.heading := VehicleLocations.heading vl;
     VehicleLocations.speed_kmh := VehicleLocations.speed_kmh vl;
     VehicleLocations.accuracy_meters := VehicleLocations.accuracy_meters vl;
     VehicleLocations.is_active := Some false;
     VehicleLocations.is_available := VehicleLocations.is_available vl;
     VehicleLocations.recorded_at := VehicleLocations.recorded_at vl |}.

(** [WHERE vehicle_id = p_vehicle_id AND is_active = TRUE] *)
Definition active_sample_of (p_vehicle_id : uuid) (vl : VehicleLocations.row)
  : bool :=
  N.eqb (VehicleLocations.vehicle_id vl) p_vehicle_id
  && is_true (VehicleLocations.is_active vl).

(** Primary key, foreign keys and the [valid_heading] and [valid_speed]
    checks of [vehicle_locations]. *)
Definition vehicle_location_insertable (db : database)
  (NEW : VehicleLocations.row) : bool :=
  forallb (fun vl => negb (N.eqb (VehicleLocations.id vl)
                                 (VehicleLocations.id NEW)))
          (vehicle_locations db)
  && existsb (fun v => N.eqb (Vehicles.id v) (VehicleLocations.vehicle_id NEW))
             (vehicles db)
  && existsb (fun u => N.eqb (Users.id u) (VehicleLocations.driver_id NEW))
             (users db)
  && match VehicleLocations.pool_id NEW with
     | None => true
     | Some pid => existsb (fun p => N.eqb (Pools.id p) pid) (pools db)
     end
  && match VehicleLocations.heading NEW with
     | None => true
     | Some h => Qle_bool 0 h && Qlt_bool h 360
     end
  && match VehicleLocations.speed_kmh NEW with
     | None => true
     | Some v => Qle_bool 0 v
     end.

(** [update_driver_location(...)].  [v_location_id] is the identifier that
    [uuid_generate_v4()] draws for the new row and [now] the value of
    [NOW()]; the result is the new database with the returned id. *)
Definition update_driver_location (db : database)
  (p_driver_id p_vehicle_id : uuid) (p_current_lat p_current_lng : Q)
  (p_heading p_speed_kmh : num) (p_accuracy_meters : option Z)
  (p_pool_id : option uuid) (v_location_id : uuid) (now : timestamptz)
  : result (database * uuid) :=
  let v_is_driver :=
    match find (fun u => N.eqb (Users.id u) p_driver_id) (users db) with
    | Some u => Users.is_driver u
    | None => None
    end in
  if is_true (tv_not v_is_driver) then Raise "User % is not a driver"
  else
    let db1 :=
      set_vehicle_locations db
        (map (fun vl => if active_sample_of p_vehicle_id vl
                        then location_deactivated vl
                        else vl)
             (vehicle_locations db)) in
    v_lat <- to_decimal 10 8 p_current_lat ;;
    v_lng <- to_decimal 11 8 p_current_lng ;;
    v_heading <- to_decimal_opt 5 2 p_heading ;;
    v_speed <- to_decimal_opt 5 2 p_speed_kmh ;;
    let NEW :=
      {| VehicleLocations.id := v_location_id;
         VehicleLocations.vehicle_id := p_vehicle_id;
         VehicleLocations.driver_id := p_driver_id;
         VehicleLocations.pool_id := p_pool_id;
         VehicleLocations.current_lat := v_lat;
         VehicleLocations.current_lng := v_lng;
         VehicleLocations.current_location :=
           Some (MakePoint v_lng v_lat);
         VehicleLocations.heading := v_heading;
         VehicleLocations.speed_kmh := v_speed;
         VehicleLocations.accuracy_meters := p_accuracy_meters;
         VehicleLocations.is_active := Some true;
         VehicleLocations.is_available := Some (is_null p_pool_id);
         VehicleLocations.recorded_at := Some now |} in
    if vehicle_location_insertable db1 NEW then
      Ok (set_vehicle_locations db1 (vehicle_locations db1 ++ [NEW]),
          v_location_id)
    else Raise "insert on vehicle_locations violates a constraint".


(** ** Nearest available drivers ([1_init_schema.sql]) *)

(** A row of [vehicle_locations vl INNER JOIN vehicles veh ON veh.id =
    vl.vehicle_id INNER JOIN users u ON u.id = vl.driver_id]. *)
Definition joined_sample : Type :=
  (VehicleLocations.row * Vehicles.row * Users.row)%type.

Definition samples_joined (db : database) : list joined_sample :=
  flat_map
    (fun vl =>
       flat_map
         (fun veh =>
            map (fun u => (vl, veh, u))
                (filter (fun u => N.eqb (Users.id u)
                                        (VehicleLocations.driver_id vl))
                        (users db)))
         (filter (fun veh => N.eqb (Vehicles.id veh)
                                   (VehicleLocations.vehicle_id vl))
                 (vehicles db)))
    (vehicle_locations db).

(** The [WHERE] clause of [find_nearest_available_drivers]. *)
Definition nearest_where (pickup : geography) (p_vehicle_type : option vehicle_type)
  (p_max_distance_km : num) (j : joined_sample) : tv :=
  let '(vl, veh, u) := j in
  tv_and (VehicleLocations.is_available vl)
  (tv_and (VehicleLocations.is_active vl)
  (tv_and (Vehicles.is_active veh)
  (tv_and (Some (is_null (Vehicles.deleted_at veh)))
  (tv_and (Users.is_driver u)
  (tv_and (Some (is_null (Users.deleted_at u)))
  (tv_and (tv_or (Some (is_null p_vehicle_type))
                 (lift2 vehicle_type_eqb (Some (Vehicles.vehicle_type veh))
                        p_vehicle_type))
          (ST_DWithin (Some pickup) (VehicleLocations.current_location vl)
                      (num_mul p_max_distance_km (Some 1000))))))))).

(** The select list. *)
Definition nearest_row (pickup : geography) (j : joined_sample) : Nearest.row :=
  let '(vl, veh, u) := j in
  {| Nearest.driver_id := VehicleLocations.driver_id vl;
     Nearest.vehicle_id := VehicleLocations.vehicle_id vl;
     Nearest.vehicle_type := Vehicles.vehicle_type veh;
     Nearest.vehicle_number := Vehicles.vehicle_number veh;
     Nearest.distance_km :=
       num_div_by (distance (Some pickup)
                            (VehicleLocations.current_location vl)) 1000;
     Nearest.current_lat := VehicleLocations.current_lat vl;
     Nearest.current_lng := VehicleLocations.current_lng vl;
     Nearest.heading := VehicleLocations.heading vl;
     Nearest.driver_rating := Users.average_rating u;
     Nearest.driver_total_rides := Users.total_rides u;
     Nearest.location_updated_at := VehicleLocations.recorded_at vl |}.

(** Ascending order of a nullable numeric, NULLs last. *)
Definition num_leb (a b : num) : bool :=
  match a, b with
  | Some x, Some y => Qle_bool x y
  | _, None => true
  | None, Some _ => false
  end.

(** [ORDER BY vl.driver_id, distance_km ASC] *)
Definition nearest_leb (a b : Nearest.row) : bool :=
  N.ltb (Nearest.driver_id a) (Nearest.driver_id b)
  || (N.eqb (Nearest.driver_id a) (Nearest.driver_id b)
      && num_leb (Nearest.distance_km a) (Nearest.distance_km b)).

(** [SELECT DISTINCT ON (key)]: of each run of rows of the ordered input
    with the same key, the first row. *)
Fixpoint distinct_on_after {A : Type} (key : A -> uuid) (prev : uuid)
  (l : list A) : list A :=
  match l with
  | [] => []
  | x :: rest =>
      if N.eqb (key x) prev then distinct_on_after key prev rest
      else x :: distinct_on_after key (key x) rest
  end.

Definition DISTINCT_ON {A : Type} (key : A -> uuid) (l : list A) : list A :=
  match l with
  | [] => []
  | x :: rest => x :: distinct_on_after key (key x) rest
  end.

(** [LIMIT p_limit]: no limit when NULL, an error when negative. *)
Definition LIMIT {A : Type} (p_limit : option Z) (l : list A) : result (list A) :=
  match p_limit with
  | None => Ok l
  | Some n =>
      if (n <? 0)%Z then Raise "LIMIT must not be negative"
      else Ok (firstn (Z.to_nat n) l)
  end.

Definition find_nearest_available_drivers (db : database)
  (p_pickup_lat p_pickup_lng : Q) (p_vehicle_type : option vehicle_type)
  (p_max_distance_km : num) (p_limit : option Z) : result (list Nearest.row) :=
  let pickup := MakePoint p_pickup_lng p_pickup_lat in
  LIMIT p_limit
    (DISTINCT_ON Nearest.driver_id
       (ORDER_BY nearest_leb
          (map (nearest_row pickup)
               (filter (fun j => is_true (nearest_where pickup p_vehicle_type
                                                        p_max_distance_km j))
                       (samples_joined db))))).

End Engine.

(** ** Reading the claims *)

(** The five hard thresholds of the scoring engine. *)
Inductive threshold : Type :=
| Destination
| Pickup
| Overlap
| Time
| Detour.

Section Claims.

Variable ST_Distance : geography -> geography -> Q.
Variable FORMAT : string -> list fmt_arg -> result string.

(** A threshold is exceeded when its comparison is [TRUE]. *)
Definition exceeded (v_config : Config.row) (v_ride1 v_ride2 : ride_record)
  (t : threshold) : bool :=
  match t with
  | Destination =>
      is_true (num_gt (dest_distance_km ST_Distance v_ride1 v_ride2)
                      (Config.max_destination_distance_km v_config))
  | Pickup =>
      is_true (num_gt (pickup_distance_km ST_Distance v_ride1 v_ride2)
                      (Config.max_pickup_distance_km v_config))
  | Overlap =>
      is_true (num_lt (route_overlap_percent ST_Distance v_ride1 v_ride2)
                      (Config.min_route_overlap_percent v_config))
  | Time =>
      is_true (int_gt (time_diff_minutes (rec_created_at v_ride1)
                                         (rec_created_at v_ride2))
                      (Config.max_time_difference_minutes v_config))
  | Detour =>
      is_true (num_gt (detour_percent ST_Distance v_ride1 v_ride2)
                      (Config.max_detour_percent v_config))
  end.

(** The rejection text of a threshold. *)
Definition reason_of (v_config : Config.row) (v_ride1 v_ride2 : ride_record)
  (t : threshold) : result string :=
  match t with
  | Destination =>
      FORMAT "Destinations too far apart: %.2f km (max: %.2f km)"
        [FNum (dest_distance_km ST_Distance v_ride1 v_ride2);
         FNum (Config.max_destination_distance_km v_config)]
  | Pickup =>
      FORMAT "Pickups too far apart: %.2f km (max: %.2f km)"
        [FNum (pickup_distance_km ST_Distance v_ride1 v_ride2);
         FNum (Config.max_pickup_distance_km v_config)]
  | Overlap =>
      FORMAT "Insufficient route overlap: %.1f%% (min: %.1f%%)"
        [FNum (route_overlap_percent ST_Distance v_ride1 v_ride2);
         FNum (Config.min_route_overlap_percent v_config)]
  | Time =>
      FORMAT "Requests too far apart in time: %s minutes (max: %s minutes)"
        [FInt (time_diff_minutes (rec_created_at v_ride1)
                                 (rec_created_at v_ride2));
         FInt (Config.max_time_difference_minutes v_config)]
  | Detour =>
      FORMAT "Excessive detour: %.1f%% (max: %.1f%%)"
        [FNum (detour_percent ST_Distance v_ride1 v_ride2);
         FNum (Config.max_detour_percent v_config)]
  end.

(** The thresholds exceeded by a pair of rides, in the order in which the
    engine examines them. *)
Definition violations (v_config : Config.row) (v_ride1 v_ride2 : ride_record)
  : list threshold :=
  filter (exceeded v_config v_ride1 v_ride2)
         [Destination; Pickup; Overlap; Time; Detour].

(** Lines joined by newlines; NULL for no line. *)
Definition join_lines (lines : list string) : option string :=
  match lines with
  | [] => None
  | first :: rest =>
      Some (fold_left (fun acc line => (acc ++ newline) ++ line) rest first)
  end.

End Claims.

(** A pool in a terminal status keeps it from [db] to [db']. *)
Definition frozen (db db' : database) : Prop :=
  forall p_pool_id s,
    pool_status_of db p_pool_id = Some s ->
    terminal s = true ->
    pool_status_of db' p_pool_id = Some s.

(** A pool in a terminal status keeps it from [db] to [db'], or has been
    cancelled. *)
Definition sticky (db db' : database) : Prop :=
  forall p_pool_id s,
    pool_status_of db p_pool_id = Some s ->
    terminal s = true ->
    pool_status_of db' p_pool_id = Some s
    \/ pool_status_of db' p_pool_id = Some CANCELLED.

(** No event of the list inserts a member. *)
Definition no_insert (evs : list (timestamptz * event)) : Prop :=
  forall now NEW, ~ In (now, InsertMember NEW) evs.

(** The pool has a row that is not [CANCELLED] yet: a write of
    [CANCELLED] is a transition into that status. *)
Definition not_yet_cancelled (db : database) (p_pool_id : uuid) : bool :=
  existsb (fun p => N.eqb (Pools.id p) p_pool_id
                    && negb (pool_status_eqb (Pools.status p) CANCELLED))
          (pools db).

(** What the cascade does to a ride and to a membership of the pool. *)
Definition cancel_ride_of (p_pool_id : uuid) (r : Rides.row) : Rides.row :=
  if ride_to_cancel p_pool_id r then ride_cancelled "Pool was cancelled" r
  else r.

Definition leave_member_of (p_pool_id : uuid) (now : timestamptz)
  (pm : PoolMembers.row) : PoolMembers.row :=
  if member_active p_pool_id pm then member_left now pm else pm.

(** The anchor that the claim describes: of the eligible active members of
    the pool, the one that joined first. *)
Definition earliest_eligible_ride (db : database) (p_pool_id : uuid)
  (p_config_name : string) : option uuid :=
  option_map PoolMembers.ride_id
    (hd_error
       (ORDER_BY joined_at_leb
          (filter (eligible_member (select_config db p_config_name) p_pool_id)
                  (pool_members db)))).

(** A joined sample that [find_nearest_available_drivers] may return: an
    active and available sample of an active, undeleted vehicle whose
    driver is an undeleted driver, of the class asked for if one is asked
    for, within the maximal distance of the pickup. *)
Definition qualifying_sample (ST_Distance : geography -> geography -> Q)
  (pickup : geography) (p_vehicle_type : option vehicle_type)
  (p_max_distance_km : num) (j : joined_sample) : Prop :=
  let '(vl, veh, u) := j in
  VehicleLocations.is_available vl = Some true
  /\ VehicleLocations.is_active vl = Some true
  /\ Vehicles.is_active veh = Some true
  /\ Vehicles.deleted_at veh = None
  /\ Users.is_driver u = Some true
  /\ Users.deleted_at u = None
  /\ (p_vehicle_type = None
      \/ p_vehicle_type = Some (Vehicles.vehicle_type veh))
  /\ exists loc max_km,
       VehicleLocations.current_location vl = Some loc
       /\ p_max_distance_km = Some max_km
       /\ ST_Distance pickup loc <= max_km * 1000.


(** ** Further functions of [initial_schema_no_row_returned.sql]

    The triggers that keep the route position of a ride and of its
    membership, the trigger that counts completed rides, the pool finder of
    riders and the companion check.  The select list of
    [find_matching_pools] also passes the columns [estimated_departure] and
    [fare_per_person] of a pool through; they take no part in its filter,
    its computed columns or its ordering and are not part of the rows
    here. *)

Definition set_users (db : database) (us : list Users.row) : database :=
  {| users := us;
     vehicles := vehicles db;
     vehicle_locations := vehicle_locations db;
     pool_scoring_config := pool_scoring_config db;
     pools := pools db;
     rides := rides db;
     pool_members := pool_members db;
     notifications := notifications db |}.

Definition ride_with_front_route (b : tv) (r : Rides.row) : Rides.row :=
  {| Rides.id := Rides.id r;
     Rides.user_id := Rides.user_id r;
     Rides.pool_id := Rides.pool_id r;
     Rides.pickup_location := Rides.pickup_location r;
     Rides.dropoff_location := Rides.dropoff_location r;
     Rides.preferred_vehicle_type := Rides.preferred_vehicle_type r;
     Rides.preferred_gender_restriction := Rides.preferred_gender_restriction r;
     Rides.status := Rides.status r;
     Rides.is_on_front_route := b;
     Rides.created_at := Rides.created_at r;
     Rides.cancelled_reason := Rides.cancelled_reason r |}.

Definition ride_with_status (s : ride_status) (r : Rides.row) : Rides.row :=
  {| Rides.id := Rides.id r;
     Rides.user_id := Rides.user_id r;
     Rides.pool_id := Rides.pool_id r;
     Rides.pickup_location := Rides.pickup_location r;
     Rides.dropoff_location := Rides.dropoff_location r;
     Rides.preferred_vehicle_type := Rides.preferred_vehicle_type r;
     Rides.preferred_gender_restriction := Rides.preferred_gender_restriction r;
     Rides.status := s;
     Rides.is_on_front_route := Rides.is_on_front_route r;
     Rides.created_at := Rides.created_at r;
     Rides.cancelled_reason := Rides.cancelled_reason r |}.

Definition member_with_front_route (b : tv) (pm : PoolMembers.row)
  : PoolMembers.row :=
  {| PoolMembers.id := PoolMembers.id pm;
     PoolMembers.pool_id := PoolMembers.pool_id pm;
     PoolMembers.user_id := PoolMembers.user_id pm;
     PoolMembers.ride_id := PoolMembers.ride_id pm;
     PoolMembers.joined_at := PoolMembers.joined_at pm;
     PoolMembers.left_at := PoolMembers.left_at pm;
     PoolMembers.join_score := PoolMembers.join_score pm;
     PoolMembers.join_score_breakdown := PoolMembers.join_score_breakdown pm;
     PoolMembers.is_front_route_passenger := b |}.

Definition user_with_total_rides (n : option Z) (u : Users.row) : Users.row :=
  {| Users.id := Users.id u;
     Users.is_driver := Users.is_driver u;
     Users.average_rating := Users.average_rating u;
     Users.total_rides := n;
     Users.deleted_at := Users.deleted_at u |}.

Definition ride_status_eqb (a b : ride_status) : bool :=
  match a, b with
  | RIDE_CREATING_POOL, RIDE_CREATING_POOL
  | RIDE_IN_POOL, RIDE_IN_POOL
  | RIDE_DRIVER_ASSIGNED, RIDE_DRIVER_ASSIGNED
  | RIDE_STARTED, RIDE_STARTED
  | RIDE_COMPLETED, RIDE_COMPLETED
  | RIDE_CANCELLED, RIDE_CANCELLED => true
  | _, _ => false
  end.

(** The texts of the enumerated columns, which the finder compares with
    its [VARCHAR] parameters. *)
Definition vehicle_type_text (v : vehicle_type) : string :=
  match v with CAR => "CAR" | CNG => "CNG" end.

Definition gender_restriction_text (g : gender_restriction) : string :=
  match g with FEMALE_ONLY => "FEMALE_ONLY" | ANY => "ANY" end.

Definition text_eq (a b : option string) : tv := lift2 String.eqb a b.

(** The row type of [find_matching_pools]. *)
Module Matching.
Record row : Type := {
  pool_id : uuid;
  creator_user_id : uuid;
  driver_id : option uuid;
  vehicle_type : vehicle_type;
  current_passengers : Z;
  max_passengers : Z;
  available_seats : Z;
  destination_distance_km : num;
  pickup_distance_km : num;
  pool_status : pool_status;
  gender_restriction : option gender_restriction;
  viability_score : num
}.
End Matching.

(** The table [priyo_sathi] of companions. *)
Inductive sathi_status : Type := PENDING | ACCEPTED | BLOCKED.

Module PriyoSathi.
Record row : Type := {
  user_id : uuid;
  companion_id : uuid;
  status : sathi_status
}.
End PriyoSathi.

Definition sathi_accepted (s : sathi_status) : bool :=
  match s with ACCEPTED => true | _ => false end.

(** [are_priyo_sathi(user1_uuid, user2_uuid)]: [EXISTS] a row whose
    condition is [TRUE]. *)
Definition are_priyo_sathi (priyo_sathi : list PriyoSathi.row)
  (user1_uuid user2_uuid : option uuid) : bool :=
  existsb
    (fun ps =>
       is_true
         (tv_or
            (tv_and (tv_and (uuid_eq (Some (PriyoSathi.user_id ps)) user1_uuid)
                            (uuid_eq (Some (PriyoSathi.companion_id ps))
                                     user2_uuid))
                    (Some (sathi_accepted (PriyoSathi.status ps))))
            (tv_and (tv_and (uuid_eq (Some (PriyoSathi.user_id ps)) user2_uuid)
                            (uuid_eq (Some (PriyoSathi.companion_id ps))
                                     user1_uuid))
                    (Some (sathi_accepted (PriyoSathi.status ps))))))
    priyo_sathi.

(** The [CHECK (user_id != companion_id)] of [priyo_sathi]. *)
Definition sathi_check (ps : PriyoSathi.row) : bool :=
  negb (N.eqb (PriyoSathi.user_id ps) (PriyoSathi.companion_id ps)).

(** [update_user_ride_count()], the row trigger
    [update_user_ride_count_trigger] of [rides], [AFTER UPDATE OF status
    ... WHEN (NEW.status = 'COMPLETED' AND OLD.status != 'COMPLETED')]. *)
Definition becomes_completed (OLD NEW : Rides.row) : bool :=
  ride_status_eqb (Rides.status NEW) RIDE_COMPLETED
  && negb (ride_status_eqb (Rides.status OLD) RIDE_COMPLETED).

Definition update_user_ride_count (db : database) (OLD NEW : Rides.row)
  : database :=
  if becomes_completed OLD NEW then
    set_users db
      (map (fun u => if N.eqb (Users.id u) (Rides.user_id NEW)
                     then user_with_total_rides
                            (option_map (fun n => (n + 1)%Z) (Users.total_rides u))
                            u
                     else u)
           (users db))
  else db.

(** [UPDATE public.rides SET status = s WHERE id = p_ride_id], with the
    trigger for every row it rewrote. *)
Definition update_ride_status (db : database) (p_ride_id : uuid)
  (s : ride_status) : database :=
  let olds := filter (fun r => N.eqb (Rides.id r) p_ride_id) (rides db) in
  let db1 :=
    set_rides db
      (map (fun r => if N.eqb (Rides.id r) p_ride_id
                     then ride_with_status s r else r)
           (rides db)) in
  fold_left (fun d OLD => update_user_ride_count d OLD (ride_with_status s OLD))
            olds db1.

(** [sync_pool_member_route_status()], the row trigger of [rides] after an
    update of [is_on_front_route]; its [UPDATE] of [pool_members] fires
    [sync_pool_status] for every membership it rewrote. *)
Definition sync_pool_member_route_status (db : database) (NEW : Rides.row)
  : result database :=
  let hit pm := N.eqb (PoolMembers.ride_id pm) (Rides.id NEW) in
  let db1 :=
    set_pool_members db
      (map (fun pm => if hit pm
                      then member_with_front_route (Rides.is_on_front_route NEW) pm
                      else pm)
           (pool_members db)) in
  after_pool_members_change db1 (filter hit (pool_members db)).

(** [OLD.is_on_front_route IS DISTINCT FROM NEW.is_on_front_route] *)
Definition flag_is_distinct_from (a b : tv) : bool :=
  match a, b with
  | Some x, Some y => negb (Bool.eqb x y)
  | None, None => false
  | _, _ => true
  end.

Fixpoint sync_pool_member_route_status_trigger (db : database)
  (olds : list Rides.row) (b : tv) : result database :=
  match olds with
  | [] => Ok db
  | OLD :: rest =>
      db1 <- (if flag_is_distinct_from (Rides.is_on_front_route OLD) b
              then sync_pool_member_route_status db (ride_with_front_route b OLD)
              else Ok db) ;;
      sync_pool_member_route_status_trigger db1 rest b
  end.

(** [UPDATE public.rides SET is_on_front_route = b WHERE id = p_ride_id] *)
Definition set_ride_front_route (db : database) (p_ride_id : uuid) (b : tv)
  : result database :=
  let olds := filter (fun r => N.eqb (Rides.id r) p_ride_id) (rides db) in
  let db1 :=
    set_rides db
      (map (fun r => if N.eqb (Rides.id r) p_ride_id
                     then ride_with_front_route b r else r)
           (rides db)) in
  sync_pool_member_route_status_trigger db1 olds b.

Definition ride_created_leb (a b : Rides.row) : bool :=
  timestamp_leb (Rides.created_at a) (Rides.created_at b).

(** [(SELECT pickup_location FROM public.rides WHERE pool_id = NEW.pool_id
    ORDER BY created_at ASC LIMIT 1)]: NULL when the pool has no ride. *)
Definition first_pickup_of_pool (db : database) (p_pool_id : uuid)
  : option geography :=
  match ORDER_BY ride_created_leb
          (filter (fun r => is_true (uuid_eq (Rides.pool_id r) (Some p_pool_id)))
                  (rides db)) with
  | [] => None
  | r :: _ => Rides.pickup_location r
  end.

Section Finders.

Variable ST_Distance : geography -> geography -> Q.

(** [update_ride_route_position()], the [BEFORE INSERT OR UPDATE OF
    pool_id, pickup_lat, pickup_lng] row trigger of [rides]: the row that
    it returns, with the value that it assigns to [route_deviation_km], a
    [DECIMAL(5,2)] column. *)
Definition update_ride_route_position (db : database) (NEW : Rides.row)
  : result (Rides.row * num) :=
  match Rides.pool_id NEW with
  | None => Ok (ride_with_front_route (Some true) NEW, Some 0)
  | Some p_pool_id =>
      let v_pool := select_pool db p_pool_id in
      let v_pool_destination_location :=
        match v_pool with
        | Some p => Pools.destination_location p
        | None => None
        end in
      let v_pool_config :=
        match v_pool with
        | Some p => config_of_pool db p
        | None => None
        end in
      let v_pool_front_route_only :=
        match v_pool_config with
        | Some c => Config.front_route_only c
        | None => None
        end in
      let v_pool_max_off_route_distance_km :=
        match v_pool_config with
        | Some c => Config.max_off_route_distance_km c
        | None => None
        end in
      let first_pickup := first_pickup_of_pool db p_pool_id in
      let v_direct_distance :=
        num_div_by (distance ST_Distance v_pool_destination_location
                             first_pickup) 1000 in
      let v_route_distance :=
        num_div_by
          (num_add (distance ST_Distance first_pickup (Rides.pickup_location NEW))
                   (distance ST_Distance (Rides.pickup_location NEW)
                             v_pool_destination_location))
          1000 in
      let v_deviation := num_sub v_route_distance v_direct_distance in
      route_deviation_km <- to_decimal_opt 5 2 v_deviation ;;
      Ok (ride_with_front_route
            (if is_true v_pool_front_route_only
             then num_le v_deviation
                         (Some (COALESCE v_pool_max_off_route_distance_km (1 # 2)))
             else Some true)
            NEW,
          route_deviation_km)
  end.

(** The [WHERE] clause of [find_matching_pools]. *)
Definition matching_where (dest : geography) (p_vehicle_type : option string)
  (p_gender_restriction : option string) (p_destination_radius_km : num)
  (p : Pools.row) : tv :=
  tv_and (Some (is_null (Pools.deleted_at p)))
  (tv_and (Some (negb (terminal (Pools.status p))))
  (tv_and (Some (Pools.current_passengers p <? Pools.max_passengers p)%Z)
  (tv_and (text_eq (Some (vehicle_type_text (Pools.vehicle_type p)))
                   p_vehicle_type)
  (tv_and (tv_or (tv_or (text_eq (option_map gender_restriction_text
                                             (Pools.gender_restriction p))
                                 (Some "ANY"))
                        (text_eq (option_map gender_restriction_text
                                             (Pools.gender_restriction p))
                                 p_gender_restriction))
                 (text_eq p_gender_restriction (Some "ANY")))
          (ST_DWithin ST_Distance (Pools.destination_location p) (Some dest)
                      (num_mul p_destination_radius_km (Some 1000))))))).

(** The select list. *)
Definition matching_row (pickup dest : geography) (p : Pools.row)
  : Matching.row :=
  {| Matching.pool_id := Pools.id p;
     Matching.creator_user_id := Pools.creator_user_id p;
     Matching.driver_id := Pools.driver_id p;
     Matching.vehicle_type := Pools.vehicle_type p;
     Matching.current_passengers := Pools.current_passengers p;
     Matching.max_passengers := Pools.max_passengers p;
     Matching.available_seats :=
       (Pools.max_passengers p - Pools.current_passengers p)%Z;
     Matching.destination_distance_km :=
       num_div_by (distance ST_Distance (Pools.destination_location p)
                            (Some dest)) 1000;
     Matching.pickup_distance_km :=
       num_div_by (distance ST_Distance (Some pickup)
                            (Pools.destination_location p)) 1000;
     Matching.pool_status := Pools.status p;
     Matching.gender_restriction := Pools.gender_restriction p;
     Matching.viability_score := Pools.viability_score p |}.

(** [ORDER BY COALESCE(p.viability_score, 0) DESC, destination_distance_km
    ASC, p.current_passengers DESC] *)
Definition matching_leb (a b : Matching.row) : bool :=
  let sa := COALESCE (Matching.viability_score a) 0 in
  let sb := COALESCE (Matching.viability_score b) 0 in
  let da := Matching.destination_distance_km a in
  let db := Matching.destination_distance_km b in
  if Qlt_bool sb sa then true
  else if Qlt_bool sa sb then false
  else if negb (num_leb db da) then true
  else if negb (num_leb da db) then false
  else (Matching.current_passengers b <=? Matching.current_passengers a)%Z.

(** [find_matching_pools(...)].  Its body does not use
    [p_pickup_radius_km], and uses [p_config_name] only to select
    [v_config], which it does not read afterwards. *)
Definition find_matching_pools (db : database)
  (p_pickup_lat p_pickup_lng p_dest_lat p_dest_lng : Q)
  (p_vehicle_type p_gender_restriction : option string)
  (p_destination_radius_km p_pickup_radius_km : num) (p_config_name : string)
  : list Matching.row :=
  let pickup := MakePoint p_pickup_lng p_pickup_lat in
  let dest := MakePoint p_dest_lng p_dest_lat in
  ORDER_BY matching_leb
    (map (matching_row pickup dest)
         (filter (fun p => is_true (matching_where dest p_vehicle_type
                                      p_gender_restriction
                                      p_destination_radius_km p))
                 (pools db))).

End Finders.

(** An [ORDER BY] with two keys: the order of the first key, and of the
    second key among rows that the first key does not tell apart. *)
Definition lex_leb {A : Type} (first second : A -> A -> bool) (a b : A)
  : bool :=
  if negb (first b a) then true
  else if negb (first a b) then false
  else second a b.

(** The three keys of the [ORDER BY] of [find_matching_pools]. *)
Definition score_desc (a b : Matching.row) : bool :=
  Qle_bool (COALESCE (Matching.viability_score b) 0)
           (COALESCE (Matching.viability_score a) 0).

Definition distance_asc (a b : Matching.row) : bool :=
  num_leb (Matching.destination_distance_km a)
          (Matching.destination_distance_km b).

Definition passengers_desc (a b : Matching.row) : bool :=
  (Matching.current_passengers b <=? Matching.current_passengers a)%Z.

(** ** Reading the state of the pools *)

(** Every pool satisfies the [CHECK] constraints on its count, its
    capacity and its driver. *)
Definition pools_valid (db : database) : Prop :=
  forall p, In p (pools db) -> pool_checks p = true.

(** [current_passengers] of the pool is the number of its counted
    members: its active members, on the front route when its
    configuration asks for that. *)
Definition in_sync_at (db : database) (p_pool_id : uuid) : Prop :=
  forall p,
    In p (pools db) ->
    Pools.id p = p_pool_id ->
    Pools.current_passengers p
    = count_members db p_pool_id (pool_front_route_only db p_pool_id).

Definition passengers_in_sync (db : database) : Prop :=
  forall p_pool_id, in_sync_at db p_pool_id.

(** A pool that [find_matching_pools] may return. *)
Definition matching_pool (ST_Distance : geography -> geography -> Q)
  (dest : geography) (p_vehicle_type p_gender_restriction : option string)
  (p_destination_radius_km : num) (p : Pools.row) : Prop :=
  Pools.deleted_at p = None
  /\ terminal (Pools.status p) = false
  /\ (Pools.current_passengers p < Pools.max_passengers p)%Z
  /\ p_vehicle_type = Some (vehicle_type_text (Pools.vehicle_type p))
  /\ (Pools.gender_restriction p = Some ANY
      \/ (exists g, Pools.gender_restriction p = Some g
                    /\ p_gender_restriction = Some (gender_restriction_text g))
      \/ p_gender_restriction = Some "ANY")
  /\ exists loc radius,
       Pools.destination_location p = Some loc
       /\ p_destination_radius_km = Some radius
       /\ ST_Distance loc dest <= radius * 1000.

(** From [db] to [db'] no notification is written, no ride is rewritten
    and no pool that has a row which is not [CANCELLED] loses it. *)
Definition quiet (db db' : database) : Prop :=
  notifications db' = notifications db
  /\ rides db' = rides db
  /\ forall q, not_yet_cancelled db q = true ->
               not_yet_cancelled db' q = true.

(** ** Concrete data for the examples *)

(** The record selected for a ride with pickup [p] and dropoff [q]. *)
Definition twin (p q : geography) (created : option timestamptz)
  (on_front_route : option bool) : ride_record :=
  {| rec_pickup_location := Some p;
     rec_dropoff_location := Some q;
     rec_created_at := created;
     rec_is_on_front_route := on_front_route |}.

(** A distance for the examples: taxicab distance on a grid whose unit is
    one kilometre. *)
Definition grid_distance (a b : geography) : Q :=
  (Qabs (lng a - lng b) + Qabs (lat a - lat b)) * 1000.

(** A [FORMAT] for the examples.  As PostgreSQL's [format], it raises for a
    template with an unrecognized conversion; for the other templates of
    the functions it renders the template alone. *)
Definition plain_format (template : string) (args : list fmt_arg)
  : result string :=
  if unrecognized_conversion template
  then Raise "unrecognized format() type specifier"
  else Ok template.

(** The row seeded by the migration into [pool_scoring_config];
    [config_id] is the identifier drawn for it. *)
Definition seeded_config (config_id : uuid) : Config.row :=
  {| Config.id := config_id;
     Config.config_name := "default";
     Config.min_viable_score := 60;
     Config.destination_proximity_weight := Some 30;
     Config.pickup_proximity_weight := Some 25;
     Config.route_overlap_weight := Some 20;
     Config.time_alignment_weight := Some 15;
     Config.detour_penalty_weight := Some 10;
     Config.max_destination_distance_km := Some 2;
     Config.max_pickup_distance_km := Some 5;
     Config.min_route_overlap_percent := Some 40;
     Config.max_detour_percent := Some 30;
     Config.max_time_difference_minutes := Some 10%Z;
     Config.front_route_only := Some true;
     Config.max_off_route_distance_km := Some (1 # 2);
     Config.is_active := Some true |}.

Definition example_ride (ride_id user : uuid) (pool : option uuid)
  (pickup dropoff : geography) (on_front_route : bool) (created : timestamptz)
  : Rides.row :=
  {| Rides.id := ride_id;
     Rides.user_id := user;
     Rides.pool_id := pool;
     Rides.pickup_location := Some pickup;
     Rides.dropoff_location := Some dropoff;
     Rides.preferred_vehicle_type := CAR;
     Rides.preferred_gender_restriction := Some ANY;
     Rides.status := RIDE_IN_POOL;
     Rides.is_on_front_route := Some on_front_route;
     Rides.created_at := Some created;
     Rides.cancelled_reason := None |}.

Definition example_db (configs : list Config.row) (ps : list Pools.row)
  (rs : list Rides.row) (ms : list PoolMembers.row) : database :=
  {| users := [];
     vehicles := [];
     vehicle_locations := [];
     pool_scoring_config := configs;
     pools := ps;
     rides := rs;
     pool_members := ms;
     notifications := [] |}.

Definition point_a : geography := MakePoint 0 0.
Definition point_b : geography := MakePoint 0 10.

(** Two rides with the same pickup and dropoff, ten kilometres long,
    created at the same instant, both on the front route. *)
Definition twin_rides : list Rides.row :=
  [example_ride 7%N 70%N None point_a point_b true 0%Z;
   example_ride 8%N 80%N None point_a point_b true 0%Z].

(** The same two rides created eleven minutes apart. *)
Definition late_rides : list Rides.row :=
  [example_ride 7%N 70%N None point_a point_b true 0%Z;
   example_ride 8%N 80%N None point_a point_b true 660000000%Z].

(** The same two rides, the second off the front route. *)
Definition off_route_rides : list Rides.row :=
  [example_ride 7%N 70%N None point_a point_b true 0%Z;
   example_ride 8%N 80%N None point_a point_b false 0%Z].

(** The default configuration with a floor of zero. *)
Definition floor_zero_config : Config.row :=
  {| Config.id := 1%N;
     Config.config_name := "default";
     Config.min_viable_score := 0;
     Config.destination_proximity_weight := Some 30;
     Config.pickup_proximity_weight := Some 25;
     Config.route_overlap_weight := Some 20;
     Config.time_alignment_weight := Some 15;
     Config.detour_penalty_weight := Some 10;
     Config.max_destination_distance_km := Some 2;
     Config.max_pickup_distance_km := Some 5;
     Config.min_route_overlap_percent := Some 40;
     Config.max_detour_percent := Some 30;
     Config.max_time_difference_minutes := Some 10%Z;
     Config.front_route_only := Some true;
     Config.max_off_route_distance_km := Some (1 # 2);
     Config.is_active := Some true |}.

Definition default_config : Config.row := seeded_config 1%N.

Definition twin_db : database := example_db [default_config] [] twin_rides [].

Definition late_db : database := example_db [default_config] [] late_rides [].

Definition off_route_db : database :=
  example_db [floor_zero_config] [] off_route_rides [].

Definition example_user (user_id : uuid) (driver : bool) : Users.row :=
  {| Users.id := user_id;
     Users.is_driver := Some driver;
     Users.average_rating := None;
     Users.total_rides := Some 0%Z;
     Users.deleted_at := None |}.

Definition example_pool (pool_id : uuid) (s : pool_status)
  (driver : option uuid) (count max_count min_count : Z) : Pools.row :=
  {| Pools.id := pool_id;
     Pools.creator_user_id := 70%N;
     Pools.driver_id := driver;
     Pools.vehicle_id := None;
     Pools.status := s;
     Pools.destination_location := Some point_b;
     Pools.vehicle_type := CAR;
     Pools.gender_restriction := Some ANY;
     Pools.current_passengers := count;
     Pools.max_passengers := max_count;
     Pools.min_passengers_to_start := min_count;
     Pools.viability_score := None;
     Pools.score_breakdown := None;
     Pools.scoring_config_id := Some 1%N;
     Pools.deleted_at := None;
     Pools.created_at := Some 0%Z |}.

Definition example_member (member_id pool user ride : uuid)
  (joined : timestamptz) (left : option timestamptz) : PoolMembers.row :=
  {| PoolMembers.id := member_id;
     PoolMembers.pool_id := pool;
     PoolMembers.user_id := user;
     PoolMembers.ride_id := ride;
     PoolMembers.joined_at := Some joined;
     PoolMembers.left_at := left;
     PoolMembers.join_score := None;
     PoolMembers.join_score_breakdown := None;
     PoolMembers.is_front_route_passenger := Some true |}.

(** A pool in formation: one member, a second ride that was requested
    eleven minutes after the first and is about to join. *)
Definition forming_db : database :=
  {| users := [example_user 70%N false; example_user 80%N false;
               example_user 90%N true];
     vehicles := [];
     vehicle_locations := [];
     pool_scoring_config := [default_config];
     pools := [example_pool 100%N WAITING_FOR_RIDERS None 1 4 2];
     rides := [example_ride 7%N 70%N (Some 100%N) point_a point_b true 0%Z;
               example_ride 8%N 80%N (Some 100%N) point_a point_b true
                            660000000%Z];
     pool_members := [example_member 1%N 100%N 70%N 7%N 0%Z None];
     notifications := [] |}.

Definition second_member : PoolMembers.row :=
  example_member 2%N 100%N 80%N 8%N 660000000%Z None.

(** The same pool already on its way, with a driver. *)
Definition started_db : database :=
  {| users := users forming_db;
     vehicles := [];
     vehicle_locations := [];
     pool_scoring_config := [default_config];
     pools := [example_pool 100%N STARTED (Some 90%N) 1 4 1];
     rides := rides forming_db;
     pool_members := pool_members forming_db;
     notifications := [] |}.

Definition quiet_events : list (timestamptz * event) :=
  [(10%Z, LeaveMember 1%N);
   (20%Z, Recompute 100%N);
   (30%Z, SetDriver 100%N None None);
   (40%Z, DeleteMember 1%N)].

(** A pool that is on its way, full (2 of 2 seats), of class [CNG] and for
    women only, whose two members requested twin rides; a third twin ride
    of class [CAR] asks to join. *)
Definition full_started_pool : Pools.row :=
  {| Pools.id := 100%N;
     Pools.creator_user_id := 70%N;
     Pools.driver_id := Some 90%N;
     Pools.vehicle_id := None;
     Pools.status := STARTED;
     Pools.destination_location := Some point_b;
     Pools.vehicle_type := CNG;
     Pools.gender_restriction := Some FEMALE_ONLY;
     Pools.current_passengers := 2;
     Pools.max_passengers := 2;
     Pools.min_passengers_to_start := 2;
     Pools.viability_score := Some 90;
     Pools.score_breakdown := None;
     Pools.scoring_config_id := Some 1%N;
     Pools.deleted_at := None;
     Pools.created_at := Some 0%Z |}.

Definition full_db : database :=
  {| users := [example_user 70%N false; example_user 80%N false;
               example_user 85%N false; example_user 90%N true];
     vehicles := [];
     vehicle_locations := [];
     pool_scoring_config := [default_config];
     pools := [full_started_pool];
     rides := [example_ride 7%N 70%N (Some 100%N) point_a point_b true 0%Z;
               example_ride 8%N 80%N (Some 100%N) point_a point_b true 0%Z;
               example_ride 9%N 85%N None point_a point_b true 0%Z];
     pool_members := [example_member 1%N 100%N 70%N 7%N 0%Z None;
                      example_member 2%N 100%N 80%N 8%N 5%Z None];
     notifications := [] |}.

(** The two memberships of a pool in the order in which a scan finds them
    after the row of the first member was rewritten: the member that joined
    later comes first. *)
Definition reordered_db : database :=
  {| users := users full_db;
     vehicles := [];
     vehicle_locations := [];
     pool_scoring_config := [default_config];
     pools := [example_pool 100%N WAITING_FOR_DRIVER None 2 4 2];
     rides := rides full_db;
     pool_members := [example_member 2%N 100%N 80%N 8%N 5%Z None;
                      example_member 1%N 100%N 70%N 7%N 0%Z None];
     notifications := [] |}.

Definition example_vehicle (vehicle_id driver : uuid) (number : string)
  : Vehicles.row :=
  {| Vehicles.id := vehicle_id;
     Vehicles.driver_id := driver;
     Vehicles.vehicle_type := CAR;
     Vehicles.vehicle_number := number;
     Vehicles.is_active := Some true;
     Vehicles.deleted_at := None |}.

Definition example_sample (sample_id vehicle driver : uuid) (north : Q)
  (recorded : timestamptz) : VehicleLocations.row :=
  {| VehicleLocations.id := sample_id;
     VehicleLocations.vehicle_id := vehicle;
     VehicleLocations.driver_id := driver;
     VehicleLocations.pool_id := None;
     VehicleLocations.current_lat := north;
     VehicleLocations.current_lng := 0;
     VehicleLocations.current_location := Some (MakePoint 0 north);
     VehicleLocations.heading := None;
     VehicleLocations.speed_kmh := None;
     VehicleLocations.accuracy_meters := None;
     VehicleLocations.is_active := Some true;
     VehicleLocations.is_available := Some true;
     VehicleLocations.recorded_at := Some recorded |}.

(** Driver 1 has two vehicles, 10 (five kilometres north of the origin,
    sampled last) and 11 (three kilometres north); driver 2 has vehicle 20,
    one kilometre north. *)
Definition fleet_db : database :=
  {| users := [example_user 1%N true; example_user 2%N true];
     vehicles := [example_vehicle 10%N 1%N "D-10"; example_vehicle 11%N 1%N "D-11";
                  example_vehicle 20%N 2%N "D-20"];
     vehicle_locations := [example_sample 501%N 20%N 2%N 1 100%Z;
                           example_sample 502%N 10%N 1%N 5 300%Z;
                           example_sample 503%N 11%N 1%N 3 200%Z];
     pool_scoring_config := [];
     pools := [];
     rides := [];
     pool_members := [];
     notifications := [] |}.


(** ** Further data for the examples *)

(** The default configuration with a maximal time difference of zero. *)
Definition zero_time_config : Config.row :=
  {| Config.id := 1%N;
     Config.config_name := "default";
     Config.min_viable_score := 60;
     Config.destination_proximity_weight := Some 30;
     Config.pickup_proximity_weight := Some 25;
     Config.route_overlap_weight := Some 20;
     Config.time_alignment_weight := Some 15;
     Config.detour_penalty_weight := Some 10;
     Config.max_destination_distance_km := Some 2;
     Config.max_pickup_distance_km := Some 5;
     Config.min_route_overlap_percent := Some 40;
     Config.max_detour_percent := Some 30;
     Config.max_time_difference_minutes := Some 0%Z;
     Config.front_route_only := Some true;
     Config.max_off_route_distance_km := Some (1 # 2);
     Config.is_active := Some true |}.

Definition zero_time_db : database :=
  example_db [zero_time_config] [] twin_rides [].

(** [full_db] without any scoring configuration. *)
Definition unconfigured_db : database :=
  {| users := users full_db;
     vehicles := [];
     vehicle_locations := [];
     pool_scoring_config := [];
     pools := pools full_db;
     rides := rides full_db;
     pool_members := pool_members full_db;
     notifications := [] |}.

(** [forming_db] with the row of the second member written, before any
    trigger has run: the pool still counts one passenger. *)
Definition joining_db : database :=
  set_pool_members forming_db (pool_members forming_db ++ [second_member]).

(** A third membership, of ride 9. *)
Definition third_member : PoolMembers.row :=
  example_member 3%N 100%N 85%N 9%N 10%Z None.

(** A pool without rides. *)
Definition empty_pool_db : database :=
  example_db [default_config]
             [example_pool 100%N WAITING_FOR_RIDERS None 0 4 2] [] [].

(** A ride of pool 100 that is picked up one kilometre beside the middle
    of the route of ride 7. *)
Definition beside_ride : Rides.row :=
  example_ride 8%N 80%N (Some 100%N) (MakePoint 1 5) point_b true 60000000%Z.

(** [fleet_db] with a pool that waits for a driver. *)
Definition pooled_fleet_db : database :=
  {| users := users fleet_db;
     vehicles := vehicles fleet_db;
     vehicle_locations := vehicle_locations fleet_db;
     pool_scoring_config := [];
     pools := [example_pool 100%N WAITING_FOR_DRIVER None 0 4 2];
     rides := [];
     pool_members := [];
     notifications := [] |}.

(** Users 70 and 80 are companions; user 85 has asked user 80. *)
Definition example_companions : list PriyoSathi.row :=
  [{| PriyoSathi.user_id := 70%N;
      PriyoSathi.companion_id := 80%N;
      PriyoSathi.status := ACCEPTED |};
   {| PriyoSathi.user_id := 85%N;
      PriyoSathi.companion_id := 80%N;
      PriyoSathi.status := PENDING |}].

(** The insert of the second member, whose score is not viable, then the
    events of [quiet_events]. *)
Definition busy_events : list (timestamptz * event) :=
  (700000000%Z, InsertMember second_member) :: quiet_events.

(** * Theorems *)

(** ** Basic facts about SQL values *)

Lemma bind_ok : forall (A B : Type) (m : result A) (k : A -> result B) (b : B),
  bind m k = Ok b -> exists a, m = Ok a /\ k a = Ok b.
Proof.
  intros A B [a | msg] k b H; simpl in H.
  - exists a. split; [reflexivity | exact H].
  - discriminate H.
Qed.

(** Take apart a chain of binds that is known to succeed. *)
Ltac bind_inv H :=
  repeat (apply bind_ok in H;
          let x := fresh "x" in
          let E := fresh "E" in
          destruct H as [x [E H]]).

Lemma map_result_map :
  forall (A B C : Type) (f : A -> result B) (g : B -> C) (h : A -> C)
         (l : list A) (ys : list B),
    (forall x y, f x = Ok y -> g y = h x) ->
    map_result f l = Ok ys ->
    map g ys = map h l.
Proof.
  intros A B C f g h l. induction l as [| x l IH]; intros ys Hf H; simpl in H.
  - injection H as <-. reflexivity.
  - apply bind_ok in H. destruct H as [y [Hy H]].
    apply bind_ok in H. destruct H as [rest [Hrest H]].
    injection H as <-. simpl. rewrite (Hf x y Hy), (IH rest Hf Hrest).
    reflexivity.
Qed.



Lemma Qlt_bool_iff : forall a b, Qlt_bool a b = true <-> a < b.
Proof.
  intros a b. unfold Qlt_bool. rewrite negb_true_iff.
  split; intro H.
  - apply Qnot_le_lt. intro Hle. apply Qle_bool_iff in Hle. congruence.
  - destruct (Qle_bool b a) eqn:E; [| reflexivity].
    apply Qle_bool_iff in E. exfalso. exact (Qlt_not_le _ _ H E).
Qed.

Lemma Qlt_bool_false_iff : forall a b, Qlt_bool a b = false <-> b <= a.
Proof.
  intros a b. unfold Qlt_bool. rewrite negb_false_iff. apply Qle_bool_iff.
Qed.

Lemma Qle_bool_false_iff : forall a b, Qle_bool a b = false <-> b < a.
Proof.
  intros a b. rewrite <- Qlt_bool_iff. unfold Qlt_bool.
  destruct (Qle_bool a b); simpl; split; congruence.
Qed.

(** The total score is never NULL and lies between 0 and 100. *)
Lemma clamp_range : forall x : num,
  exists t, GREATEST (Some 0) (LEAST (Some 100) x) = Some t /\ 0 <= t <= 100.
Proof.
  intros [x |]; simpl.
  - destruct (Qle_bool 100 x) eqn:E1; simpl.
    + exists 100. split; [reflexivity | split; discriminate].
    + apply Qle_bool_false_iff in E1.
      destruct (Qle_bool 0 x) eqn:E2.
      * apply Qle_bool_iff in E2. exists x. split; [reflexivity |].
        split; [exact E2 | apply Qlt_le_weak; exact E1].
      * exists 0. split; [reflexivity | split; [apply Qle_refl | discriminate]].
  - exists 100. split; [reflexivity | split; discriminate].
Qed.

(** ** The five sub-scores inside their thresholds *)

Lemma Qeq_bool_false : forall a b, ~ a == b -> Qeq_bool a b = false.
Proof.
  intros a b H. destruct (Qeq_bool a b) eqn:E; [| reflexivity].
  apply Qeq_bool_iff in E. contradiction.
Qed.

(** Destination proximity decays linearly up to the threshold. *)
Lemma destination_score_within : forall x m w,
  x <= m -> ~ m == 0 ->
  calculate_destination_proximity_score (Some x) (Some m) (Some w)
  = Ok (Some (w * (1 - x / m))).
Proof.
  intros x m w Hle Hm. unfold calculate_destination_proximity_score.
  cbn [num_gt lift2 is_true].
  rewrite (proj2 (Qlt_bool_false_iff m x) Hle).
  cbn [num_div]. rewrite (Qeq_bool_false _ _ Hm). reflexivity.
Qed.

(** Pickup proximity decays quadratically up to the threshold. *)
Lemma pickup_score_within : forall x m w,
  x <= m -> ~ m == 0 ->
  calculate_pickup_proximity_score (Some x) (Some m) (Some w)
  = Ok (Some (w * ((1 - x / m) * (1 - x / m)))).
Proof.
  intros x m w Hle Hm. unfold calculate_pickup_proximity_score.
  cbn [num_gt lift2 is_true].
  rewrite (proj2 (Qlt_bool_false_iff m x) Hle).
  cbn [num_div]. rewrite (Qeq_bool_false _ _ Hm). reflexivity.
Qed.

(** Route overlap scales linearly from the floor to 100 percent. *)
Lemma overlap_score_within : forall o m w,
  m <= o -> ~ 100 - m == 0 ->
  calculate_route_overlap_score (Some o) (Some m) (Some w)
  = Ok (Some (w * ((o - m) / (100 - m)))).
Proof.
  intros o m w Hle Hm. unfold calculate_route_overlap_score.
  cbn [num_lt lift2 is_true].
  rewrite (proj2 (Qlt_bool_false_iff o m) Hle).
  cbn [num_sub lift2 num_div]. rewrite (Qeq_bool_false _ _ Hm). reflexivity.
Qed.

(** Time alignment decays linearly up to the threshold, and is 0 beyond. *)
Lemma time_score_within : forall t m w,
  (t <= m)%Z -> m <> 0%Z ->
  calculate_time_alignment_score (Some t) (Some m) (Some w)
  = Ok (Some (w * (1 - inject_Z t / inject_Z m))).
Proof.
  intros t m w Hle Hm. unfold calculate_time_alignment_score.
  cbn [int_gt lift2 is_true].
  replace (t >? m)%Z with false
    by (symmetry; rewrite Z.gtb_ltb; apply Z.ltb_ge; lia).
  cbn [num_of_int option_map num_div].
  rewrite Qeq_bool_false; [reflexivity |].
  intro H. apply Hm. unfold Qeq in H. simpl in H. lia.
Qed.

Lemma time_score_beyond : forall t m w,
  (t > m)%Z ->
  calculate_time_alignment_score (Some t) (Some m) w = Ok (Some 0).
Proof.
  intros t m w Hgt. unfold calculate_time_alignment_score.
  cbn [int_gt lift2 is_true].
  replace (t >? m)%Z with true
    by (symmetry; rewrite Z.gtb_ltb; apply Z.ltb_lt; lia).
  reflexivity.
Qed.

(** The detour penalty grows linearly up to the threshold. *)
Lemma detour_penalty_within : forall x m w,
  x <= m -> ~ m == 0 ->
  calculate_detour_penalty (Some x) (Some m) (Some w)
  = Ok (Some (- w * (x / m))).
Proof.
  intros x m w Hle Hm. unfold calculate_detour_penalty.
  cbn [num_gt lift2 is_true].
  rewrite (proj2 (Qlt_bool_false_iff m x) Hle).
  cbn [num_div]. rewrite (Qeq_bool_false _ _ Hm). reflexivity.
Qed.

Lemma km_positive : forall d, 0 < d -> 0 < d / 1000.
Proof.
  intros d H. apply Qlt_shift_div_l; lra.
Qed.

Section ScoringTheorems.

Variable ST_Distance : geography -> geography -> Q.
Variable FORMAT : string -> list fmt_arg -> result string.

(** The checks and sub-scores having gone through, the result row is
    built from them without further failure. *)
Lemma score_rides_shape :
  forall v_config v_ride1 v_ride2 r,
    front_route_gate v_config v_ride1 v_ride2 = false ->
    score_rides ST_Distance FORMAT v_config v_ride1 v_ride2 = Ok r ->
    exists sum : num,
      total_score r = GREATEST (Some 0) (LEAST (Some 100) sum)
      /\ is_viable r
         = tv_and (num_ge (total_score r)
                          (Some (Config.min_viable_score v_config)))
                  (Some (is_null (rejection_reason r))).
Proof.
  intros v_config v_ride1 v_ride2 r Hgate H.
  unfold score_rides in H. rewrite Hgate in H. cbv zeta in H.
  bind_inv H.
  injection H as <-. cbn [total_score is_viable rejection_reason].
  eexists. split; reflexivity.
Qed.

(** The reason accumulated by the five checks is the newline-joined list
    of the texts that [FORMAT] rendered for the exceeded thresholds. *)
Lemma accumulated_reason :
  forall v_config v_ride1 v_ride2 r,
    front_route_gate v_config v_ride1 v_ride2 = false ->
    score_rides ST_Distance FORMAT v_config v_ride1 v_ride2 = Ok r ->
    exists lines,
      map_result (reason_of ST_Distance FORMAT v_config v_ride1 v_ride2)
                 (violations ST_Distance v_config v_ride1 v_ride2) = Ok lines
      /\ rejection_reason r = join_lines lines.
Proof.
  intros v_config v_ride1 v_ride2 r Hgate H.
  unfold score_rides in H. rewrite Hgate in H. cbv zeta in H.
  bind_inv H.
  injection H as <-. cbn [rejection_reason].
  unfold violations. cbn [filter exceeded].
  destruct (is_true (num_gt (dest_distance_km ST_Distance v_ride1 v_ride2) _));
  destruct (is_true (num_gt (pickup_distance_km ST_Distance v_ride1 v_ride2) _));
  destruct (is_true (num_lt (route_overlap_percent ST_Distance v_ride1 v_ride2) _));
  destruct (is_true (int_gt _ _));
  destruct (is_true (num_gt (detour_percent ST_Distance v_ride1 v_ride2) _));
  cbv iota in *;
  repeat match goal with
         | E : bind (FORMAT _ _) _ = Ok _ |- _ =>
             apply bind_ok in E;
             let m := fresh "line" in
             let F := fresh "F" in
             destruct E as [m [F E]]
         | E : Ok _ = Ok ?x |- _ => injection E as E; subst x
         end;
  cbn [map_result reason_of];
  repeat match goal with
         | F : FORMAT _ _ = Ok _ |- _ => rewrite F; clear F
         end;
  cbn [bind]; eexists; split; reflexivity.
Qed.

(** If [FORMAT] rejects the template of the destination text, a pair whose
    destinations are too far apart gets no verdict: the engine raises. *)
Lemma rejected_template_raises :
  forall v_config v_ride1 v_ride2 msg,
    front_route_gate v_config v_ride1 v_ride2 = false ->
    exceeded ST_Distance v_config v_ride1 v_ride2 Destination = true ->
    reason_of ST_Distance FORMAT v_config v_ride1 v_ride2 Destination
    = Raise msg ->
    score_rides ST_Distance FORMAT v_config v_ride1 v_ride2 = Raise msg.
Proof.
  intros v_config v_ride1 v_ride2 msg Hgate Hex Hfmt.
  unfold score_rides. rewrite Hgate. cbv zeta.
  cbn [exceeded] in Hex. rewrite Hex.
  cbn [reason_of] in Hfmt. rewrite Hfmt. reflexivity.
Qed.

Lemma join_lines_none : forall lines, join_lines lines = None <-> lines = [].
Proof.
  intros [| x l]; simpl; split; intro H; congruence.
Qed.

Lemma map_result_nil :
  forall (A B : Type) (f : A -> result B) (l : list A) (ys : list B),
    map_result f l = Ok ys -> (ys = [] <-> l = []).
Proof.
  intros A B f [| x l] ys H; simpl in H.
  - injection H as <-. tauto.
  - apply bind_ok in H. destruct H as [y [_ H]].
    apply bind_ok in H. destruct H as [rest [_ H]].
    injection H as <-. split; intro E; discriminate.
Qed.



(** Whenever the front-route gate does not fire, the total score is the
    sum clamped to [0, 100]; the pair is viable exactly when that total
    reaches [min_viable_score] and none of the five thresholds is
    exceeded; and the rejection reason is the texts of the exceeded
    thresholds, in order, joined by newlines. *)
Lemma viability_of_result :
  forall db p_ride1_id p_ride2_id p_config_name v_config r,
    select_config db p_config_name = Some v_config ->
    front_route_gate v_config (select_ride db p_ride1_id)
                     (select_ride db p_ride2_id) = false ->
    calculate_pool_viability_score ST_Distance FORMAT db p_ride1_id
      p_ride2_id p_config_name = Ok r ->
    exists t,
      total_score r = Some t
      /\ 0 <= t <= 100
      /\ (is_viable r = Some true
          <-> Config.min_viable_score v_config <= t
              /\ violations ST_Distance v_config (select_ride db p_ride1_id)
                   (select_ride db p_ride2_id) = [])
      /\ (is_viable r = Some true \/ is_viable r = Some false)
          /\ exists lines,
         map_result (reason_of ST_Distance FORMAT v_config
                       (select_ride db p_ride1_id) (select_ride db p_ride2_id))
                    (violations ST_Distance v_config
                       (select_ride db p_ride1_id) (select_ride db p_ride2_id))
         = Ok lines
         /\ rejection_reason r = join_lines lines.
Proof.
  intros db id1 id2 name v_config r Hcfg Hgate H.
  unfold calculate_pool_viability_score in H. rewrite Hcfg in H.
  destruct (score_rides_shape _ _ _ _ Hgate H) as [sum [Htot Hvia]].
  destruct (accumulated_reason _ _ _ _ Hgate H) as [lines [Hlines Hreason]].
  destruct (clamp_range sum) as [t [Ht Hrange]].
  exists t. rewrite Htot in *. rewrite Ht in *.
  split; [reflexivity |]. split; [exact Hrange |].
  rewrite Hvia. cbn [num_ge lift2 tv_and].
  split; [| split; [| exists lines; split; assumption]].
  - rewrite <- (map_result_nil _ _ _ _ _ Hlines), <- join_lines_none.
    rewrite <- Hreason.
    destruct (Qle_bool (Config.min_viable_score v_config) t) eqn:E;
      destruct (rejection_reason r); simpl; split; intro G;
      try discriminate; try (destruct G; discriminate).
    + split; [apply Qle_bool_iff; exact E | reflexivity].
    + reflexivity.
    + destruct G as [G _]. apply Qle_bool_iff in G. congruence.
  - destruct (Qle_bool (Config.min_viable_score v_config) t);
      destruct (rejection_reason r); simpl; auto.
Qed.

(** C5 (as amended): with [front_route_only] set and a request that is
    not on the front route, the result is score 0, not viable, with the
    reason text of the source, whatever the distances are: the row does
    not depend on [ST_Distance] or on the rides' locations. *)
Theorem front_route_gate_rejects :
  forall db p_ride1_id p_ride2_id p_config_name v_config,
    select_config db p_config_name = Some v_config ->
    Config.front_route_only v_config = Some true ->
    rec_is_on_front_route (select_ride db p_ride1_id) = Some false
    \/ rec_is_on_front_route (select_ride db p_ride2_id) = Some false ->
    calculate_pool_viability_score ST_Distance FORMAT db p_ride1_id
      p_ride2_id p_config_name
    = Ok {| total_score := Some 0;
            is_viable := Some false;
            breakdown := JObject [];
            rejection_reason :=
              Some "One or both riders are not on the front route" |}.
Proof.
  intros db id1 id2 name v_config Hcfg Hfro Hoff.
  unfold calculate_pool_viability_score. rewrite Hcfg.
  unfold score_rides, front_route_gate. rewrite Hfro.
  destruct Hoff as [Hoff | Hoff]; rewrite Hoff.
  - reflexivity.
  - destruct (rec_is_on_front_route (select_ride db id1)) as [[|] |];
      reflexivity.
Qed.

(** *** Two requests with the same pickup and the same dropoff *)

Section Twins.

Variables p q : geography.
Variables c1 c2 : option timestamptz.
Variables f1 f2 : option bool.
Variable config_id : uuid.

Hypothesis pickup_same : ST_Distance p p == 0.
Hypothesis dropoff_same : ST_Distance q q == 0.
Hypothesis trip_positive : 0 < ST_Distance p q.

Lemma twin_pooled_route :
  exists x, pooled_route_km ST_Distance (twin p q c1 f1) (twin p q c2 f2)
            = Some x
            /\ x == ST_Distance p q / 1000.
Proof.
  eexists. split; [reflexivity |].
  rewrite pickup_same, dropoff_same. field.
Qed.

Lemma twin_overlap :
  route_overlap_percent ST_Distance (twin p q c1 f1) (twin p q c2 f2)
  = Some 100.
Proof.
  unfold route_overlap_percent.
  destruct twin_pooled_route as [x [-> Hx]].
  cbn [direct_route_km distance lift2 num_div_by option_map twin
       rec_pickup_location rec_dropoff_location].
  pose proof (km_positive _ trip_positive) as Hkm.
  assert (Hx0 : ~ x == 0) by (rewrite Hx; lra).
  unfold num_div_nullif, NULLIF. rewrite (Qeq_bool_false _ _ Hx0).
  cbn [num_mul lift2 LEAST].
  assert (H100 : ST_Distance p q / 1000 / x * 100 == 100)
    by (rewrite Hx; field; lra).
  rewrite (proj2 (Qle_bool_iff _ _)); [reflexivity |].
  rewrite H100. apply Qle_refl.
Qed.

Lemma twin_detour :
  exists x, detour_percent ST_Distance (twin p q c1 f1) (twin p q c2 f2)
            = Some x
            /\ x == 0.
Proof.
  unfold detour_percent.
  destruct twin_pooled_route as [x [-> Hx]].
  cbn [direct_route_km distance lift2 num_div_by option_map twin
       rec_pickup_location rec_dropoff_location num_sub].
  pose proof (km_positive _ trip_positive) as Hkm.
  assert (Hd0 : ~ ST_Distance p q / 1000 == 0) by lra.
  unfold num_div_nullif, NULLIF. rewrite (Qeq_bool_false _ _ Hd0).
  cbn [num_mul lift2]. eexists. split; [reflexivity |].
  rewrite Hx. field. lra.
Qed.

Hypothesis gate_open :
  front_route_gate (seeded_config config_id) (twin p q c1 f1) (twin p q c2 f2) = false.

Lemma twin_dest_km :
  exists x, dest_distance_km ST_Distance (twin p q c1 f1) (twin p q c2 f2)
            = Some x /\ x == 0.
Proof.
  eexists. split; [reflexivity |]. rewrite dropoff_same. reflexivity.
Qed.

Lemma twin_pickup_km :
  exists x, pickup_distance_km ST_Distance (twin p q c1 f1) (twin p q c2 f2)
            = Some x /\ x == 0.
Proof.
  eexists. split; [reflexivity |]. rewrite pickup_same. reflexivity.
Qed.

(** With the default configuration no distance threshold is exceeded by
    twins; only the time threshold can be. *)
Lemma twin_violations :
  forall m, time_diff_minutes c1 c2 = Some m ->
  violations ST_Distance (seeded_config config_id) (twin p q c1 f1) (twin p q c2 f2)
  = if (m >? 10)%Z then [Time] else [].
Proof.
  intros m Hm. unfold violations. cbn [filter exceeded].
  destruct twin_dest_km as [xd [-> Hxd]].
  destruct twin_pickup_km as [xp [-> Hxp]].
  destruct twin_detour as [det [-> Hdet]].
  rewrite twin_overlap. cbn [twin rec_created_at]. rewrite Hm.
  cbn [seeded_config Config.max_destination_distance_km
       Config.max_pickup_distance_km Config.min_route_overlap_percent
       Config.max_detour_percent Config.max_time_difference_minutes
       num_gt num_lt int_gt lift2 is_true].
  rewrite (proj2 (Qlt_bool_false_iff 2 xd)) by (rewrite Hxd; discriminate).
  rewrite (proj2 (Qlt_bool_false_iff 5 xp)) by (rewrite Hxp; discriminate).
  rewrite (proj2 (Qlt_bool_false_iff 30 det)) by (rewrite Hdet; discriminate).
  replace (Qlt_bool 100 40) with false by reflexivity.
  destruct (m >? 10)%Z; reflexivity.
Qed.

(** The four additive sub-scores are at their full weight and the
    detour penalty is zero; the time score is the only one that
    varies. *)
Lemma twin_total :
  forall m s4,
    time_diff_minutes c1 c2 = Some m ->
    calculate_time_alignment_score (Some m) (Some 10%Z) (Some 15)
    = Ok (Some s4) ->
    0 <= s4 <= 15 ->
    ((m >? 10)%Z = true ->
     exists line,
       FORMAT "Requests too far apart in time: %s minutes (max: %s minutes)"
              [FInt (Some m); FInt (Some 10%Z)] = Ok line) ->
    exists r t,
      score_rides ST_Distance FORMAT (seeded_config config_id) (twin p q c1 f1)
                  (twin p q c2 f2) = Ok r
      /\ total_score r = Some t
      /\ t == 75 + s4.
Proof.
  intros m s4 Hm Htime Hs4 Hfmt.
  unfold score_rides. rewrite gate_open.
  destruct twin_dest_km as [xd [-> Hxd]].
  destruct twin_pickup_km as [xp [-> Hxp]].
  destruct twin_detour as [det [-> Hdet]].
  rewrite twin_overlap. cbn [twin rec_created_at]. rewrite Hm.
  cbn [seeded_config Config.max_destination_distance_km
       Config.max_pickup_distance_km Config.min_route_overlap_percent
       Config.max_detour_percent Config.max_time_difference_minutes
       Config.destination_proximity_weight Config.pickup_proximity_weight
       Config.route_overlap_weight Config.time_alignment_weight
       Config.detour_penalty_weight Config.min_viable_score].
  cbv zeta.
  cbn [num_gt num_lt int_gt lift2].
  rewrite (proj2 (Qlt_bool_false_iff 2 xd)) by (rewrite Hxd; discriminate).
  rewrite (proj2 (Qlt_bool_false_iff 5 xp)) by (rewrite Hxp; discriminate).
  rewrite (proj2 (Qlt_bool_false_iff 30 det)) by (rewrite Hdet; discriminate).
  replace (Qlt_bool 100 40) with false by reflexivity.
  replace (is_true (Some false)) with false by reflexivity.
  rewrite (destination_score_within xd 2 30)
    by (try (rewrite Hxd); discriminate).
  rewrite (pickup_score_within xp 5 25)
    by (try (rewrite Hxp); discriminate).
  rewrite (overlap_score_within 100 40 20) by discriminate.
  rewrite Htime.
  rewrite (detour_penalty_within det 30 10)
    by (try (rewrite Hdet); discriminate).
  cbn [bind].
  assert (Hline :
            exists v,
              (if is_true (Some (m >? 10)%Z)
               then
                 bind (FORMAT
                         "Requests too far apart in time: %s minutes (max: %s minutes)"
                         [FInt (Some m); FInt (Some 10%Z)])
                      (fun msg => Ok (append_reason None msg))
               else Ok None) = Ok v).
  { destruct (m >? 10)%Z; cbn [is_true].
    - destruct (Hfmt eq_refl) as [line ->]. eexists. reflexivity.
    - eexists. reflexivity. }
  destruct Hline as [v ->].
  cbn [bind num_add lift2].
  set (sum := 30 * (1 - xd / 2) + 25 * ((1 - xp / 5) * (1 - xp / 5))
              + 20 * ((100 - 40) / (100 - 40)) + s4 + - (10) * (det / 30)).
  assert (Hsum : sum == 75 + s4).
  { unfold sum. rewrite Hxd, Hxp, Hdet. field. }
  do 2 eexists. split; [reflexivity |]. cbn [total_score].
  unfold LEAST, GREATEST.
  rewrite (proj2 (Qle_bool_false_iff 100 sum)) by (rewrite Hsum; lra).
  rewrite (proj2 (Qle_bool_iff 0 sum)) by (rewrite Hsum; lra).
  split; [reflexivity | exact Hsum].
Qed.

(** Twins created [m] minutes apart: total, verdict and reason. *)
Lemma twin_result :
  forall m s4,
    time_diff_minutes c1 c2 = Some m ->
    calculate_time_alignment_score (Some m) (Some 10%Z) (Some 15)
    = Ok (Some s4) ->
    0 <= s4 <= 15 ->
    ((m >? 10)%Z = true ->
     exists line,
       FORMAT "Requests too far apart in time: %s minutes (max: %s minutes)"
              [FInt (Some m); FInt (Some 10%Z)] = Ok line) ->
    exists r t,
      score_rides ST_Distance FORMAT (seeded_config config_id)
                  (twin p q c1 f1) (twin p q c2 f2) = Ok r
      /\ total_score r = Some t
      /\ t == 75 + s4
      /\ is_viable r = Some (Qle_bool 60 t && negb (m >? 10)%Z).
Proof.
  intros m s4 Hm Htime Hs4 Hfmt.
  destruct (twin_total m s4 Hm Htime Hs4 Hfmt) as [r [t [Hr [Ht Hsum]]]].
  exists r, t. split; [exact Hr |]. split; [exact Ht |].
  split; [exact Hsum |].
  destruct (score_rides_shape _ _ _ _ gate_open Hr) as [sum [_ Hvia]].
  destruct (accumulated_reason _ _ _ _ gate_open Hr) as [lines [Hlines Hreason]].
  rewrite Hvia, Ht, Hreason.
  pose proof (map_result_nil _ _ _ _ _ Hlines) as Hnil.
  rewrite (twin_violations m Hm) in Hnil.
  destruct (m >? 10)%Z; destruct lines as [| line rest]; cbn;
    destruct (Qle_bool 60 t); try reflexivity;
    exfalso; destruct Hnil as [H1 H2];
    first [discriminate (H1 eq_refl) | discriminate (H2 eq_refl)].
Qed.

End Twins.

(** C4 (as amended): with the seeded default configuration, two requests
    on the front route with the same pickup, the same dropoff (a trip of
    positive length) and creation times 0 minutes apart score 90, not 100,
    and are viable. *)
Theorem identical_requests_score_ninety :
  forall db p_ride1_id p_ride2_id p_config_name config_id p q,
    select_config db p_config_name = Some (seeded_config config_id) ->
    rec_pickup_location (select_ride db p_ride1_id) = Some p ->
    rec_pickup_location (select_ride db p_ride2_id) = Some p ->
    rec_dropoff_location (select_ride db p_ride1_id) = Some q ->
    rec_dropoff_location (select_ride db p_ride2_id) = Some q ->
    time_diff_minutes (rec_created_at (select_ride db p_ride1_id))
                      (rec_created_at (select_ride db p_ride2_id))
    = Some 0%Z ->
    rec_is_on_front_route (select_ride db p_ride1_id) = Some true ->
    rec_is_on_front_route (select_ride db p_ride2_id) = Some true ->
    ST_Distance p p == 0 ->
    ST_Distance q q == 0 ->
    0 < ST_Distance p q ->
    exists r t,
      calculate_pool_viability_score ST_Distance FORMAT db p_ride1_id
        p_ride2_id p_config_name = Ok r
      /\ total_score r = Some t
      /\ t == 90
      /\ is_viable r = Some true.
Proof.
  intros db id1 id2 name config_id p q Hcfg Hp1 Hp2 Hq1 Hq2 Htime Hf1 Hf2
         Hpp Hqq Hpq.
  unfold calculate_pool_viability_score. rewrite Hcfg.
  destruct (select_ride db id1) as [pl1 dl1 cr1 fr1].
  destruct (select_ride db id2) as [pl2 dl2 cr2 fr2].
  cbn [rec_pickup_location rec_dropoff_location rec_created_at
       rec_is_on_front_route] in *.
  subst pl1 pl2 dl1 dl2 fr1 fr2.
  change {| rec_pickup_location := Some p; rec_dropoff_location := Some q;
            rec_created_at := cr1; rec_is_on_front_route := Some true |}
    with (twin p q cr1 (Some true)).
  change {| rec_pickup_location := Some p; rec_dropoff_location := Some q;
            rec_created_at := cr2; rec_is_on_front_route := Some true |}
    with (twin p q cr2 (Some true)).
  assert (Hgate : front_route_gate (seeded_config config_id)
                    (twin p q cr1 (Some true)) (twin p q cr2 (Some true))
                  = false) by reflexivity.
  destruct (twin_result p q cr1 cr2 (Some true) (Some true) config_id
              Hpp Hqq Hpq Hgate 0%Z (15 * (1 - inject_Z 0 / inject_Z 10)) Htime)
    as [r [t [Hr [Ht [Hsum Hvia]]]]].
    - apply time_score_within; lia.
  - split; discriminate.
  - discriminate.
  - exists r, t. split; [exact Hr |]. split; [exact Ht |].
    assert (H90 : t == 90) by (rewrite Hsum; reflexivity).
    split; [exact H90 |].
    rewrite Hvia. rewrite (proj2 (Qle_bool_iff 60 t)) by (rewrite H90; discriminate).
    reflexivity.
Qed.

(** A pair that scores above the floor and is rejected all the same: the
    twins of the default configuration created eleven minutes apart score
    75 against a floor of 60 and are not viable. *)
Lemma late_twins_rejected_above_floor :
  forall config_id p q c1 c2,
    ST_Distance p p == 0 ->
    ST_Distance q q == 0 ->
    0 < ST_Distance p q ->
    time_diff_minutes c1 c2 = Some 11%Z ->
    (exists line,
       FORMAT "Requests too far apart in time: %s minutes (max: %s minutes)"
              [FInt (Some 11%Z); FInt (Some 10%Z)] = Ok line) ->
    exists r t,
      score_rides ST_Distance FORMAT (seeded_config config_id)
                  (twin p q c1 (Some true)) (twin p q c2 (Some true)) = Ok r
      /\ total_score r = Some t
      /\ Config.min_viable_score (seeded_config config_id) <= t
      /\ is_viable r = Some false.
Proof.
    intros config_id p q c1 c2 Hpp Hqq Hpq Htime Hfmt.
  assert (Hgate : front_route_gate (seeded_config config_id)
                    (twin p q c1 (Some true)) (twin p q c2 (Some true))
                  = false) by reflexivity.
  destruct (twin_result p q c1 c2 (Some true) (Some true) config_id
              Hpp Hqq Hpq Hgate 11%Z 0 Htime)
    as [r [t [Hr [Ht [Hsum Hvia]]]]].
  - apply time_score_beyond. lia.
  - split; discriminate.
  - intros _. exact Hfmt.
  - exists r, t. split; [exact Hr |]. split; [exact Ht |].
    split.
    + cbn [seeded_config Config.min_viable_score]. rewrite Hsum. discriminate.
    + rewrite Hvia. cbn. apply f_equal, andb_false_r.
Qed.

(** C1 (as amended): whenever the front-route gate does not fire, the
    result is viable exactly when the clamped total reaches
    [min_viable_score] and none of the five hard thresholds (destination,
    pickup, overlap, time, detour) is exceeded; the rejection reason is the
    texts of the exceeded thresholds joined by newlines; and some pairs
    score at or above the floor and are not viable. *)
Theorem soft_score_hard_gate :
  (forall db p_ride1_id p_ride2_id p_config_name v_config r,
      select_config db p_config_name = Some v_config ->
      front_route_gate v_config (select_ride db p_ride1_id)
                       (select_ride db p_ride2_id) = false ->
      calculate_pool_viability_score ST_Distance FORMAT db p_ride1_id
        p_ride2_id p_config_name = Ok r ->
      exists t,
        total_score r = Some t
        /\ 0 <= t <= 100
        /\ (is_viable r = Some true
            <-> Config.min_viable_score v_config <= t
                /\ violations ST_Distance v_config (select_ride db p_ride1_id)
                     (select_ride db p_ride2_id) = [])
        /\ (is_viable r = Some true \/ is_viable r = Some false)
                /\ exists lines,
             map_result (reason_of ST_Distance FORMAT v_config
                           (select_ride db p_ride1_id)
                           (select_ride db p_ride2_id))
                        (violations ST_Distance v_config
                           (select_ride db p_ride1_id)
                           (select_ride db p_ride2_id))
             = Ok lines
             /\ rejection_reason r = join_lines lines)
  /\ (forall p q,
        ST_Distance p p == 0 ->
        ST_Distance q q == 0 ->
        0 < ST_Distance p q ->
        (exists line,
           FORMAT "Requests too far apart in time: %s minutes (max: %s minutes)"
                  [FInt (Some 11%Z); FInt (Some 10%Z)] = Ok line) ->
        exists db p_ride1_id p_ride2_id v_config r t,
          select_config db "default" = Some v_config
          /\ front_route_gate v_config (select_ride db p_ride1_id)
                              (select_ride db p_ride2_id) = false
          /\ calculate_pool_viability_score ST_Distance FORMAT db p_ride1_id
               p_ride2_id "default" = Ok r
          /\ total_score r = Some t
          /\ Config.min_viable_score v_config <= t
          /\ is_viable r = Some false).
Proof.
  split.
  - exact viability_of_result.
    - intros p q Hpp Hqq Hpq Hfmt.
    destruct (late_twins_rejected_above_floor 1%N p q (Some 0%Z)
                (Some 660000000%Z) Hpp Hqq Hpq eq_refl Hfmt)
      as [r [t [Hr [Ht [Hmin Hvia]]]]].
    exists (example_db [seeded_config 1%N] []
              [example_ride 7%N 70%N None p q true 0%Z;
               example_ride 8%N 80%N None p q true 660000000%Z] []).
    exists (Some 7%N), (Some 8%N), (seeded_config 1%N), r, t.
    split; [reflexivity |]. split; [reflexivity |].
    split; [exact Hr |]. split; [exact Ht |]. split; [exact Hmin | exact Hvia].
Qed.

End ScoringTheorems.

(** *** The scoring claims on concrete rides *)

Lemma soft_score_hard_gate_witness :
  exists r,
    calculate_pool_viability_score grid_distance plain_format late_db
      (Some 7%N) (Some 8%N) "default" = Ok r
    /\ exists t,
         total_score r = Some t
         /\ 0 <= t <= 100
         /\ (is_viable r = Some true
             <-> Config.min_viable_score default_config <= t
                 /\ violations grid_distance default_config
                      (select_ride late_db (Some 7%N))
                      (select_ride late_db (Some 8%N)) = [])
         /\ (is_viable r = Some true \/ is_viable r = Some false)
                /\ exists lines,
            map_result (reason_of grid_distance plain_format default_config
                          (select_ride late_db (Some 7%N))
                          (select_ride late_db (Some 8%N)))
                       (violations grid_distance default_config
                          (select_ride late_db (Some 7%N))
                          (select_ride late_db (Some 8%N)))
            = Ok lines
            /\ rejection_reason r = join_lines lines.
Proof.
  eexists. split.
  - vm_compute. reflexivity.
  - apply (proj1 (soft_score_hard_gate grid_distance plain_format) late_db
             (Some 7%N) (Some 8%N) "default" default_config);
      vm_compute; reflexivity.
Defined.

(** The claim as written fails where the front-route gate fires on a
    configuration whose floor is 0: the total (0) reaches the floor and no
    threshold is exceeded, yet the pair is not viable. *)
Lemma gate_rejects_at_the_floor :
  exists r t,
    calculate_pool_viability_score grid_distance plain_format off_route_db
      (Some 7%N) (Some 8%N) "default" = Ok r
    /\ total_score r = Some t
    /\ Config.min_viable_score floor_zero_config <= t
    /\ violations grid_distance floor_zero_config
         (select_ride off_route_db (Some 7%N))
         (select_ride off_route_db (Some 8%N)) = []
    /\ is_viable r = Some false.
Proof.
  eexists. exists 0. split; [vm_compute; reflexivity |].
  split; [reflexivity |]. split; [discriminate |].
  split; [vm_compute; reflexivity | reflexivity].
Qed.

Lemma identical_requests_score_ninety_witness :
  exists r t,
    calculate_pool_viability_score grid_distance plain_format twin_db
      (Some 7%N) (Some 8%N) "default" = Ok r
    /\ total_score r = Some t
    /\ t == 90
    /\ is_viable r = Some true.
Proof.
  apply (identical_requests_score_ninety grid_distance plain_format twin_db
           (Some 7%N) (Some 8%N) "default" 1%N point_a point_b);
    reflexivity.
Defined.

(** Two requests with the same pickup, the same dropoff and the same
    creation time under the default configuration: the total is 90, not
    100. *)
Lemma identical_requests_do_not_score_100 :
  exists r t,
    calculate_pool_viability_score grid_distance plain_format twin_db
      (Some 7%N) (Some 8%N) "default" = Ok r
    /\ total_score r = Some t
    /\ t == 90
    /\ ~ t == 100.
Proof.
  eexists. eexists. split; [vm_compute; reflexivity |].
  split; [reflexivity |]. split; [reflexivity | discriminate].
Qed.

Lemma front_route_gate_rejects_witness :
  calculate_pool_viability_score grid_distance plain_format off_route_db
    (Some 7%N) (Some 8%N) "default"
  = Ok {| total_score := Some 0;
          is_viable := Some false;
          breakdown := JObject [];
          rejection_reason :=
            Some "One or both riders are not on the front route" |}.
Proof.
  apply (front_route_gate_rejects grid_distance plain_format off_route_db
           (Some 7%N) (Some 8%N) "default" floor_zero_config).
  - reflexivity.
  - reflexivity.
  - right. reflexivity.
Defined.

(** The reason of the front-route rejection is not the text that the claim
    quotes. *)
Lemma front_route_reason_is_not_the_quoted_text :
  exists r,
    calculate_pool_viability_score grid_distance plain_format off_route_db
      (Some 7%N) (Some 8%N) "default" = Ok r
    /\ total_score r = Some 0
    /\ is_viable r = Some false
    /\ rejection_reason r <> Some "not on front route".
Proof.
  eexists. split; [vm_compute; reflexivity |].
  split; [reflexivity |]. split; [reflexivity |].
  cbn [rejection_reason]. intro H. discriminate H.
Qed.

(** ** The pool state machine *)

Lemma frozen_refl : forall db, frozen db db.
Proof. intros db pid s H _. exact H. Qed.

Lemma frozen_trans : forall a b c, frozen a b -> frozen b c -> frozen a c.
Proof.
  intros a b c Hab Hbc pid s H Ht. apply (Hbc pid s); [| exact Ht].
  apply (Hab pid s); assumption.
Qed.

Lemma frozen_sticky : forall a b, frozen a b -> sticky a b.
Proof. intros a b H pid s Hs Ht. left. apply (H pid s); assumption. Qed.

Lemma sticky_refl : forall db, sticky db db.
Proof. intro db. apply frozen_sticky, frozen_refl. Qed.

Lemma sticky_trans : forall a b c, sticky a b -> sticky b c -> sticky a c.
Proof.
  intros a b c Hab Hbc pid s H Ht.
  destruct (Hab pid s H Ht) as [Hb | Hb].
  - apply (Hbc pid s Hb Ht).
  - right. destruct (Hbc pid CANCELLED Hb eq_refl); assumption.
Qed.

(** Databases with the same [pools] table. *)
Lemma same_pools_frozen : forall a b, pools a = pools b -> frozen a b.
Proof.
  intros a b H pid s Hs _. unfold pool_status_of, select_pool in *.
  rewrite <- H. exact Hs.
Qed.

Lemma find_pool_map : forall (g : Pools.row -> Pools.row) q l,
  (forall p, Pools.id (g p) = Pools.id p) ->
  find (fun p => N.eqb (Pools.id p) q) (map g l)
  = option_map g (find (fun p => N.eqb (Pools.id p) q) l).
Proof.
  intros g q l Hid. induction l as [| p l IH]; simpl.
  - reflexivity.
  - rewrite Hid. destruct (N.eqb (Pools.id p) q); [reflexivity | exact IH].
Qed.

(** What an [UPDATE] of [pools] that keeps the ids leaves in the table. *)
Lemma update_pools_select : forall db p_pool_id f db',
  (forall p, Pools.id (f p) = Pools.id p) ->
  update_pools db p_pool_id f = Ok db' ->
  forall q,
    select_pool db' q
    = option_map (fun p => if N.eqb (Pools.id p) p_pool_id then f p else p)
                 (select_pool db q).
Proof.
  intros db pid f db' Hid H q. unfold update_pools in H.
  destruct (forallb _ _); [| discriminate].
  injection H as <-. unfold select_pool. cbn [pools set_pools].
  apply find_pool_map. intro p.
  destruct (N.eqb (Pools.id p) pid); [apply Hid | reflexivity].
Qed.

Lemma update_pools_other_tables : forall db p_pool_id f db',
  update_pools db p_pool_id f = Ok db' ->
  rides db' = rides db
  /\ pool_members db' = pool_members db
  /\ notifications db' = notifications db
  /\ pool_scoring_config db' = pool_scoring_config db.
Proof.
  intros db pid f db' H. unfold update_pools in H.
  destruct (forallb _ _); [| discriminate].
  injection H as <-. repeat split; reflexivity.
Qed.

Lemma update_pools_sticky : forall db p_pool_id f db',
  (forall p, Pools.id (f p) = Pools.id p) ->
  (forall p, terminal (Pools.status p) = true ->
             Pools.status (f p) = Pools.status p
             \/ Pools.status (f p) = CANCELLED) ->
  update_pools db p_pool_id f = Ok db' ->
  sticky db db'.
Proof.
  intros db pid f db' Hid Hst H q s Hs Ht.
  unfold pool_status_of in *. rewrite (update_pools_select _ _ _ _ Hid H).
  destruct (select_pool db q) as [p |]; [| discriminate].
  simpl in *. injection Hs as Hs.
  destruct (N.eqb (Pools.id p) pid).
  - rewrite <- Hs in Ht. destruct (Hst p Ht) as [E | E]; rewrite E.
    + left. congruence.
    + right. reflexivity.
  - left. congruence.
Qed.

Lemma update_pools_frozen : forall db p_pool_id f db',
  (forall p, Pools.id (f p) = Pools.id p) ->
  (forall p, terminal (Pools.status p) = true ->
             Pools.status (f p) = Pools.status p) ->
  update_pools db p_pool_id f = Ok db' ->
  frozen db db'.
Proof.
  intros db pid f db' Hid Hst H q s Hs Ht.
  unfold pool_status_of in *. rewrite (update_pools_select _ _ _ _ Hid H).
  destruct (select_pool db q) as [p |]; [| discriminate].
  simpl in *. injection Hs as Hs.
  destruct (N.eqb (Pools.id p) pid).
  - rewrite <- Hs in Ht. rewrite (Hst p Ht). congruence.
  - congruence.
Qed.

(** The [CASE] of the two recomputations keeps a terminal status. *)
Lemma next_status_terminal : forall s c m d,
  terminal s = true -> next_status s c m d = s.
Proof. intros s c m d H. unfold next_status. rewrite H. reflexivity. Qed.

(** The [CASE] never produces [CANCELLED] from another status: the [WHEN]
    of [cascade_pool_cancel] does not hold for the rows that
    [sync_pool_status] rewrites. *)
Lemma next_status_cancelled : forall s c m d,
  next_status s c m d = CANCELLED -> s = CANCELLED.
Proof.
  intros s c m d. unfold next_status.
  destruct s; simpl; try congruence;
    destruct (c >=? m)%Z; destruct d; simpl; congruence.
Qed.

Lemma sync_pool_status_frozen : forall db v_pool_id db',
  sync_pool_status db v_pool_id = Ok db' -> frozen db db'.
Proof.
  intros db pid db' H. unfold sync_pool_status in H.
  destruct (select_pool db pid) as [p0 |].
  - eapply update_pools_frozen; [| | exact H]; [intro p; reflexivity |].
    intros p Ht. cbn [pool_with_count_status Pools.status].
    apply next_status_terminal, Ht.
  - injection H as <-. apply frozen_refl.
Qed.

Lemma sync_pool_status_internal_frozen : forall db p_pool_id db',
  sync_pool_status_internal db p_pool_id = Ok db' -> frozen db db'.
Proof.
  intros db pid db' H. unfold sync_pool_status_internal in H.
  destruct (select_pool db pid) as [p0 |].
  - eapply update_pools_frozen; [| | exact H]; [intro p; reflexivity |].
    intros p Ht. cbn [pool_with_count_status Pools.status].
    apply next_status_terminal, Ht.
  - injection H as <-. apply frozen_refl.
Qed.

Lemma after_pool_members_change_frozen : forall touched db db',
  after_pool_members_change db touched = Ok db' -> frozen db db'.
Proof.
  induction touched as [| pm rest IH]; intros db db' H; simpl in H.
  - injection H as <-. apply frozen_refl.
  - apply bind_ok in H. destruct H as [db1 [H1 H2]].
    eapply frozen_trans; [apply (sync_pool_status_frozen _ _ _ H1) |].
    apply IH, H2.
Qed.

Lemma cascade_pool_cancellation_frozen : forall db OLD NEW now db',
  cascade_pool_cancellation db OLD NEW now = Ok db' -> frozen db db'.
Proof.
  intros db OLD NEW now db' H. unfold cascade_pool_cancellation in H.
  destruct (becomes_cancelled OLD NEW).
  - apply after_pool_members_change_frozen in H.
    eapply frozen_trans; [| exact H]. apply same_pools_frozen. reflexivity.
  - injection H as <-. apply frozen_refl.
Qed.

Lemma cascade_pool_cancel_frozen : forall olds db f now db',
  cascade_pool_cancel db olds f now = Ok db' -> frozen db db'.
Proof.
  induction olds as [| OLD rest IH]; intros db f now db' H; simpl in H.
  - injection H as <-. apply frozen_refl.
  - apply bind_ok in H. destruct H as [db1 [H1 H2]].
    eapply frozen_trans; [| apply (IH _ _ _ _ H2)].
    destruct (becomes_cancelled OLD (f OLD)).
    + apply (cascade_pool_cancellation_frozen _ _ _ _ _ H1).
    + injection H1 as <-. apply frozen_refl.
Qed.

Lemma update_pool_cancelled_sticky : forall db p_pool_id now db',
  update_pool_cancelled db p_pool_id now = Ok db' -> sticky db db'.
Proof.
  intros db pid now db' H. unfold update_pool_cancelled in H.
  apply bind_ok in H. destruct H as [db1 [H1 H2]].
  eapply sticky_trans.
  - eapply update_pools_sticky; [| | exact H1]; [intro p; reflexivity |].
    intros p _. right. reflexivity.
  - apply frozen_sticky, (cascade_pool_cancel_frozen _ _ _ _ _ H2).
Qed.

Section StateMachine.

Variable ST_Distance : geography -> geography -> Q.
Variable FORMAT : string -> list fmt_arg -> result string.

Lemma update_pool_viability_score_sticky : forall db NEW now db',
  update_pool_viability_score ST_Distance FORMAT db NEW now = Ok db' ->
  sticky db db'.
Proof.
  intros db NEW now db' H. unfold update_pool_viability_score in H.
  cbv zeta in H.
  destruct (count_members db _ _ =? 2)%Z.
  - apply bind_ok in H. destruct H as [sc [_ H]].
    apply bind_ok in H. destruct H as [db1 [H1 H]].
    apply bind_ok in H. destruct H as [db3 [H3 H]].
    assert (F13 : frozen db db3).
    { eapply frozen_trans.
      - eapply update_pools_frozen; [| | exact H1]; intros; reflexivity.
      - eapply frozen_trans;
          [| apply (after_pool_members_change_frozen _ _ _ H3)].
        apply same_pools_frozen. reflexivity. }
    destruct (is_true (tv_not (is_viable sc))).
        + apply bind_ok in H. destruct H as [db4 [H4 H]].
      apply bind_ok in H. destruct H as [inserted [_ H]].
      injection H as <-.
      eapply sticky_trans; [apply frozen_sticky, F13 |].
      eapply sticky_trans; [apply (update_pool_cancelled_sticky _ _ _ _ H4) |].
      apply frozen_sticky, same_pools_frozen. reflexivity.
    + injection H as <-. apply frozen_sticky, F13.
  - injection H as <-. apply sticky_refl.
Qed.

Lemma insert_pool_member_sticky : forall db NEW now db',
  insert_pool_member ST_Distance FORMAT db NEW now = Ok db' -> sticky db db'.
Proof.
  intros db NEW now db' H. unfold insert_pool_member in H.
  destruct (pool_members_insertable db NEW); [| discriminate].
  apply bind_ok in H. destruct H as [db2 [H2 H]].
  eapply sticky_trans; [| apply (update_pool_viability_score_sticky _ _ _ _ H)].
  apply frozen_sticky.
  eapply frozen_trans; [| apply (sync_pool_status_frozen _ _ _ H2)].
  apply same_pools_frozen. reflexivity.
Qed.

Lemma leave_pool_member_frozen : forall db member_id now db',
  leave_pool_member db member_id now = Ok db' -> frozen db db'.
Proof.
  intros db mid now db' H. unfold leave_pool_member in H.
  apply after_pool_members_change_frozen in H.
  eapply frozen_trans; [| exact H]. apply same_pools_frozen. reflexivity.
Qed.

Lemma delete_pool_member_frozen : forall db member_id db',
  delete_pool_member db member_id = Ok db' -> frozen db db'.
Proof.
  intros db mid db' H. unfold delete_pool_member in H.
  apply after_pool_members_change_frozen in H.
  eapply frozen_trans; [| exact H]. apply same_pools_frozen. reflexivity.
Qed.

Lemma sync_pool_status_on_driver_change_frozen : forall olds db d db',
  sync_pool_status_on_driver_change db olds d = Ok db' -> frozen db db'.
Proof.
  induction olds as [| OLD rest IH]; intros db d db' H; simpl in H.
  - injection H as <-. apply frozen_refl.
  - apply bind_ok in H. destruct H as [db1 [H1 H2]].
    eapply frozen_trans; [| apply (IH _ _ _ H2)].
    destruct (is_distinct_from (Pools.driver_id OLD) d).
    + apply (sync_pool_status_internal_frozen _ _ _ H1).
    + injection H1 as <-. apply frozen_refl.
Qed.

Lemma set_pool_driver_frozen : forall db p_pool_id d v db',
  set_pool_driver db p_pool_id d v = Ok db' -> frozen db db'.
Proof.
  intros db pid d v db' H. unfold set_pool_driver in H.
  apply bind_ok in H. destruct H as [db1 [H1 H2]].
  eapply frozen_trans.
  - eapply update_pools_frozen; [| | exact H1]; intros; reflexivity.
  - apply (sync_pool_status_on_driver_change_frozen _ _ _ _ H2).
Qed.

Lemma exec_sticky : forall db now e,
  sticky db (exec ST_Distance FORMAT db now e).
Proof.
  intros db now e. unfold exec.
  destruct (step ST_Distance FORMAT db now e) as [db1 | msg] eqn:H;
    [| apply sticky_refl].
  destruct e; simpl in H.
  - apply (insert_pool_member_sticky _ _ _ _ H).
  - apply frozen_sticky, (leave_pool_member_frozen _ _ _ _ H).
  - apply frozen_sticky, (delete_pool_member_frozen _ _ _ H).
  - apply frozen_sticky, (set_pool_driver_frozen _ _ _ _ _ H).
  - apply frozen_sticky, (sync_pool_status_internal_frozen _ _ _ H).
Qed.

Lemma exec_frozen : forall db now e,
  (forall NEW, e <> InsertMember NEW) ->
  frozen db (exec ST_Distance FORMAT db now e).
Proof.
  intros db now e Hne. unfold exec.
  destruct (step ST_Distance FORMAT db now e) as [db1 | msg] eqn:H;
    [| apply frozen_refl].
  destruct e; simpl in H.
  - exfalso. apply (Hne NEW). reflexivity.
  - apply (leave_pool_member_frozen _ _ _ _ H).
  - apply (delete_pool_member_frozen _ _ _ H).
  - apply (set_pool_driver_frozen _ _ _ _ _ H).
  - apply (sync_pool_status_internal_frozen _ _ _ H).
Qed.

Lemma run_sticky : forall evs db, sticky db (run ST_Distance FORMAT db evs).
Proof.
  induction evs as [| [now e] rest IH]; intro db; simpl.
  - apply sticky_refl.
  - eapply sticky_trans; [apply exec_sticky | apply IH].
Qed.

Lemma run_frozen : forall evs db,
  no_insert evs -> frozen db (run ST_Distance FORMAT db evs).
Proof.
  induction evs as [| [now e] rest IH]; intros db Hno; simpl.
  - apply frozen_refl.
  - eapply frozen_trans.
    + apply exec_frozen. intros NEW E.
      apply (Hno now NEW). left. rewrite E. reflexivity.
    + apply IH. intros n NEW Hin. apply (Hno n NEW). right. exact Hin.
Qed.

(** C2: along every sequence of membership changes, driver changes and
    recomputations, a pool that is [STARTED], [COMPLETED] or [CANCELLED]
    keeps its status; the one exception is the cancellation written by
    the scoring trigger of a member insert, which leaves it [CANCELLED].
    Without member inserts the status is kept as it is, and a [CANCELLED]
    pool stays [CANCELLED] in every case. *)
Theorem terminal_status_is_sticky :
  forall evs db p_pool_id s,
    pool_status_of db p_pool_id = Some s ->
    terminal s = true ->
    (pool_status_of (run ST_Distance FORMAT db evs) p_pool_id = Some s
     \/ pool_status_of (run ST_Distance FORMAT db evs) p_pool_id
        = Some CANCELLED)
    /\ (s = CANCELLED ->
        pool_status_of (run ST_Distance FORMAT db evs) p_pool_id
        = Some CANCELLED)
    /\ (no_insert evs ->
        pool_status_of (run ST_Distance FORMAT db evs) p_pool_id = Some s).
Proof.
  intros evs db pid s Hs Ht.
  pose proof (run_sticky evs db pid s Hs Ht) as H.
  split; [exact H |]. split.
  - intros ->. destruct H; assumption.
  - intro Hno. apply (run_frozen evs db Hno pid s Hs Ht).
Qed.

End StateMachine.

(** ** The cancellation cascade *)

Lemma sync_pool_status_tables : forall db v_pool_id db',
  sync_pool_status db v_pool_id = Ok db' ->
  rides db' = rides db
  /\ pool_members db' = pool_members db
  /\ notifications db' = notifications db
  /\ pool_scoring_config db' = pool_scoring_config db.
Proof.
  intros db pid db' H. unfold sync_pool_status in H.
  destruct (select_pool db pid).
  - apply (update_pools_other_tables _ _ _ _ H).
  - injection H as <-. repeat split; reflexivity.
Qed.

Lemma after_pool_members_change_tables : forall touched db db',
  after_pool_members_change db touched = Ok db' ->
  rides db' = rides db
  /\ pool_members db' = pool_members db
  /\ notifications db' = notifications db
  /\ pool_scoring_config db' = pool_scoring_config db.
Proof.
  induction touched as [| pm rest IH]; intros db db' H; simpl in H.
  - injection H as <-. repeat split; reflexivity.
  - apply bind_ok in H. destruct H as [db1 [H1 H2]].
    destruct (sync_pool_status_tables _ _ _ H1) as [R1 [M1 [N1 C1]]].
    destruct (IH _ _ H2) as [R2 [M2 [N2 C2]]].
    repeat split; congruence.
Qed.

Lemma cancel_ride_of_idempotent : forall p_pool_id r,
  cancel_ride_of p_pool_id (cancel_ride_of p_pool_id r)
  = cancel_ride_of p_pool_id r.
Proof.
  intros pid r. unfold cancel_ride_of.
  destruct (ride_to_cancel pid r) eqn:E.
  - unfold ride_to_cancel. cbn [ride_cancelled Rides.status ride_open].
    rewrite andb_false_r. reflexivity.
  - rewrite E. reflexivity.
Qed.

Lemma leave_member_of_idempotent : forall p_pool_id now pm,
  leave_member_of p_pool_id now (leave_member_of p_pool_id now pm)
  = leave_member_of p_pool_id now pm.
Proof.
  intros pid now pm. unfold leave_member_of.
  destruct (member_active pid pm) eqn:E.
  - unfold member_active. cbn [member_left PoolMembers.left_at is_null].
    rewrite andb_false_r. reflexivity.
  - rewrite E. reflexivity.
Qed.

Lemma map_idempotent : forall (A : Type) (f : A -> A) (l : list A),
  (forall x, f (f x) = f x) -> map f (map f l) = map f l.
Proof.
  intros A f l H. rewrite map_map. apply map_ext. exact H.
Qed.

Lemma map_if_false : forall (A : Type) (f : A -> A) (l : list A),
  map (fun x => if false then f x else x) l = l.
Proof. intros A f l. apply map_id. Qed.

(** One firing of the cascade: the rides and memberships of the pool are
    rewritten, no notification is written. *)
Lemma cascade_pool_cancellation_tables : forall db OLD NEW now db',
  cascade_pool_cancellation db OLD NEW now = Ok db' ->
  becomes_cancelled OLD NEW = true ->
  rides db' = map (cancel_ride_of (Pools.id NEW)) (rides db)
  /\ pool_members db'
     = map (leave_member_of (Pools.id NEW) now) (pool_members db)
  /\ notifications db' = notifications db.
Proof.
  intros db OLD NEW now db' H Hb. unfold cascade_pool_cancellation in H.
  rewrite Hb in H.
  destruct (after_pool_members_change_tables _ _ _ H) as [R [M [N _]]].
  rewrite R, M, N. repeat split; reflexivity.
Qed.

Lemma cascade_pool_cancel_tables : forall olds db p_pool_id now db',
  Forall (fun p => Pools.id p = p_pool_id) olds ->
  cascade_pool_cancel db olds (pool_cancelled now) now = Ok db' ->
  let fired :=
    existsb (fun p => negb (pool_status_eqb (Pools.status p) CANCELLED)) olds in
  rides db' = (if fired then map (cancel_ride_of p_pool_id) (rides db)
               else rides db)
  /\ pool_members db'
     = (if fired then map (leave_member_of p_pool_id now) (pool_members db)
        else pool_members db)
  /\ notifications db' = notifications db.
Proof.
  induction olds as [| OLD rest IH]; intros db pid now db' Hids H; simpl in H.
  - injection H as <-. repeat split; reflexivity.
  - apply bind_ok in H. destruct H as [db1 [H1 H2]].
    inversion Hids as [| ? ? Hid Hrest]; subst.
    destruct (IH _ _ _ _ Hrest H2) as [R2 [M2 N2]].
    cbn [existsb].
    assert (Hb : becomes_cancelled OLD (pool_cancelled now OLD)
                 = negb (pool_status_eqb (Pools.status OLD) CANCELLED))
      by reflexivity.
    rewrite Hb in H1.
    destruct (negb (pool_status_eqb (Pools.status OLD) CANCELLED)) eqn:E.
    + destruct (cascade_pool_cancellation_tables _ _ _ _ _ H1 Hb)
        as [R1 [M1 N1]].
      cbn [pool_cancelled Pools.id] in R1, M1.
      rewrite R2, M2, N2, R1, M1, N1. cbn [orb].
      destruct (existsb _ rest).
      * rewrite (map_idempotent _ _ _ (cancel_ride_of_idempotent _)).
        rewrite (map_idempotent _ _ _ (leave_member_of_idempotent _ now)).
        repeat split; reflexivity.
      * repeat split; reflexivity.
    + injection H1 as <-. cbn [orb]. repeat split; assumption.
Qed.

Lemma existsb_filter : forall (A : Type) (f g : A -> bool) (l : list A),
  existsb g (filter f l) = existsb (fun x => f x && g x) l.
Proof.
  intros A f g l. induction l as [| x l IH]; simpl.
  - reflexivity.
  - destruct (f x); simpl; rewrite IH; reflexivity.
Qed.

(** The cancel statement with its trigger. *)
Lemma update_pool_cancelled_tables : forall db p_pool_id now db',
  update_pool_cancelled db p_pool_id now = Ok db' ->
  rides db'
  = map (fun r => if not_yet_cancelled db p_pool_id
                  then cancel_ride_of p_pool_id r else r) (rides db)
  /\ pool_members db'
     = map (fun pm => if not_yet_cancelled db p_pool_id
                      then leave_member_of p_pool_id now pm else pm)
           (pool_members db)
  /\ notifications db' = notifications db.
Proof.
  intros db pid now db' H. unfold update_pool_cancelled in H.
  apply bind_ok in H. destruct H as [db1 [H1 H2]].
  destruct (update_pools_other_tables _ _ _ _ H1) as [R1 [M1 [N1 _]]].
  apply cascade_pool_cancel_tables with (p_pool_id := pid) in H2.
  - cbv zeta in H2. rewrite existsb_filter in H2.
    destruct H2 as [R2 [M2 N2]]. fold (not_yet_cancelled db pid) in R2, M2.
    rewrite R2, M2, N2, R1, M1, N1.
    destruct (not_yet_cancelled db pid).
    + repeat split; reflexivity.
    + rewrite !map_id. repeat split; reflexivity.
  - apply Forall_forall. intros p Hin. apply filter_In in Hin.
    apply N.eqb_eq. apply Hin.
Qed.

Lemma update_pool_cancelled_status : forall db p_pool_id now db' s,
  update_pool_cancelled db p_pool_id now = Ok db' ->
  pool_status_of db p_pool_id = Some s ->
  pool_status_of db' p_pool_id = Some CANCELLED.
Proof.
  intros db pid now db' s H Hs. unfold update_pool_cancelled in H.
  apply bind_ok in H. destruct H as [db1 [H1 H2]].
  apply (cascade_pool_cancel_frozen _ _ _ _ _ H2 pid CANCELLED); [| reflexivity].
  unfold pool_status_of in *.
  rewrite (update_pools_select db pid (pool_cancelled now) db1
             (fun p => eq_refl) H1).
  destruct (select_pool db pid) as [p |] eqn:E; [| discriminate].
  simpl. unfold select_pool in E. apply find_some in E.
  destruct E as [_ E]. rewrite E. reflexivity.
Qed.

Lemma pool_status_eqb_eq : forall a b, pool_status_eqb a b = true <-> a = b.
Proof. intros [] []; cbn; split; congruence. Qed.

Lemma update_pools_rows : forall db p_pool_id f db',
  update_pools db p_pool_id f = Ok db' ->
  db' = set_pools db
          (map (fun p => if N.eqb (Pools.id p) p_pool_id then f p else p)
               (pools db))
  /\ forall p, In p (pools db') -> Pools.id p = p_pool_id ->
               pool_checks p = true.
Proof.
  intros db pid f db' H. unfold update_pools in H.
  match type of H with
  | context [forallb ?g ?l] => destruct (forallb g l) eqn:E
  end; [| discriminate].
  injection H as <-. split; [reflexivity |].
  intros p Hp Hid. cbn [pools set_pools] in Hp.
  rewrite forallb_forall in E. specialize (E p Hp).
  rewrite Hid, N.eqb_refl in E. exact E.
Qed.

(** Every row of the pool is [CANCELLED]. *)
Lemma all_cancelled_iff : forall db q,
  not_yet_cancelled db q = false
  <-> forall p, In p (pools db) -> Pools.id p = q ->
                Pools.status p = CANCELLED.
Proof.
  intros db q. unfold not_yet_cancelled. split.
  - intros H p Hp Hid.
    destruct (pool_status_eqb (Pools.status p) CANCELLED) eqn:E;
      [apply pool_status_eqb_eq; exact E |].
    exfalso.
    assert (G : existsb (fun p0 => N.eqb (Pools.id p0) q
                           && negb (pool_status_eqb (Pools.status p0)
                                                    CANCELLED))
                        (pools db) = true).
    { apply existsb_exists. exists p. split; [exact Hp |].
      rewrite Hid, N.eqb_refl, E. reflexivity. }
    congruence.
  - intro H.
    destruct (existsb _ (pools db)) eqn:E; [| reflexivity].
    exfalso. apply existsb_exists in E. destruct E as [p [Hp E]].
    apply andb_prop in E. destruct E as [E1 E2].
    apply N.eqb_eq in E1. rewrite (H p Hp E1) in E2. discriminate.
Qed.

Lemma update_pools_all_cancelled : forall db p_pool_id f db' q,
  (forall p, Pools.id (f p) = Pools.id p) ->
  (forall p, Pools.status p = CANCELLED -> Pools.status (f p) = CANCELLED) ->
  update_pools db p_pool_id f = Ok db' ->
  not_yet_cancelled db q = false -> not_yet_cancelled db' q = false.
Proof.
  intros db pid f db' q Hid Hst H Hall.
  destruct (update_pools_rows _ _ _ _ H) as [-> _].
  rewrite all_cancelled_iff in *. intros p Hp Hq.
  cbn [pools set_pools] in Hp. apply in_map_iff in Hp.
  destruct Hp as [p0 [<- Hp0]].
  destruct (N.eqb (Pools.id p0) pid).
  - apply Hst. apply (Hall p0 Hp0). rewrite <- Hid. exact Hq.
  - apply (Hall p0 Hp0 Hq).
Qed.

Lemma sync_pool_status_all_cancelled : forall db v_pool_id db' q,
  sync_pool_status db v_pool_id = Ok db' ->
  not_yet_cancelled db q = false -> not_yet_cancelled db' q = false.
Proof.
  intros db pid db' q H. unfold sync_pool_status in H.
  destruct (select_pool db pid).
  - eapply update_pools_all_cancelled; [| | exact H].
    + intro; reflexivity.
    + intros p E. cbn [pool_with_count_status Pools.status].
      rewrite E. reflexivity.
  - injection H as <-. auto.
Qed.

Lemma after_pool_members_change_all_cancelled : forall touched db db' q,
  after_pool_members_change db touched = Ok db' ->
  not_yet_cancelled db q = false -> not_yet_cancelled db' q = false.
Proof.
  induction touched as [| pm rest IH]; intros db db' q H Hall; simpl in H.
  - injection H as <-. exact Hall.
  - apply bind_ok in H. destruct H as [db1 [H1 H2]].
    apply (IH _ _ _ H2).
    apply (sync_pool_status_all_cancelled _ _ _ _ H1 Hall).
Qed.

Lemma cascade_pool_cancel_all_cancelled : forall olds db f now db' q,
  cascade_pool_cancel db olds f now = Ok db' ->
  not_yet_cancelled db q = false -> not_yet_cancelled db' q = false.
Proof.
  induction olds as [| OLD rest IH]; intros db f now db' q H Hall; simpl in H.
  - injection H as <-. exact Hall.
  - apply bind_ok in H. destruct H as [db1 [H1 H2]].
    apply (IH _ _ _ _ _ H2).
    destruct (becomes_cancelled OLD (f OLD)) eqn:Hb.
    + unfold cascade_pool_cancellation in H1. rewrite Hb in H1.
      apply (after_pool_members_change_all_cancelled _ _ _ _ H1).
      exact Hall.
    + injection H1 as <-. exact Hall.
Qed.

(** After the write every row of the pool is [CANCELLED]: a second write
    is no transition. *)
Lemma update_pool_cancelled_all_cancelled : forall db p_pool_id now db',
  update_pool_cancelled db p_pool_id now = Ok db' ->
  not_yet_cancelled db' p_pool_id = false.
Proof.
  intros db pid now db' H. unfold update_pool_cancelled in H.
  apply bind_ok in H. destruct H as [db1 [H1 H2]].
  apply (cascade_pool_cancel_all_cancelled _ _ _ _ _ _ H2).
  destruct (update_pools_rows _ _ _ _ H1) as [-> _].
  apply all_cancelled_iff. intros p Hp Hq.
  cbn [pools set_pools] in Hp. apply in_map_iff in Hp.
  destruct Hp as [p0 [<- Hp0]].
  destruct (N.eqb (Pools.id p0) pid) eqn:E.
  - reflexivity.
  - exfalso. apply N.eqb_neq in E. apply E. exact Hq.
Qed.

(** C3 (as amended): the write of [CANCELLED] on a pool leaves the pool
    [CANCELLED].  If the pool was not [CANCELLED] before, the cascade gives
    every ride of the pool that is not [COMPLETED] or [CANCELLED] the
    status [CANCELLED] and the fixed reason [Pool was cancelled] (no
    reason is passed to it) and writes the time of the write into
    [left_at] of every membership of the pool whose [left_at] is NULL;
    the other rides and memberships stay as they were.  The cascade
    writes no notification.  It fires on the transition only: on a pool
    that is [CANCELLED] already no ride and no membership changes, and so
    a second write of [CANCELLED] after the first changes nothing in
    rides, memberships and notifications. *)
Theorem cancellation_cascade :
  forall db p_pool_id now db',
    update_pool_cancelled db p_pool_id now = Ok db' ->
    (forall s, pool_status_of db p_pool_id = Some s ->
               pool_status_of db' p_pool_id = Some CANCELLED)
    /\ rides db'
       = map (fun r => if not_yet_cancelled db p_pool_id
                       then cancel_ride_of p_pool_id r else r) (rides db)
    /\ pool_members db'
       = map (fun pm => if not_yet_cancelled db p_pool_id
                        then leave_member_of p_pool_id now pm else pm)
             (pool_members db)
    /\ (forall r,
          Rides.pool_id r = Some p_pool_id ->
          Rides.status r <> RIDE_COMPLETED ->
          Rides.status r <> RIDE_CANCELLED ->
          Rides.status (cancel_ride_of p_pool_id r) = RIDE_CANCELLED
          /\ Rides.cancelled_reason (cancel_ride_of p_pool_id r)
             = Some "Pool was cancelled")
    /\ (forall r,
          Rides.pool_id r <> Some p_pool_id
          \/ Rides.status r = RIDE_COMPLETED
          \/ Rides.status r = RIDE_CANCELLED ->
          cancel_ride_of p_pool_id r = r)
    /\ (forall pm,
          PoolMembers.pool_id pm = p_pool_id ->
          PoolMembers.left_at pm = None ->
          PoolMembers.left_at (leave_member_of p_pool_id now pm) = Some now)
    /\ (forall pm,
          PoolMembers.pool_id pm <> p_pool_id
          \/ PoolMembers.left_at pm <> None ->
          leave_member_of p_pool_id now pm = pm)
    /\ notifications db' = notifications db
    /\ (not_yet_cancelled db p_pool_id = false ->
        rides db' = rides db /\ pool_members db' = pool_members db)
    /\ (forall now' db'',
          update_pool_cancelled db' p_pool_id now' = Ok db'' ->
          rides db'' = rides db'
          /\ pool_members db'' = pool_members db'
          /\ notifications db'' = notifications db').
Proof.
  intros db pid now db' H.
  destruct (update_pool_cancelled_tables _ _ _ _ H) as [R [M N]].
  split; [intros s Hs; apply (update_pool_cancelled_status _ _ _ _ _ H Hs) |].
  split; [exact R |]. split; [exact M |].
  split; [| split; [| split; [| split; [| split; [exact N | split]]]]].
  - intros r Hp Hc Hx. unfold cancel_ride_of, ride_to_cancel.
    rewrite Hp. cbn [uuid_eq lift2 is_true]. rewrite N.eqb_refl.
    destruct (Rides.status r); try contradiction; cbn; auto.
  - intros r Hr. unfold cancel_ride_of, ride_to_cancel.
    destruct Hr as [Hr | [Hr | Hr]].
    + destruct (Rides.pool_id r) as [q |]; [| reflexivity].
      cbn [uuid_eq lift2 is_true].
      destruct (N.eqb_spec q pid) as [-> | _];
        [exfalso; apply Hr; reflexivity | reflexivity].
    + rewrite Hr. cbn [ride_open]. rewrite andb_false_r. reflexivity.
    + rewrite Hr. cbn [ride_open]. rewrite andb_false_r. reflexivity.
  - intros pm Hp Hl. unfold leave_member_of, member_active.
    rewrite Hp, Hl, N.eqb_refl. reflexivity.
  - intros pm Hpm. unfold leave_member_of, member_active.
    destruct Hpm as [Hpm | Hpm].
    + apply N.eqb_neq in Hpm. rewrite Hpm. reflexivity.
    + destruct (PoolMembers.left_at pm); [| contradiction].
      cbn [is_null]. rewrite andb_false_r. reflexivity.
  - intro Hno. rewrite Hno in R, M. rewrite map_id in R, M. auto.
  - intros now' db'' H'.
    destruct (update_pool_cancelled_tables _ _ _ _ H') as [R' [M' N']].
    rewrite (update_pool_cancelled_all_cancelled _ _ _ _ H) in R', M'.
    rewrite map_id in R', M'. auto.
Qed.

(** *** The state machine on a concrete pool *)

Lemma terminal_status_is_sticky_witness :
  (pool_status_of (run grid_distance plain_format started_db quiet_events)
                  100%N = Some STARTED
   \/ pool_status_of (run grid_distance plain_format started_db quiet_events)
                     100%N = Some CANCELLED)
  /\ (STARTED = CANCELLED ->
      pool_status_of (run grid_distance plain_format started_db quiet_events)
                     100%N = Some CANCELLED)
  /\ (no_insert quiet_events ->
      pool_status_of (run grid_distance plain_format started_db quiet_events)
                     100%N = Some STARTED).
Proof.
  apply (terminal_status_is_sticky grid_distance plain_format quiet_events
           started_db 100%N STARTED); reflexivity.
Defined.

(** With a [FORMAT] that rejects the precision in the template of the
    notification, as PostgreSQL's does, the member insert whose score is
    not viable raises and is rolled back: the pool keeps [STARTED]. *)
Example rejected_insert_keeps_started :
  (exists msg,
      insert_pool_member grid_distance plain_format started_db second_member
        700000000%Z = Raise msg)
  /\ pool_status_of
       (run grid_distance plain_format started_db
            [(700000000%Z, InsertMember second_member)]) 100%N
     = Some STARTED.
Proof. split; [eexists |]; vm_compute; reflexivity. Qed.

Lemma cancellation_cascade_witness :
  exists db',
    update_pool_cancelled forming_db 100%N 700000000%Z = Ok db'
    /\ pool_status_of db' 100%N = Some CANCELLED
    /\ rides db'
       = map (fun r => if not_yet_cancelled forming_db 100%N
                       then cancel_ride_of 100%N r else r)
             (rides forming_db)
    /\ pool_members db'
       = map (fun pm => if not_yet_cancelled forming_db 100%N
                        then leave_member_of 100%N 700000000%Z pm else pm)
             (pool_members forming_db)
    /\ notifications db' = notifications forming_db
    /\ (forall now' db'',
          update_pool_cancelled db' 100%N now' = Ok db'' ->
          rides db'' = rides db'
          /\ pool_members db'' = pool_members db'
          /\ notifications db'' = notifications db').
Proof.
  eexists. split; [vm_compute; reflexivity |].
  destruct (cancellation_cascade forming_db 100%N 700000000%Z _ eq_refl)
    as [Hs [R [M [_ [_ [_ [_ [N [_ Hagain]]]]]]]]].
  split; [apply (Hs WAITING_FOR_RIDERS); reflexivity |].
  split; [exact R |]. split; [exact M |]. split; [exact N | exact Hagain].
Defined.

(** Cancelling the pool of [forming_db]: the pool is [CANCELLED], its two
    open rides are [CANCELLED] with the fixed reason of the cascade, its
    one active membership is ended, and no notification is written for
    the rider of that membership. *)
Lemma cancelled_rides_carry_a_fixed_reason :
  exists db',
    update_pool_cancelled forming_db 100%N 700000000%Z = Ok db'
    /\ pool_status_of db' 100%N = Some CANCELLED
    /\ map Rides.status (rides db') = [RIDE_CANCELLED; RIDE_CANCELLED]
    /\ map Rides.cancelled_reason (rides db')
       = [Some "Pool was cancelled"; Some "Pool was cancelled"]
    /\ map PoolMembers.left_at (pool_members forming_db) = [None]
    /\ map PoolMembers.left_at (pool_members db') = [Some 700000000%Z]
    /\ notifications db' = [].
Proof.
  eexists. split; [vm_compute; reflexivity |].
  repeat split; reflexivity.
Qed.

(** ** The join check *)

Section JoinCheck.

Variable ST_Distance : geography -> geography -> Q.
Variable FORMAT : string -> list fmt_arg -> result string.

(** C6 (as amended): [can_join_pool] does not read the pool row.  Its
    answer is the same whatever the passenger counts, the status, the
    vehicle class and the gender restriction of the pool are: it approves
    with score 100 when the pool has no eligible active member, and
    otherwise returns the verdict of the scoring engine for the anchor and
    the new request. *)
Theorem can_join_pool_ignores_the_pool :
  forall db p_pool_id p_new_ride_id p_config_name,
    (forall ps,
        can_join_pool ST_Distance FORMAT (set_pools db ps) p_pool_id
                      p_new_ride_id p_config_name
        = can_join_pool ST_Distance FORMAT db p_pool_id p_new_ride_id
                        p_config_name)
    /\ (existing_ride_id db p_pool_id p_config_name = None ->
        can_join_pool ST_Distance FORMAT db p_pool_id p_new_ride_id
                      p_config_name
        = Ok {| CanJoin.can_join := Some true;
                CanJoin.viability_score := Some 100;
                CanJoin.score_breakdown := JObject [];
                CanJoin.rejection_reason :=
                  Some "First member - auto-approved" |})
    /\ (forall anchor r,
          existing_ride_id db p_pool_id p_config_name = Some anchor ->
          can_join_pool ST_Distance FORMAT db p_pool_id p_new_ride_id
                        p_config_name = Ok r ->
          exists sc,
            calculate_pool_viability_score ST_Distance FORMAT db (Some anchor)
              (Some p_new_ride_id) p_config_name = Ok sc
            /\ CanJoin.can_join r = is_viable sc
            /\ CanJoin.viability_score r = total_score sc
            /\ CanJoin.rejection_reason r = rejection_reason sc).
Proof.
  intros db pid rid name. split; [| split].
  - intro ps. reflexivity.
  - intro H. unfold can_join_pool. rewrite H. reflexivity.
  - intros anchor r Ha H. unfold can_join_pool in H. rewrite Ha in H.
    apply bind_ok in H. destruct H as [sc [Hsc H]].
    injection H as <-. exists sc. repeat split; [exact Hsc].
Qed.

(** The anchor is an eligible active member of the pool: the first one in
    scan order. *)
Lemma existing_ride_is_eligible : forall db p_pool_id p_config_name anchor,
  existing_ride_id db p_pool_id p_config_name = Some anchor ->
  exists pm,
    In pm (pool_members db)
    /\ eligible_member (select_config db p_config_name) p_pool_id pm = true
    /\ PoolMembers.ride_id pm = anchor.
Proof.
  intros db pid name anchor H. unfold existing_ride_id in H.
  destruct (find _ (pool_members db)) as [pm |] eqn:E; [| discriminate].
  injection H as <-. apply find_some in E. exists pm.
  destruct E as [Hin He]. repeat split; assumption.
Qed.

End JoinCheck.

Lemma can_join_pool_ignores_the_pool_witness :
  can_join_pool grid_distance plain_format forming_db 200%N 8%N "default"
  = Ok {| CanJoin.can_join := Some true;
          CanJoin.viability_score := Some 100;
          CanJoin.score_breakdown := JObject [];
          CanJoin.rejection_reason := Some "First member - auto-approved" |}.
Proof.
  apply (proj1 (proj2 (can_join_pool_ignores_the_pool grid_distance
                         plain_format forming_db 200%N 8%N "default"))).
  reflexivity.
Defined.

(** A pool that is full, in a terminal status and of another vehicle class
    than the request: [can_join_pool] answers that the request can join. *)
Lemma full_started_pool_can_be_joined :
  Pools.current_passengers full_started_pool
  = Pools.max_passengers full_started_pool
  /\ terminal (Pools.status full_started_pool) = true
  /\ Pools.vehicle_type full_started_pool = CNG
  /\ map Rides.preferred_vehicle_type
         (filter (fun r => N.eqb (Rides.id r) 9%N) (rides full_db)) = [CAR]
  /\ exists r,
       can_join_pool grid_distance plain_format full_db 100%N 9%N "default"
       = Ok r
       /\ CanJoin.can_join r = Some true.
Proof.
  repeat split; try reflexivity.
  eexists. split; [vm_compute; reflexivity | reflexivity].
Qed.

(** C7: on [reordered_db] the anchor is the ride of the member that a scan
    finds first, ride 8, which joined later than the member of ride 7. *)
Lemma anchor_is_first_found_not_earliest :
  existing_ride_id reordered_db 100%N "default" = Some 8%N
  /\ earliest_eligible_ride reordered_db 100%N "default" = Some 7%N.
Proof. split; reflexivity. Qed.

(** ** Ordering, [DISTINCT ON] and [LIMIT] *)

Section Ordering.

Variable A : Type.
Variable leb : A -> A -> bool.
Variable key : A -> uuid.

Hypothesis leb_total : forall a b, leb a b = true \/ leb b a = true.
Hypothesis leb_trans : forall a b c,
  leb a b = true -> leb b c = true -> leb a c = true.
Hypothesis leb_key : forall a b, leb a b = true -> (key a <= key b)%N.

Lemma leb_refl : forall a, leb a a = true.
Proof. intro a. destruct (leb_total a a); assumption. Qed.

Lemma insert_by_In : forall x y l,
  In y (insert_by leb x l) <-> y = x \/ In y l.
Proof.
  intros x y l. induction l as [| z l IH]; simpl.
  - intuition.
  - destruct (leb x z); simpl; [intuition |].
    rewrite IH. intuition.
Qed.

Lemma ORDER_BY_In : forall y l, In y (ORDER_BY leb l) <-> In y l.
Proof.
  intros y l. induction l as [| x l IH]; simpl.
  - reflexivity.
  - rewrite insert_by_In, IH. intuition.
Qed.

Lemma insert_by_sorted : forall x l,
  StronglySorted (fun a b => leb a b = true) l ->
  StronglySorted (fun a b => leb a b = true) (insert_by leb x l).
Proof.
  intros x l H. induction H as [| z l Hs IH Hz]; simpl.
  - constructor; constructor.
  - destruct (leb x z) eqn:E.
    + constructor; [constructor; assumption |].
      constructor; [exact E |].
      rewrite Forall_forall in *. intros w Hw.
      apply (leb_trans x z w E (Hz w Hw)).
    + constructor; [exact IH |].
      rewrite Forall_forall in *. intros w Hw.
      apply insert_by_In in Hw. destruct Hw as [-> | Hw].
      * destruct (leb_total x z) as [F | F]; [congruence | exact F].
      * apply Hz, Hw.
Qed.

Lemma ORDER_BY_sorted : forall l,
  StronglySorted (fun a b => leb a b = true) (ORDER_BY leb l).
Proof.
  induction l as [| x l IH]; simpl.
  - constructor.
  - apply insert_by_sorted, IH.
Qed.

(** What [DISTINCT ON] keeps of an ordered list: rows of the list, with
    increasing keys, each the first row of its key. *)
Lemma distinct_on_after_first : forall l prev,
  StronglySorted (fun a b => leb a b = true) l ->
  (forall z, In z l -> (prev <= key z)%N) ->
  forall x,
    In x (distinct_on_after key prev l) ->
    In x l
    /\ (prev < key x)%N
    /\ forall y, In y l -> key y = key x -> leb x y = true.
Proof.
  induction l as [| z rest IH]; intros prev Hs Hprev x Hx; simpl in Hx.
  - contradiction.
  - inversion Hs as [| ? ? Hrest Hz]; subst.
    rewrite Forall_forall in Hz.
    destruct (N.eqb (key z) prev) eqn:E.
    + apply N.eqb_eq in E.
      destruct (IH prev Hrest (fun w Hw => Hprev w (or_intror Hw)) x Hx)
        as [Hin [Hlt Hfirst]].
      split; [right; exact Hin |]. split; [exact Hlt |].
      intros y [-> | Hy] Hk; [lia | apply Hfirst; assumption].
    + apply N.eqb_neq in E.
      assert (Hpz : (prev < key z)%N).
      { pose proof (Hprev z (or_introl eq_refl)). lia. }
      destruct Hx as [-> | Hx].
      * split; [left; reflexivity |]. split; [exact Hpz |].
        intros y [-> | Hy] _; [apply leb_refl | apply Hz, Hy].
      * destruct (IH (key z) Hrest (fun w Hw => leb_key z w (Hz w Hw)) x Hx)
          as [Hin [Hlt Hfirst]].
        split; [right; exact Hin |]. split; [lia |].
        intros y [-> | Hy] Hk; [lia | apply Hfirst; assumption].
Qed.

Lemma distinct_on_after_keys : forall l prev,
  StronglySorted (fun a b => leb a b = true) l ->
  (forall z, In z l -> (prev <= key z)%N) ->
  StronglySorted N.lt (prev :: map key (distinct_on_after key prev l)).
Proof.
  induction l as [| z rest IH]; intros prev Hs Hprev; simpl.
  - constructor; constructor.
  - inversion Hs as [| ? ? Hrest Hz]; subst.
    rewrite Forall_forall in Hz.
    destruct (N.eqb (key z) prev) eqn:E.
    + apply IH; [exact Hrest |]. intros w Hw. apply Hprev. right. exact Hw.
    + apply N.eqb_neq in E.
      assert (Hpz : (prev < key z)%N).
      { pose proof (Hprev z (or_introl eq_refl)). lia. }
      pose proof (IH (key z) Hrest (fun w Hw => leb_key z w (Hz w Hw))) as H.
      simpl. constructor; [exact H |].
      inversion H as [| ? ? _ Hall]; subst.
      constructor; [exact Hpz |].
      rewrite Forall_forall in *. intros k Hk.
      pose proof (Hall k Hk). lia.
Qed.

Lemma StronglySorted_lt_NoDup : forall l : list N,
  StronglySorted N.lt l -> NoDup l.
Proof.
  intros l H. induction H as [| k l Hs IH Hk].
  - constructor.
  - constructor; [| exact IH].
    intro Hin. rewrite Forall_forall in Hk. pose proof (Hk k Hin). lia.
Qed.

Lemma DISTINCT_ON_In : forall l x, In x (DISTINCT_ON key l) -> In x l.
Proof.
  assert (H : forall l prev x, In x (distinct_on_after key prev l) -> In x l).
  { induction l as [| z rest IH]; intros prev x Hx; simpl in Hx.
    - contradiction.
    - destruct (N.eqb (key z) prev).
      + right. apply (IH prev x Hx).
      + destruct Hx as [-> | Hx]; [left; reflexivity |].
        right. apply (IH (key z) x Hx). }
  intros [| z rest] x Hx; simpl in Hx; [contradiction |].
  destruct Hx as [-> | Hx]; [left; reflexivity | right; apply (H _ _ _ Hx)].
Qed.

Lemma DISTINCT_ON_NoDup : forall l,
  StronglySorted (fun a b => leb a b = true) l ->
  NoDup (map key (DISTINCT_ON key l)).
Proof.
  intros [| z rest] Hs; simpl; [constructor |].
  inversion Hs as [| ? ? Hrest Hz]; subst. rewrite Forall_forall in Hz.
  apply StronglySorted_lt_NoDup.
  apply (distinct_on_after_keys rest (key z) Hrest).
  intros w Hw. apply leb_key, Hz, Hw.
Qed.

Lemma DISTINCT_ON_first : forall l,
  StronglySorted (fun a b => leb a b = true) l ->
  forall x y,
    In x (DISTINCT_ON key l) -> In y l -> key y = key x -> leb x y = true.
Proof.
  intros [| z rest] Hs x y Hx Hy Hk; simpl in Hx; [contradiction |].
  inversion Hs as [| ? ? Hrest Hz]; subst. rewrite Forall_forall in Hz.
  destruct Hx as [-> | Hx].
  - destruct Hy as [-> | Hy]; [apply leb_refl | apply Hz, Hy].
  - destruct (distinct_on_after_first rest (key z) Hrest
                (fun w Hw => leb_key z w (Hz w Hw)) x Hx)
      as [_ [Hlt Hfirst]].
    destruct Hy as [-> | Hy]; [lia | apply Hfirst; assumption].
Qed.

(** Every key of the list survives [DISTINCT ON]. *)
Lemma DISTINCT_ON_complete : forall l y,
  In y l -> exists x, In x (DISTINCT_ON key l) /\ key x = key y.
Proof.
  assert (H : forall l prev y,
             In y l ->
             key y = prev
             \/ exists x, In x (distinct_on_after key prev l) /\ key x = key y).
  { induction l as [| z rest IH]; intros prev y Hy; simpl.
    - contradiction.
    - destruct (N.eqb (key z) prev) eqn:E.
      + apply N.eqb_eq in E. destruct Hy as [-> | Hy]; [left; exact E |].
        apply (IH prev y Hy).
      + destruct Hy as [-> | Hy].
        * right. exists y. split; [left; reflexivity | reflexivity].
        * destruct (IH (key z) y Hy) as [Hk | [x [Hx Hk]]].
          -- right. exists z. split; [left; reflexivity | congruence].
          -- right. exists x. split; [right; exact Hx | exact Hk]. }
  intros [| z rest] y Hy; simpl; [contradiction |].
  destruct Hy as [-> | Hy].
  - exists y. split; [left; reflexivity | reflexivity].
  - destruct (H rest (key z) y Hy) as [Hk | [x [Hx Hk]]].
    + exists z. split; [left; reflexivity | congruence].
    + exists x. split; [right; exact Hx | exact Hk].
Qed.

End Ordering.

Lemma firstn_In : forall (B : Type) (n : nat) (l : list B) (x : B),
  In x (firstn n l) -> In x l.
Proof.
  intros B n. induction n as [| n IH]; intros l x H; simpl in H.
  - contradiction.
  - destruct l as [| y l]; [contradiction |].
    destruct H as [-> | H]; [left; reflexivity | right; apply IH, H].
Qed.

Lemma NoDup_firstn : forall (B : Type) (n : nat) (l : list B),
  NoDup l -> NoDup (firstn n l).
Proof.
  intros B n. induction n as [| n IH]; intros l H; simpl.
  - constructor.
  - destruct l as [| x l]; [constructor |].
    inversion H as [| ? ? Hx Hl]; subst.
    constructor; [| apply IH, Hl].
    intro Hin. apply Hx. apply (firstn_In _ n). exact Hin.
Qed.

Lemma LIMIT_ok : forall (B : Type) (p_limit : option Z) (l rows : list B),
  LIMIT p_limit l = Ok rows ->
  (forall x, In x rows -> In x l)
  /\ (forall n, p_limit = Some n -> (Z.of_nat (List.length rows) <= n)%Z)
  /\ (p_limit = None -> rows = l)
  /\ exists k, rows = firstn k l.
Proof.
  intros B [n |] l rows H; simpl in H.
  - destruct (n <? 0)%Z eqn:E; [discriminate |]. injection H as <-.
    apply Z.ltb_ge in E. split; [| split; [| split]].
    + intros x Hx. apply (firstn_In _ (Z.to_nat n)). exact Hx.
    + intros m Hm. injection Hm as <-.
      pose proof (firstn_le_length (Z.to_nat n) l) as Hlen.
      rewrite length_firstn. lia.
    + discriminate.
    + exists (Z.to_nat n). reflexivity.
  - injection H as <-. split; [| split; [| split]].
    + auto.
    + discriminate.
    + reflexivity.
    + exists (List.length l). symmetry. apply firstn_all.
Qed.

(** ** Nearest available drivers *)

Lemma num_leb_total : forall a b, num_leb a b = true \/ num_leb b a = true.
Proof.
  intros [a |] [b |]; simpl; auto.
  destruct (Qle_bool a b) eqn:E; [left; reflexivity |].
  right. apply Qle_bool_iff. apply Qle_bool_false_iff in E.
  apply Qlt_le_weak, E.
Qed.

Lemma num_leb_trans : forall a b c,
  num_leb a b = true -> num_leb b c = true -> num_leb a c = true.
Proof.
  intros [a |] [b |] [c |]; simpl; try congruence.
  intros H1 H2. apply Qle_bool_iff in H1, H2. apply Qle_bool_iff.
  apply (Qle_trans _ _ _ H1 H2).
Qed.

Lemma nearest_leb_total : forall a b,
  nearest_leb a b = true \/ nearest_leb b a = true.
Proof.
  intros a b. unfold nearest_leb.
  destruct (N.lt_trichotomy (Nearest.driver_id a) (Nearest.driver_id b))
    as [H | [H | H]].
  - left. apply N.ltb_lt in H. rewrite H. reflexivity.
  - rewrite H, N.eqb_refl, N.ltb_irrefl. simpl. apply num_leb_total.
  - right. apply N.ltb_lt in H. rewrite H. reflexivity.
Qed.

Lemma nearest_leb_cases : forall a b,
  nearest_leb a b = true <->
  (Nearest.driver_id a < Nearest.driver_id b)%N
  \/ (Nearest.driver_id a = Nearest.driver_id b
      /\ num_leb (Nearest.distance_km a) (Nearest.distance_km b) = true).
Proof.
  intros a b. unfold nearest_leb.
  rewrite orb_true_iff, andb_true_iff, N.ltb_lt, N.eqb_eq. reflexivity.
Qed.

Lemma nearest_leb_trans : forall a b c,
  nearest_leb a b = true -> nearest_leb b c = true -> nearest_leb a c = true.
Proof.
  intros a b c H1 H2. rewrite nearest_leb_cases in *.
  destruct H1 as [H1 | [H1 L1]]; destruct H2 as [H2 | [H2 L2]].
  - left. lia.
  - left. lia.
  - left. lia.
  - right. split; [congruence | apply (num_leb_trans _ _ _ L1 L2)].
Qed.

Lemma nearest_leb_key : forall a b,
  nearest_leb a b = true -> (Nearest.driver_id a <= Nearest.driver_id b)%N.
Proof.
  intros a b H. rewrite nearest_leb_cases in H. destruct H as [H | [H _]]; lia.
Qed.

Lemma samples_joined_In : forall db vl veh u,
  In (vl, veh, u) (samples_joined db) <->
  In vl (vehicle_locations db)
  /\ In veh (vehicles db)
  /\ In u (users db)
  /\ Vehicles.id veh = VehicleLocations.vehicle_id vl
  /\ Users.id u = VehicleLocations.driver_id vl.
Proof.
  intros db vl veh u. unfold samples_joined.
  rewrite in_flat_map. split.
  - intros [vl' [Hvl H]]. rewrite in_flat_map in H.
    destruct H as [veh' [Hveh H]]. rewrite in_map_iff in H.
    destruct H as [u' [E Hu]]. injection E as -> -> ->.
    apply filter_In in Hveh, Hu.
    destruct Hveh as [Hveh Ev]. destruct Hu as [Hu Eu].
    apply N.eqb_eq in Ev, Eu. auto.
  - intros [Hvl [Hveh [Hu [Ev Eu]]]]. exists vl. split; [exact Hvl |].
    rewrite in_flat_map. exists veh. split.
    + apply filter_In. split; [exact Hveh | apply N.eqb_eq, Ev].
    + rewrite in_map_iff. exists u. split; [reflexivity |].
      apply filter_In. split; [exact Hu | apply N.eqb_eq, Eu].
Qed.

Section NearestDrivers.

Variable ST_Distance : geography -> geography -> Q.

Lemma tv_and_true : forall a b,
  is_true (tv_and a b) = true <-> a = Some true /\ b = Some true.
Proof.
  intros [[|] |] [[|] |]; simpl; split; intro H;
    try discriminate; try (destruct H; discriminate); auto.
Qed.

Lemma tv_and_some_true : forall a b,
  tv_and a b = Some true <-> a = Some true /\ b = Some true.
Proof.
  intros [[|] |] [[|] |]; simpl; split; intro H;
    try discriminate; try (destruct H; discriminate); auto.
Qed.

(** The [WHERE] clause keeps exactly the qualifying samples. *)
Lemma nearest_where_spec : forall pickup p_vehicle_type p_max_distance_km j,
  is_true (nearest_where ST_Distance pickup p_vehicle_type p_max_distance_km j)
  = true
  <-> qualifying_sample ST_Distance pickup p_vehicle_type p_max_distance_km j.
Proof.
  intros pickup vt maxd [[vl veh] u]. unfold nearest_where, qualifying_sample.
  rewrite tv_and_true, !tv_and_some_true.
  assert (Hnull : forall (B : Type) (x : option B),
             Some (is_null x) = Some true <-> x = None).
  { intros B [b |]; simpl; split; intro H; congruence. }
  rewrite !Hnull.
  assert (Hclass :
            tv_or (Some (is_null vt))
                  (lift2 vehicle_type_eqb (Some (Vehicles.vehicle_type veh)) vt)
            = Some true
            <-> vt = None \/ vt = Some (Vehicles.vehicle_type veh)).
  { destruct vt as [[|] |]; destruct (Vehicles.vehicle_type veh); simpl;
      split; intro H; auto; try discriminate;
      destruct H as [H | H]; discriminate. }
  rewrite Hclass.
  assert (Hwithin :
            ST_DWithin ST_Distance (Some pickup)
              (VehicleLocations.current_location vl)
              (num_mul maxd (Some 1000)) = Some true
            <-> exists loc max_km,
                VehicleLocations.current_location vl = Some loc
                /\ maxd = Some max_km
                /\ ST_Distance pickup loc <= max_km * 1000).
  { unfold ST_DWithin, distance.
    destruct (VehicleLocations.current_location vl) as [loc |];
      destruct maxd as [m |]; simpl.
    - split.
      + intro H. exists loc, m. repeat split. apply Qle_bool_iff. congruence.
      + intros [l [k [H1 [H2 H3]]]]. injection H1 as <-. injection H2 as <-.
        apply f_equal, Qle_bool_iff, H3.
    - split; [discriminate | intros [l [k [_ [H2 _]]]]; discriminate].
    - split; [discriminate | intros [l [k [H1 _]]]; discriminate].
    - split; [discriminate | intros [l [k [H1 _]]]; discriminate]. }
  rewrite Hwithin. tauto.
Qed.

(** Every row returned is built from a qualifying sample. *)
Lemma nearest_rows_qualify :
  forall db p_pickup_lat p_pickup_lng p_vehicle_type p_max_distance_km
         p_limit rows r,
    find_nearest_available_drivers ST_Distance db p_pickup_lat p_pickup_lng
      p_vehicle_type p_max_distance_km p_limit = Ok rows ->
    In r rows ->
    exists j,
      In j (samples_joined db)
      /\ qualifying_sample ST_Distance (MakePoint p_pickup_lng p_pickup_lat)
           p_vehicle_type p_max_distance_km j
      /\ r = nearest_row ST_Distance (MakePoint p_pickup_lng p_pickup_lat) j.
Proof.
  intros db lat lng vt maxd limit rows r H Hr.
  unfold find_nearest_available_drivers in H. cbv zeta in H.
  destruct (LIMIT_ok _ _ _ _ H) as [Hsub _].
  apply Hsub, DISTINCT_ON_In, ORDER_BY_In, in_map_iff in Hr.
  destruct Hr as [j [E Hj]]. apply filter_In in Hj. destruct Hj as [Hj Hq].
  exists j. rewrite <- nearest_where_spec. auto.
Qed.

(** C8 (as amended): the rows returned are built from qualifying samples
    only (active and available sample, active undeleted vehicle, undeleted
    driver, class and distance filters); no two rows are of the same
    driver; the row of a driver is built from the nearest of that driver's
    qualifying samples; at most [p_limit] rows are returned, and without a
    limit every driver with a qualifying sample has a row. *)
Theorem nearest_drivers_one_row_per_driver :
  forall db p_pickup_lat p_pickup_lng p_vehicle_type p_max_distance_km
         p_limit rows,
    find_nearest_available_drivers ST_Distance db p_pickup_lat p_pickup_lng
      p_vehicle_type p_max_distance_km p_limit = Ok rows ->
    (forall r, In r rows ->
       exists j,
         In j (samples_joined db)
         /\ qualifying_sample ST_Distance
              (MakePoint p_pickup_lng p_pickup_lat) p_vehicle_type
              p_max_distance_km j
         /\ r = nearest_row ST_Distance (MakePoint p_pickup_lng p_pickup_lat) j)
    /\ NoDup (map Nearest.driver_id rows)
    /\ (forall r j,
          In r rows ->
          In j (samples_joined db) ->
          qualifying_sample ST_Distance (MakePoint p_pickup_lng p_pickup_lat)
            p_vehicle_type p_max_distance_km j ->
          Nearest.driver_id
            (nearest_row ST_Distance (MakePoint p_pickup_lng p_pickup_lat) j)
          = Nearest.driver_id r ->
          num_leb (Nearest.distance_km r)
                  (Nearest.distance_km
                     (nearest_row ST_Distance
                        (MakePoint p_pickup_lng p_pickup_lat) j)) = true)
    /\ (forall n, p_limit = Some n -> (Z.of_nat (List.length rows) <= n)%Z)
    /\ (p_limit = None ->
        forall j,
          In j (samples_joined db) ->
          qualifying_sample ST_Distance (MakePoint p_pickup_lng p_pickup_lat)
            p_vehicle_type p_max_distance_km j ->
          exists r,
            In r rows
            /\ Nearest.driver_id r
               = Nearest.driver_id
                   (nearest_row ST_Distance
                      (MakePoint p_pickup_lng p_pickup_lat) j)).
Proof.
  intros db lat lng vt maxd limit rows H.
  unfold find_nearest_available_drivers in H. cbv zeta in H.
  set (pickup := MakePoint lng lat) in *.
  set (kept := filter (fun j => is_true (nearest_where ST_Distance pickup vt
                                                      maxd j))
                      (samples_joined db)) in *.
  set (ordered := ORDER_BY nearest_leb (map (nearest_row ST_Distance pickup) kept))
    in *.
  assert (Hsorted : StronglySorted (fun a b => nearest_leb a b = true) ordered).
  { apply ORDER_BY_sorted;
      [apply nearest_leb_total | apply nearest_leb_trans]. }
  assert (Hin : forall r, In r ordered <->
                  exists j, In j (samples_joined db)
                            /\ qualifying_sample ST_Distance pickup vt maxd j
                            /\ r = nearest_row ST_Distance pickup j).
  { intro r. unfold ordered. rewrite ORDER_BY_In, in_map_iff. unfold kept.
    split.
    - intros [j [E Hj]]. apply filter_In in Hj. destruct Hj as [Hj Hq].
      exists j. rewrite <- nearest_where_spec. auto.
    - intros [j [Hj [Hq E]]]. exists j. split; [auto |].
      apply filter_In. rewrite nearest_where_spec. auto. }
  destruct (LIMIT_ok _ _ _ _ H) as [Hsub [Hlen [Hall [k Hk]]]].
  split; [| split; [| split; [| split]]].
  - intros r Hr. apply Hin.
    apply (DISTINCT_ON_In _ Nearest.driver_id). apply Hsub, Hr.
  - rewrite Hk, <- firstn_map. apply NoDup_firstn.
    eapply DISTINCT_ON_NoDup; [exact nearest_leb_key | exact Hsorted].
  - intros r j Hr Hj Hq Hd.
    assert (Hleb : nearest_leb r (nearest_row ST_Distance pickup j) = true).
    { eapply (DISTINCT_ON_first _ nearest_leb Nearest.driver_id);
        first [ exact nearest_leb_total
              | exact nearest_leb_key
              | exact Hsorted
              | exact Hd
              | apply Hsub, Hr
              | apply Hin; exists j; auto ]. }
    apply nearest_leb_cases in Hleb. destruct Hleb as [Hlt | [_ Hle]].
    + rewrite Hd in Hlt. lia.
    + exact Hle.
  - exact Hlen.
  - intros Hnone j Hj Hq. rewrite (Hall Hnone).
    destruct (DISTINCT_ON_complete _ Nearest.driver_id ordered
                (nearest_row ST_Distance pickup j)) as [r [Hr Hd]].
    + apply Hin. exists j. auto.
    + exists r. auto.
Qed.

End NearestDrivers.

Lemma nearest_drivers_one_row_per_driver_witness :
  exists rows,
    find_nearest_available_drivers grid_distance fleet_db 0 0 None (Some 10)
      (Some 1%Z) = Ok rows
    /\ NoDup (map Nearest.driver_id rows)
    /\ (forall n, Some 1%Z = Some n -> (Z.of_nat (List.length rows) <= n)%Z).
Proof.
  eexists. split; [vm_compute; reflexivity |].
  destruct (nearest_drivers_one_row_per_driver grid_distance fleet_db 0 0 None
              (Some 10) (Some 1%Z) _ eq_refl) as [_ [Hnodup [_ [Hlen _]]]].
  split; [exact Hnodup | exact Hlen].
Defined.

(** On [fleet_db] the three vehicles all qualify.  The query returns one
    row for driver 1, built from the nearer vehicle 11 although vehicle 10
    has the more recent sample, and no row for vehicle 10; its rows are in
    the order of the driver ids, 3 km before 1 km; and with a limit of one
    it returns the driver at 3 km and drops the driver at 1 km. *)
Lemma nearest_drivers_per_driver_in_id_order :
  exists r1 r2,
    find_nearest_available_drivers grid_distance fleet_db 0 0 None (Some 10)
      (Some 10%Z) = Ok [r1; r2]
    /\ find_nearest_available_drivers grid_distance fleet_db 0 0 None
         (Some 10) (Some 1%Z) = Ok [r1]
    /\ Forall (qualifying_sample grid_distance (MakePoint 0 0) None (Some 10))
              (samples_joined fleet_db)
    /\ map (fun j => VehicleLocations.vehicle_id (fst (fst j)))
           (samples_joined fleet_db) = [20%N; 10%N; 11%N]
    /\ map Nearest.vehicle_id [r1; r2] = [11%N; 20%N]
    /\ Nearest.location_updated_at r1 = Some 200%Z
    /\ Nearest.distance_km r1 = Some (3000 # 1000)
    /\ Nearest.distance_km r2 = Some (1000 # 1000)
    /\ num_leb (Nearest.distance_km r1) (Nearest.distance_km r2) = false.
Proof.
  eexists. eexists.
  split; [vm_compute; reflexivity |].
  split; [vm_compute; reflexivity |].
  split.
  - repeat constructor; try discriminate;
      eexists; eexists; (split; [reflexivity |]);
        (split; [reflexivity | vm_compute; discriminate]).
  - repeat split; reflexivity.
Qed.

(** ** Location ingestion *)

Lemma to_decimal_opt_ok : forall precision scale x y,
  to_decimal_opt precision scale x = Ok y -> is_null y = is_null x.
Proof.
  intros precision scale [x |] y H; simpl in H.
  - apply bind_ok in H. destruct H as [r [_ H]]. injection H as <-. reflexivity.
  - injection H as <-. reflexivity.
Qed.

(** The shape of the table after a successful call. *)
Lemma update_driver_location_table :
  forall db p_driver_id p_vehicle_id p_current_lat p_current_lng p_heading
         p_speed_kmh p_accuracy_meters p_pool_id v_location_id now db' id,
    update_driver_location db p_driver_id p_vehicle_id p_current_lat
      p_current_lng p_heading p_speed_kmh p_accuracy_meters p_pool_id
      v_location_id now = Ok (db', id) ->
    exists NEW,
      vehicle_locations db'
      = (map (fun vl => if active_sample_of p_vehicle_id vl
                        then location_deactivated vl else vl)
             (vehicle_locations db) ++ [NEW])%list
      /\ users db' = users db
      /\ vehicles db' = vehicles db
      /\ id = v_location_id
      /\ VehicleLocations.id NEW = v_location_id
      /\ VehicleLocations.vehicle_id NEW = p_vehicle_id
      /\ VehicleLocations.driver_id NEW = p_driver_id
      /\ VehicleLocations.pool_id NEW = p_pool_id
      /\ VehicleLocations.is_active NEW = Some true
      /\ VehicleLocations.is_available NEW = Some (is_null p_pool_id)
      /\ VehicleLocations.recorded_at NEW = Some now.
Proof.
  intros db drv veh lat lng hd sp acc pool lid now db' id H.
  unfold update_driver_location in H.
  destruct (is_true (tv_not _)); [discriminate |].
  cbv zeta in H.
  apply bind_ok in H. destruct H as [v_lat [_ H]].
  apply bind_ok in H. destruct H as [v_lng [_ H]].
  apply bind_ok in H. destruct H as [v_heading [_ H]].
  apply bind_ok in H. destruct H as [v_speed [_ H]].
  destruct (vehicle_location_insertable _ _); [| discriminate].
  injection H as <- <-.
  eexists. cbn [vehicle_locations users vehicles set_vehicle_locations].
  split; [reflexivity |]. repeat split; reflexivity.
Qed.

Lemma deactivated_not_active : forall p_vehicle_id vl,
  active_sample_of p_vehicle_id
    (if active_sample_of p_vehicle_id vl then location_deactivated vl else vl)
  = false.
Proof.
  intros v vl. destruct (active_sample_of v vl) eqn:E; [| exact E].
  unfold active_sample_of.
  cbn [location_deactivated VehicleLocations.is_active is_true].
  apply andb_false_r.
Qed.

Lemma filter_none : forall (B : Type) (f : B -> bool) (l : list B),
  (forall x, In x l -> f x = false) -> filter f l = [].
Proof.
  intros B f l H. induction l as [| x l IH]; simpl; [reflexivity |].
  rewrite (H x (or_introl eq_refl)). apply IH.
  intros y Hy. apply H. right. exact Hy.
Qed.

(** What a successful [update_driver_location] has checked and stored. *)
Lemma update_driver_location_inversion :
  forall db p_driver_id p_vehicle_id p_current_lat p_current_lng p_heading
         p_speed_kmh p_accuracy_meters p_pool_id v_location_id now db' id,
    update_driver_location db p_driver_id p_vehicle_id p_current_lat
      p_current_lng p_heading p_speed_kmh p_accuracy_meters p_pool_id
      v_location_id now = Ok (db', id) ->
    exists v_lat v_lng v_heading v_speed NEW,
      to_decimal 10 8 p_current_lat = Ok v_lat
      /\ to_decimal 11 8 p_current_lng = Ok v_lng
      /\ to_decimal_opt 5 2 p_heading = Ok v_heading
      /\ to_decimal_opt 5 2 p_speed_kmh = Ok v_speed
      /\ NEW = {| VehicleLocations.id := v_location_id;
                  VehicleLocations.vehicle_id := p_vehicle_id;
                  VehicleLocations.driver_id := p_driver_id;
                  VehicleLocations.pool_id := p_pool_id;
                  VehicleLocations.current_lat := v_lat;
                  VehicleLocations.current_lng := v_lng;
                  VehicleLocations.current_location :=
                    Some (MakePoint v_lng v_lat);
                  VehicleLocations.heading := v_heading;
                  VehicleLocations.speed_kmh := v_speed;
                  VehicleLocations.accuracy_meters := p_accuracy_meters;
                  VehicleLocations.is_active := Some true;
                  VehicleLocations.is_available := Some (is_null p_pool_id);
                  VehicleLocations.recorded_at := Some now |}
      /\ is_true (tv_not (match find (fun u => N.eqb (Users.id u) p_driver_id)
                                     (users db) with
                          | Some u => Users.is_driver u
                          | None => None
                          end)) = false
      /\ vehicle_location_insertable
           (set_vehicle_locations db
              (map (fun vl => if active_sample_of p_vehicle_id vl
                              then location_deactivated vl else vl)
                   (vehicle_locations db))) NEW = true
      /\ db' = set_vehicle_locations db
                 (map (fun vl => if active_sample_of p_vehicle_id vl
                                 then location_deactivated vl else vl)
                      (vehicle_locations db) ++ [NEW]).
Proof.
  intros db drv veh lat lng hd sp acc pool lid now db' id H.
  unfold update_driver_location in H.
  destruct (is_true (tv_not _)) eqn:Hdrv; [discriminate |].
  cbv zeta in H.
  apply bind_ok in H. destruct H as [v_lat [E1 H]].
  apply bind_ok in H. destruct H as [v_lng [E2 H]].
  apply bind_ok in H. destruct H as [v_heading [E3 H]].
  apply bind_ok in H. destruct H as [v_speed [E4 H]].
  destruct (vehicle_location_insertable _ _) eqn:Hins; [| discriminate].
  injection H as <- <-.
  exists v_lat, v_lng, v_heading, v_speed. eexists.
  repeat (split; [first [eassumption | reflexivity] |]).
  reflexivity.
Qed.

Section Ingestion.

Variable ST_Distance : geography -> geography -> Q.


End Ingestion.


(** ** Capacity on the write path *)

Section Capacity.

Variable ST_Distance : geography -> geography -> Q.
Variable FORMAT : string -> list fmt_arg -> result string.

(** The capacity of a pool is guarded by the [pool_capacity] check when
    [sync_pool_status] writes the new count: an insert that would bring the
    count of the pool above [max_passengers] raises, before any scoring. *)
Lemma insert_beyond_capacity_raises : forall db NEW now p0,
  select_pool db (PoolMembers.pool_id NEW) = Some p0 ->
  (Pools.max_passengers p0
   < count_members (set_pool_members db (pool_members db ++ [NEW]))
       (PoolMembers.pool_id NEW)
       (pool_front_route_only db (PoolMembers.pool_id NEW)))%Z ->
  exists msg,
    insert_pool_member ST_Distance FORMAT db NEW now = Raise msg.
Proof.
  intros db NEW now p0 Hp Hfull. unfold insert_pool_member.
  destruct (pool_members_insertable db NEW); [| eexists; reflexivity].
  unfold sync_pool_status.
  change (select_pool (set_pool_members db (pool_members db ++ [NEW]))
                      (PoolMembers.pool_id NEW))
    with (select_pool db (PoolMembers.pool_id NEW)).
  rewrite Hp.
  change (pool_front_route_only
            (set_pool_members db (pool_members db ++ [NEW]))
            (PoolMembers.pool_id NEW))
    with (pool_front_route_only db (PoolMembers.pool_id NEW)).
  unfold update_pools.
  match goal with
  | |- context [forallb ?f ?l] => destruct (forallb f l) eqn:E
  end; [| eexists; reflexivity].
  exfalso. rewrite forallb_forall in E.
  unfold select_pool in Hp. apply find_some in Hp. destruct Hp as [Hin Hid].
  cbn [pools set_pool_members set_pools] in E.
  specialize (E _ (in_map _ _ _ Hin)). cbv beta in E. rewrite Hid in E.
  cbn [pool_with_count_status Pools.id] in E. rewrite Hid in E.
  unfold pool_checks in E.
  cbn [pool_with_count_status Pools.current_passengers Pools.max_passengers
       negb orb] in E.
  apply andb_prop in E. destruct E as [E _].
  apply andb_prop in E. destruct E as [_ E].
  apply Z.leb_le in E. lia.
Qed.

End Capacity.

(** * Further properties of the embedded functions *)

(** ** The five sub-scores *)

Lemma ratio_bounds : forall x y m,
  0 <= x -> x <= y -> y <= m -> 0 < m ->
  0 <= x / m /\ x / m <= y / m /\ y / m <= 1.
Proof.
  intros x y m Hx Hxy Hym Hm.
  assert (Hinv : 0 <= / m) by (apply Qlt_le_weak, Qinv_lt_0_compat; exact Hm).
  repeat split.
  - apply Qle_shift_div_l; [exact Hm | lra].
  - unfold Qdiv. apply Qmult_le_compat_r; assumption.
  - apply Qle_shift_div_r; [exact Hm | lra].
Qed.

Lemma positive_not_zero : forall m, 0 < m -> ~ m == 0.
Proof. intros m Hm E. rewrite E in Hm. apply (Qlt_irrefl 0 Hm). Qed.

Lemma is_true_num_gt : forall x m,
  is_true (num_gt (Some x) (Some m)) = true <-> m < x.
Proof.
  intros x m. rewrite <- Qlt_bool_iff. cbn.
  destruct (Qlt_bool m x); split; congruence.
Qed.

Lemma is_true_num_lt : forall x m,
  is_true (num_lt (Some x) (Some m)) = true <-> x < m.
Proof.
  intros x m. rewrite <- Qlt_bool_iff. cbn.
  destruct (Qlt_bool x m); split; congruence.
Qed.

Lemma is_true_false : forall b : tv, is_true b = false <-> b <> Some true.
Proof. intros [[|] |]; cbn; split; congruence. Qed.

(** X1: within the threshold the destination score is the linear function
    [weight * (1 - distance / max)] of the distance: it falls at the
    constant rate [weight / max] from the full weight at distance 0 to 0
    at the threshold, so for a weight that is not negative it lies between
    0 and the weight and a nearer destination never scores less; beyond
    the threshold the score is 0. *)
Theorem destination_score_falls_with_distance :
  (forall x y m w,
      0 <= x -> x <= y -> y <= m -> 0 < m -> 0 <= w ->
      exists sx sy,
        calculate_destination_proximity_score (Some x) (Some m) (Some w)
        = Ok (Some sx)
        /\ calculate_destination_proximity_score (Some y) (Some m) (Some w)
           = Ok (Some sy)
        /\ sx == w * (1 - x / m)
        /\ sy == w * (1 - y / m)
        /\ sx - sy == w / m * (y - x)
        /\ 0 <= sy /\ sy <= sx /\ sx <= w
        /\ (x == 0 -> sx == w)
        /\ (y == m -> sy == 0))
  /\ (forall x m w,
        m < x ->
        calculate_destination_proximity_score (Some x) (Some m) w
        = Ok (Some 0)).
Proof.
  split.
  - intros x y m w Hx Hxy Hym Hm Hw.
    destruct (ratio_bounds x y m Hx Hxy Hym Hm) as [H0 [H1 H2]].
    pose proof (positive_not_zero m Hm) as Hnz.
    exists (w * (1 - x / m)), (w * (1 - y / m)).
    rewrite !destination_score_within by (assumption || lra).
    split; [reflexivity |]. split; [reflexivity |].
    split; [reflexivity |]. split; [reflexivity |].
    split; [field; exact Hnz |].
    repeat split; try nra.
    + intro E. rewrite E. field. exact Hnz.
    + intro E. rewrite E. field. exact Hnz.
  - intros x m w Hlt. unfold calculate_destination_proximity_score.
    replace (is_true (num_gt (Some x) (Some m))) with true; [reflexivity |].
    symmetry. apply is_true_num_gt. exact Hlt.
Qed.

Lemma destination_score_falls_with_distance_witness :
  exists sx sy,
    calculate_destination_proximity_score (Some 0) (Some 2) (Some 30)
    = Ok (Some sx)
    /\ calculate_destination_proximity_score (Some 1) (Some 2) (Some 30)
       = Ok (Some sy)
    /\ sx == 30 * (1 - 0 / 2)
    /\ sy == 30 * (1 - 1 / 2)
    /\ sx - sy == 30 / 2 * (1 - 0)
    /\ 0 <= sy /\ sy <= sx /\ sx <= 30
    /\ (0 == 0 -> sx == 30)
    /\ (1 == 2 -> sy == 0).
Proof.
  apply (proj1 destination_score_falls_with_distance 0 1 2 30); lra.
Defined.

(** X2: the pickup score falls with the square of the remaining share of
    the threshold: it is between 0 and the weight, a nearer pickup never
    scores less, and at the same share of its threshold a pickup distance
    never scores more than the linear destination formula gives. *)
Theorem pickup_score_falls_quadratically :
  (forall x y m w,
      0 <= x -> x <= y -> y <= m -> 0 < m -> 0 <= w ->
      exists sx sy lx,
        calculate_pickup_proximity_score (Some x) (Some m) (Some w)
        = Ok (Some sx)
        /\ calculate_pickup_proximity_score (Some y) (Some m) (Some w)
           = Ok (Some sy)
        /\ calculate_destination_proximity_score (Some x) (Some m) (Some w)
           = Ok (Some lx)
        /\ 0 <= sy /\ sy <= sx /\ sx <= lx /\ lx <= w
        /\ (x == 0 -> sx == w))
  /\ (forall x m w,
        m < x ->
        calculate_pickup_proximity_score (Some x) (Some m) w = Ok (Some 0)).
Proof.
  split.
  - intros x y m w Hx Hxy Hym Hm Hw.
    destruct (ratio_bounds x y m Hx Hxy Hym Hm) as [H0 [H1 H2]].
    pose proof (positive_not_zero m Hm) as Hnz.
    exists (w * ((1 - x / m) * (1 - x / m))),
           (w * ((1 - y / m) * (1 - y / m))),
           (w * (1 - x / m)).
    rewrite !pickup_score_within by (assumption || lra).
    rewrite destination_score_within by (assumption || lra).
    assert (Hx0 : x == 0 -> x / m == 0) by (intro E; rewrite E; field; exact Hnz).
    set (a := x / m) in *. set (b := y / m) in *.
    assert (Ha : 0 <= (1 - a) * (1 - a)) by nra.
    assert (Hb : 0 <= (1 - b) * (1 - b)) by nra.
    assert (Hab : (1 - b) * (1 - b) <= (1 - a) * (1 - a)) by nra.
    assert (Hal : (1 - a) * (1 - a) <= 1 - a) by nra.
    repeat split; try nra; intro E; rewrite (Hx0 E); ring.
  - intros x m w Hlt. unfold calculate_pickup_proximity_score.
    replace (is_true (num_gt (Some x) (Some m))) with true; [reflexivity |].
    symmetry. apply is_true_num_gt. exact Hlt.
Qed.

Lemma pickup_score_falls_quadratically_witness :
  exists sx sy lx,
    calculate_pickup_proximity_score (Some 1) (Some 5) (Some 25) = Ok (Some sx)
    /\ calculate_pickup_proximity_score (Some 2) (Some 5) (Some 25)
       = Ok (Some sy)
    /\ calculate_destination_proximity_score (Some 1) (Some 5) (Some 25)
       = Ok (Some lx)
    /\ 0 <= sy /\ sy <= sx /\ sx <= lx /\ lx <= 25
    /\ (1 == 0 -> sx == 25).
Proof.
  apply (proj1 pickup_score_falls_quadratically 1 2 5 25); lra.
Defined.

(** X3: from the minimal overlap up to 100 percent the overlap score rises
    linearly from 0 to the full weight; below the minimum it is 0; and
    with a minimum of exactly 100 percent the function raises for every
    overlap that is not below it, its divisor being zero. *)
Theorem overlap_score_rises_with_overlap :
  (forall o o' m w,
      m <= o -> o <= o' -> o' <= 100 -> m < 100 -> 0 <= w ->
      exists s s',
        calculate_route_overlap_score (Some o) (Some m) (Some w) = Ok (Some s)
        /\ calculate_route_overlap_score (Some o') (Some m) (Some w)
           = Ok (Some s')
        /\ 0 <= s /\ s <= s' /\ s' <= w
        /\ (o == m -> s == 0)
        /\ (o' == 100 -> s' == w))
  /\ (forall o m w,
        o < m ->
        calculate_route_overlap_score (Some o) (Some m) w = Ok (Some 0))
  /\ (forall o m w,
        m == 100 -> m <= o ->
        calculate_route_overlap_score (Some o) (Some m) w
        = Raise "division by zero").
Proof.
  split; [| split].
  - intros o o' m w Hmo Hoo Ho Hm Hw.
    assert (Hd : 0 < 100 - m) by lra.
    destruct (ratio_bounds (o - m) (o' - m) (100 - m)) as [H0 [H1 H2]];
      try lra.
    pose proof (positive_not_zero _ Hd) as Hnz.
    exists (w * ((o - m) / (100 - m))), (w * ((o' - m) / (100 - m))).
    rewrite !overlap_score_within by (assumption || lra).
    repeat split; try nra.
    + intro E. rewrite E. field. exact Hnz.
    + intro E. rewrite E. field. exact Hnz.
  - intros o m w Hlt. unfold calculate_route_overlap_score.
    replace (is_true (num_lt (Some o) (Some m))) with true; [reflexivity |].
    symmetry. apply is_true_num_lt. exact Hlt.
  - intros o m w Hm Hle. unfold calculate_route_overlap_score.
    replace (is_true (num_lt (Some o) (Some m))) with false.
    + cbn [num_sub lift2 num_div bind].
      replace (Qeq_bool (100 - m) 0) with true; [reflexivity |].
      symmetry. apply Qeq_bool_iff. lra.
    + symmetry. apply is_true_false. intro E.
      assert (G : is_true (num_lt (Some o) (Some m)) = true) by (rewrite E; reflexivity).
      apply is_true_num_lt in G. lra.
Qed.

Lemma overlap_score_rises_with_overlap_witness :
  exists s s',
    calculate_route_overlap_score (Some 40) (Some 40) (Some 20) = Ok (Some s)
    /\ calculate_route_overlap_score (Some 100) (Some 40) (Some 20)
       = Ok (Some s')
    /\ 0 <= s /\ s <= s' /\ s' <= 20
    /\ (40 == 40 -> s == 0)
    /\ (100 == 100 -> s' == 20).
Proof.
  apply (proj1 overlap_score_rises_with_overlap 40 100 40 20); lra.
Defined.

(** X4: up to the maximal time difference the time score falls linearly
    from the full weight at 0 minutes to 0 at the maximum; beyond it the
    score is 0; and with a maximum of 0 minutes the function raises for
    two requests of the same minute, its divisor being zero. *)
Theorem time_score_falls_with_delay :
  (forall t t' m w,
      (0 <= t)%Z -> (t <= t')%Z -> (t' <= m)%Z -> (0 < m)%Z -> 0 <= w ->
      exists s s',
        calculate_time_alignment_score (Some t) (Some m) (Some w) = Ok (Some s)
        /\ calculate_time_alignment_score (Some t') (Some m) (Some w)
           = Ok (Some s')
        /\ 0 <= s' /\ s' <= s /\ s <= w
        /\ (t = 0%Z -> s == w)
        /\ (t' = m -> s' == 0))
  /\ (forall t m w,
        (m < t)%Z ->
        calculate_time_alignment_score (Some t) (Some m) w = Ok (Some 0))
  /\ (forall t w,
        (t <= 0)%Z ->
        calculate_time_alignment_score (Some t) (Some 0%Z) w
        = Raise "division by zero").
Proof.
  split; [| split].
  - intros t t' m w Ht Htt Htm Hm Hw.
    assert (Hq : 0 < inject_Z m).
    { change 0 with (inject_Z 0). rewrite <- Zlt_Qlt. exact Hm. }
    destruct (ratio_bounds (inject_Z t) (inject_Z t') (inject_Z m))
      as [H0 [H1 H2]];
      try (rewrite <- Zle_Qle; assumption); try exact Hq.
    { change 0 with (inject_Z 0). rewrite <- Zle_Qle. exact Ht. }
    pose proof (positive_not_zero _ Hq) as Hnz.
    exists (w * (1 - inject_Z t / inject_Z m)),
           (w * (1 - inject_Z t' / inject_Z m)).
    rewrite !time_score_within by lia.
    repeat split; try nra.
    + intros ->. change (inject_Z 0) with 0. field. exact Hnz.
    + intros ->. field. exact Hnz.
  - intros t m w Hlt. apply time_score_beyond. lia.
  - intros t w Ht. unfold calculate_time_alignment_score.
    replace (is_true (int_gt (Some t) (Some 0%Z))) with false.
    + reflexivity.
    + symmetry. cbn. rewrite Z.gtb_ltb.
      replace (0 <? t)%Z with false; [reflexivity |].
      symmetry. apply Z.ltb_ge. exact Ht.
Qed.

Lemma time_score_falls_with_delay_witness :
  exists s s',
    calculate_time_alignment_score (Some 0%Z) (Some 10%Z) (Some 15)
    = Ok (Some s)
    /\ calculate_time_alignment_score (Some 10%Z) (Some 10%Z) (Some 15)
       = Ok (Some s')
    /\ 0 <= s' /\ s' <= s /\ s <= 15
    /\ (0%Z = 0%Z -> s == 15)
    /\ (10%Z = 10%Z -> s' == 0).
Proof.
  apply (proj1 time_score_falls_with_delay 0%Z 10%Z 10%Z 15); lia || lra.
Defined.

(** X5: the detour term follows the weight.  For a weight that is not
    negative it is a penalty: for a detour between 0 and the maximum it is
    [- weight * (detour / max)], falling at a constant rate from 0 to
    minus the weight, and beyond the maximum it is minus the weight.  For
    a negative weight, which the check [valid_weights] admits, the term of
    a positive detour is positive, a bonus. *)
Theorem detour_penalty_follows_the_weight :
  (forall x y m w,
      0 <= x -> x <= y -> y <= m -> 0 < m -> 0 <= w ->
      exists sx sy,
        calculate_detour_penalty (Some x) (Some m) (Some w) = Ok (Some sx)
        /\ calculate_detour_penalty (Some y) (Some m) (Some w) = Ok (Some sy)
        /\ sx == - w * (x / m)
        /\ sy == - w * (y / m)
        /\ - w <= sy /\ sy <= sx /\ sx <= 0
        /\ (x == 0 -> sx == 0)
        /\ (y == m -> sy == - w))
  /\ (forall x m w,
        m < x ->
        calculate_detour_penalty (Some x) (Some m) (Some w) = Ok (Some (- w)))
  /\ (forall x m w,
        0 < x -> 0 < m -> w < 0 ->
        exists s,
          calculate_detour_penalty (Some x) (Some m) (Some w) = Ok (Some s)
          /\ 0 < s).
Proof.
  assert (Hbeyond : forall x m w,
             m < x ->
             calculate_detour_penalty (Some x) (Some m) (Some w)
             = Ok (Some (- w))).
  { intros x m w Hlt. unfold calculate_detour_penalty.
    replace (is_true (num_gt (Some x) (Some m))) with true; [reflexivity |].
    symmetry. apply is_true_num_gt. exact Hlt. }
  split; [| split; [exact Hbeyond |]].
  - intros x y m w Hx Hxy Hym Hm Hw.
    destruct (ratio_bounds x y m Hx Hxy Hym Hm) as [H0 [H1 H2]].
    pose proof (positive_not_zero m Hm) as Hnz.
    exists (- w * (x / m)), (- w * (y / m)).
    rewrite !detour_penalty_within by (assumption || lra).
    split; [reflexivity |]. split; [reflexivity |].
    split; [reflexivity |]. split; [reflexivity |].
    repeat split; try nra.
    + intro E. rewrite E. field. exact Hnz.
    + intro E. rewrite E. field. exact Hnz.
  - intros x m w Hx Hm Hw.
    destruct (Qlt_le_dec m x) as [Hlt | Hle].
    + exists (- w). split; [apply Hbeyond; exact Hlt | lra].
    + exists (- w * (x / m)).
      split; [apply detour_penalty_within;
              [exact Hle | apply positive_not_zero; exact Hm] |].
      assert (Hr : 0 < x / m) by (apply Qlt_shift_div_l; lra).
      nra.
Qed.

Lemma detour_penalty_follows_the_weight_witness :
  (exists sx sy,
      calculate_detour_penalty (Some 0) (Some 30) (Some 10) = Ok (Some sx)
      /\ calculate_detour_penalty (Some 30) (Some 30) (Some 10)
         = Ok (Some sy)
      /\ sx == - (10) * (0 / 30)
      /\ sy == - (10) * (30 / 30)
      /\ - (10) <= sy /\ sy <= sx /\ sx <= 0
      /\ (0 == 0 -> sx == 0)
      /\ (30 == 30 -> sy == - (10)))
  /\ (exists s,
        calculate_detour_penalty (Some 15) (Some 30) (Some (- (10)))
        = Ok (Some s)
        /\ 0 < s).
Proof.
  split.
  - apply (proj1 detour_penalty_follows_the_weight 0 30 30 10); lra.
  - apply (proj2 (proj2 detour_penalty_follows_the_weight) 15 30 (- (10)));
      lra.
Defined.

(** ** The scoring engine and the join check at their edges *)

Lemma find_none_iff : forall (B : Type) (f : B -> bool) (l : list B),
  find f l = None <-> forall x, In x l -> f x = false.
Proof.
  intros B f l. induction l as [| y l IH]; simpl.
  - split; [intros _ x [] | reflexivity].
  - destruct (f y) eqn:E.
    + split; [discriminate |]. intro H. rewrite (H y (or_introl eq_refl)) in E.
      discriminate.
    + rewrite IH. split.
      * intros H x [<- | Hx]; [exact E | apply H; exact Hx].
      * intros H x Hx. apply H. right. exact Hx.
Qed.

(** The record that [SELECT ... INTO] leaves for a ride that does not
    exist. *)
Lemma select_ride_missing : forall db p_ride_id,
  (forall r, In r (rides db) -> p_ride_id <> Some (Rides.id r)) ->
  select_ride db p_ride_id
  = {| rec_pickup_location := None;
       rec_dropoff_location := None;
       rec_created_at := None;
       rec_is_on_front_route := None |}.
Proof.
  intros db p_ride_id H. unfold select_ride.
  replace (find _ (rides db)) with (@None Rides.row); [reflexivity |].
  symmetry. apply find_none_iff. intros r Hr.
  specialize (H r Hr). destruct p_ride_id as [u |]; [| reflexivity].
  unfold uuid_eq, lift2, is_true.
  destruct (N.eqb (Rides.id r) u) eqn:E; [| reflexivity].
  apply N.eqb_eq in E. exfalso. apply H. rewrite E. reflexivity.
Qed.

Lemma overlap_score_at_100 : forall m w,
  m < 100 ->
  exists s, calculate_route_overlap_score (Some 100) (Some m) w = Ok s.
Proof.
  intros m w Hm. unfold calculate_route_overlap_score.
  replace (is_true (num_lt (Some 100) (Some m))) with false.
  - cbn [num_sub lift2 num_div].
    replace (Qeq_bool (100 - m) 0) with false.
    + cbn [bind]. eexists. reflexivity.
    + symmetry. apply Qeq_bool_false. lra.
  - symmetry. apply is_true_false. intro E.
    assert (G : is_true (num_lt (Some 100) (Some m)) = true)
      by (rewrite E; reflexivity).
    apply is_true_num_lt in G. lra.
Qed.

Section EngineEdges.

Variable ST_Distance : geography -> geography -> Q.
Variable FORMAT : string -> list fmt_arg -> result string.

(** What the engine returns for a second ride without any column value. *)
Lemma score_of_missing_ride :
  forall v_config v_ride1 m,
    front_route_gate v_config v_ride1
      {| rec_pickup_location := None;
         rec_dropoff_location := None;
         rec_created_at := None;
         rec_is_on_front_route := None |} = false ->
    Config.min_route_overlap_percent v_config = Some m ->
    m < 100 ->
    Config.min_viable_score v_config <= 100 ->
    exists r,
      score_rides ST_Distance FORMAT v_config v_ride1
        {| rec_pickup_location := None;
           rec_dropoff_location := None;
           rec_created_at := None;
           rec_is_on_front_route := None |} = Ok r
      /\ total_score r = Some 100
      /\ is_viable r = Some true
      /\ rejection_reason r = None.
Proof.
  intros v_config v_ride1 m Hgate Hmin Hm Hfloor.
  unfold score_rides. rewrite Hgate. cbv zeta.
  assert (Hdest : forall r1,
             dest_distance_km ST_Distance r1
               {| rec_pickup_location := None;
                  rec_dropoff_location := None;
                  rec_created_at := None;
                  rec_is_on_front_route := None |} = None).
  { intro r1. unfold dest_distance_km, distance. cbn.
    destruct (rec_dropoff_location r1); reflexivity. }
  assert (Hpick : forall r1,
             pickup_distance_km ST_Distance r1
               {| rec_pickup_location := None;
                  rec_dropoff_location := None;
                  rec_created_at := None;
                  rec_is_on_front_route := None |} = None).
  { intro r1. unfold pickup_distance_km, distance. cbn.
    destruct (rec_pickup_location r1); reflexivity. }
  assert (Hpool : forall r1,
             pooled_route_km ST_Distance r1
               {| rec_pickup_location := None;
                  rec_dropoff_location := None;
                  rec_created_at := None;
                  rec_is_on_front_route := None |} = None).
  { intro r1. unfold pooled_route_km, distance. cbn.
    destruct (rec_pickup_location r1); reflexivity. }
  assert (Hover : forall r1,
             route_overlap_percent ST_Distance r1
               {| rec_pickup_location := None;
                  rec_dropoff_location := None;
                  rec_created_at := None;
                  rec_is_on_front_route := None |} = Some 100).
  { intro r1. unfold route_overlap_percent. rewrite Hpool.
    unfold num_div_nullif. cbn.
    destruct (direct_route_km ST_Distance r1); reflexivity. }
  assert (Hdet : forall r1,
             detour_percent ST_Distance r1
               {| rec_pickup_location := None;
                  rec_dropoff_location := None;
                  rec_created_at := None;
                  rec_is_on_front_route := None |} = None).
  { intro r1. unfold detour_percent. rewrite Hpool. reflexivity. }
  assert (Htime : forall c1, time_diff_minutes c1 None = None).
  { intros [c |]; reflexivity. }
  rewrite Hdest, Hpick, Hover, Hdet. cbn [rec_created_at]. rewrite Htime.
  rewrite Hmin.
  assert (Hnum_gt : forall y, is_true (num_gt None y) = false)
    by (intros [y |]; reflexivity).
  assert (Hint_gt : forall y, is_true (int_gt None y) = false)
    by (intros [y |]; reflexivity).
  rewrite !Hnum_gt, Hint_gt.
  replace (is_true (num_lt (Some 100) (Some m))) with false.
  2:{ symmetry. apply is_true_false. intro E.
      assert (G : is_true (num_lt (Some 100) (Some m)) = true)
        by (rewrite E; reflexivity).
      apply is_true_num_lt in G. lra. }
  cbn [bind].
  assert (Hdiv : forall y, num_div None y = Ok None) by (intros [y |]; reflexivity).
  unfold calculate_destination_proximity_score,
    calculate_pickup_proximity_score, calculate_time_alignment_score,
    calculate_detour_penalty.
  rewrite !Hnum_gt, Hint_gt. cbn [num_of_int option_map].
  rewrite !Hdiv. cbn [bind].
  destruct (overlap_score_at_100 m (Config.route_overlap_weight v_config) Hm)
    as [s Hs].
  rewrite Hs. cbn [bind].
  assert (Hsum : forall a b c d e : num,
             num_add (num_add (num_add (num_add (num_mul a (num_sub (Some 1) None)) b) c) d) e
             = None).
  { intros [a |] b c d e; reflexivity. }
  rewrite Hsum.
  eexists. split; [reflexivity |].
  cbn [total_score is_viable rejection_reason].
  split; [reflexivity |]. split; [| reflexivity].
  cbn. replace (Qle_bool (Config.min_viable_score v_config) 100) with true;
    [reflexivity |].
  symmetry. apply Qle_bool_iff. exact Hfloor.
Qed.

(** X6: ride identifiers are not checked.  For a second ride that does not
    exist, every measured quantity is NULL, no threshold is exceeded, the
    NULL sum is skipped by [LEAST] and [GREATEST], and the engine returns
    the total score 100 with [is_viable = TRUE] and no rejection reason
    (unless the front-route gate fires for the first ride). *)
Theorem missing_ride_scores_100 :
  forall db p_ride1_id p_ride2_id p_config_name v_config m,
    select_config db p_config_name = Some v_config ->
    (forall r, In r (rides db) -> p_ride2_id <> Some (Rides.id r)) ->
    Config.front_route_only v_config <> Some true
    \/ rec_is_on_front_route (select_ride db p_ride1_id) <> Some false ->
    Config.min_route_overlap_percent v_config = Some m ->
    m < 100 ->
    Config.min_viable_score v_config <= 100 ->
    exists r,
      calculate_pool_viability_score ST_Distance FORMAT db p_ride1_id
        p_ride2_id p_config_name = Ok r
      /\ total_score r = Some 100
      /\ is_viable r = Some true
      /\ rejection_reason r = None.
Proof.
  intros db id1 id2 name c m Hcfg Hmiss Hgate Hmin Hm Hfloor.
  unfold calculate_pool_viability_score. rewrite Hcfg.
  rewrite (select_ride_missing db id2 Hmiss).
  apply score_of_missing_ride with (m := m); try assumption.
  unfold front_route_gate. cbn [rec_is_on_front_route].
  destruct (Config.front_route_only c) as [[|] |];
    destruct (rec_is_on_front_route (select_ride db id1)) as [[|] |];
    try reflexivity.
  destruct Hgate as [H | H]; exfalso; apply H; reflexivity.
Qed.

(** X7: hence [can_join_pool] approves a ride that does not exist: with an
    anchor member in the pool and a new ride identifier that no ride has,
    it answers [can_join = TRUE] with score 100. *)
Theorem can_join_pool_approves_a_missing_ride :
  forall db p_pool_id p_new_ride_id p_config_name v_config m anchor,
    select_config db p_config_name = Some v_config ->
    existing_ride_id db p_pool_id p_config_name = Some anchor ->
    (forall r, In r (rides db) -> Rides.id r <> p_new_ride_id) ->
    Config.front_route_only v_config <> Some true
    \/ rec_is_on_front_route (select_ride db (Some anchor)) <> Some false ->
    Config.min_route_overlap_percent v_config = Some m ->
    m < 100 ->
    Config.min_viable_score v_config <= 100 ->
    exists r,
      can_join_pool ST_Distance FORMAT db p_pool_id p_new_ride_id
                    p_config_name = Ok r
      /\ CanJoin.can_join r = Some true
      /\ CanJoin.viability_score r = Some 100
      /\ CanJoin.rejection_reason r = None.
Proof.
  intros db pool new name c m anchor Hcfg Hanchor Hmiss Hgate Hmin Hm Hfloor.
  unfold can_join_pool. rewrite Hanchor.
  assert (Hmiss' : forall r, In r (rides db) -> Some new <> Some (Rides.id r)).
  { intros r Hr E. injection E as E. apply (Hmiss r Hr). symmetry. exact E. }
  unfold calculate_pool_viability_score. rewrite Hcfg.
  rewrite (select_ride_missing db (Some new) Hmiss').
  destruct (score_of_missing_ride c (select_ride db (Some anchor)) m)
    as [r [Hr [Ht [Hv Hreason]]]]; try assumption.
  { unfold front_route_gate. cbn [rec_is_on_front_route].
    destruct (Config.front_route_only c) as [[|] |];
      destruct (rec_is_on_front_route (select_ride db (Some anchor)))
        as [[|] |];
      try reflexivity.
    destruct Hgate as [H | H]; exfalso; apply H; reflexivity. }
  rewrite Hr. cbn [bind]. eexists. split; [reflexivity |].
  cbn. auto.
Qed.

(** X8: whatever the inputs, a result of the engine carries a total score
    between 0 and 100 that is never NULL, a verdict that is [TRUE] or
    [FALSE], never NULL, and the verdict [FALSE] whenever it carries a
    rejection reason. *)
Theorem engine_result_is_well_formed :
  forall db p_ride1_id p_ride2_id p_config_name r,
    calculate_pool_viability_score ST_Distance FORMAT db p_ride1_id
      p_ride2_id p_config_name = Ok r ->
    (exists t, total_score r = Some t /\ 0 <= t <= 100)
    /\ (is_viable r = Some true \/ is_viable r = Some false)
    /\ (rejection_reason r <> None -> is_viable r = Some false).
Proof.
  intros db id1 id2 name r H.
  unfold calculate_pool_viability_score in H.
  destruct (select_config db name) as [c |]; [| discriminate].
  destruct (front_route_gate c (select_ride db id1) (select_ride db id2))
    eqn:Hgate.
  - unfold score_rides in H. rewrite Hgate in H. injection H as <-.
    cbn. split; [exists 0; split; [reflexivity | lra] |].
    split; [right; reflexivity | reflexivity].
  - destruct (score_rides_shape _ _ _ _ _ _ Hgate H) as [sum [Htot Hvia]].
    destruct (clamp_range sum) as [t [Ht Hrange]].
    rewrite Htot in *. rewrite Ht in *.
    split; [exists t; split; [reflexivity | exact Hrange] |].
    rewrite Hvia. cbn [num_ge lift2].
    destruct (Qle_bool (Config.min_viable_score c) t);
      destruct (rejection_reason r); cbn; split; auto; congruence.
Qed.

Lemma bind_raise : forall (A B : Type) (m : result A) (k : A -> result B),
  (forall a, m = Ok a -> exists msg, k a = Raise msg) ->
  exists msg, bind m k = Raise msg.
Proof.
  intros A B [a | msg] k H; cbn.
  - apply H. reflexivity.
  - exists msg. reflexivity.
Qed.

(** X9: a threshold of zero makes the engine fail where the rides agree
    exactly.  With [max_time_difference_minutes = 0] every pair of rides
    requested in the same minute, and with
    [max_destination_distance_km = 0] every pair of rides with the same
    dropoff point, gets no verdict: the call raises (the division by the
    threshold is a division by zero). *)
Theorem zero_threshold_makes_the_engine_raise :
  forall db p_ride1_id p_ride2_id p_config_name v_config,
    select_config db p_config_name = Some v_config ->
    front_route_gate v_config (select_ride db p_ride1_id)
                     (select_ride db p_ride2_id) = false ->
    (Config.max_time_difference_minutes v_config = Some 0%Z
     /\ time_diff_minutes (rec_created_at (select_ride db p_ride1_id))
                          (rec_created_at (select_ride db p_ride2_id))
        = Some 0%Z)
    \/ (exists q z,
          Config.max_destination_distance_km v_config = Some z
          /\ z == 0
          /\ rec_dropoff_location (select_ride db p_ride1_id) = Some q
          /\ rec_dropoff_location (select_ride db p_ride2_id) = Some q
          /\ ST_Distance q q == 0) ->
    exists msg,
      calculate_pool_viability_score ST_Distance FORMAT db p_ride1_id
        p_ride2_id p_config_name = Raise msg.
Proof.
  intros db id1 id2 name c Hcfg Hgate Hzero.
  unfold calculate_pool_viability_score. rewrite Hcfg.
  unfold score_rides. rewrite Hgate. cbv zeta.
  destruct Hzero as [[Hmax Hdiff] | [q [z [Hmax [Hz [Hq1 [Hq2 Hself]]]]]]].
  - rewrite Hmax, Hdiff.
    do 7 (apply bind_raise; intros ? _).
    replace (calculate_time_alignment_score (Some 0%Z) (Some 0%Z)
               (Config.time_alignment_weight c))
      with (@Raise num "division by zero") by reflexivity.
    eexists. reflexivity.
  - unfold dest_distance_km, distance. rewrite Hq1, Hq2, Hmax.
    cbn [lift2 num_div_by option_map].
    assert (Hd : ST_Distance q q / 1000 == 0) by (rewrite Hself; reflexivity).
    replace (is_true (num_gt (Some (ST_Distance q q / 1000)) (Some z)))
      with false.
    + cbn [bind]. unfold calculate_destination_proximity_score.
      replace (is_true (num_gt (Some (ST_Distance q q / 1000)) (Some z)))
        with false.
      * cbn [num_div].
        replace (Qeq_bool z 0) with true
          by (symmetry; apply Qeq_bool_iff; exact Hz).
        eexists. reflexivity.
      * symmetry. apply is_true_false. intro E.
        assert (G : is_true (num_gt (Some (ST_Distance q q / 1000)) (Some z))
                    = true) by (rewrite E; reflexivity).
        apply is_true_num_gt in G. lra.
    + symmetry. apply is_true_false. intro E.
      assert (G : is_true (num_gt (Some (ST_Distance q q / 1000)) (Some z))
                  = true) by (rewrite E; reflexivity).
      apply is_true_num_gt in G. lra.
Qed.

(** X10: the join check without a configuration.  When no active
    configuration has the name asked for, [can_join_pool] still
    auto-approves a pool that has no active front-route member, and raises
    for every other pool. *)
Theorem can_join_pool_without_configuration :
  forall db p_pool_id p_new_ride_id p_config_name,
    select_config db p_config_name = None ->
    ((forall pm, In pm (pool_members db) ->
                 PoolMembers.pool_id pm = p_pool_id ->
                 PoolMembers.left_at pm = None ->
                 PoolMembers.is_front_route_passenger pm <> Some true) ->
     can_join_pool ST_Distance FORMAT db p_pool_id p_new_ride_id p_config_name
     = Ok {| CanJoin.can_join := Some true;
             CanJoin.viability_score := Some 100;
             CanJoin.score_breakdown := JObject [];
             CanJoin.rejection_reason := Some "First member - auto-approved" |})
    /\ ((exists pm, In pm (pool_members db)
                    /\ PoolMembers.pool_id pm = p_pool_id
                    /\ PoolMembers.left_at pm = None
                    /\ PoolMembers.is_front_route_passenger pm = Some true) ->
        can_join_pool ST_Distance FORMAT db p_pool_id p_new_ride_id
                      p_config_name
        = Raise ("Scoring configuration " ++ dquote ++ p_config_name
                 ++ dquote ++ " not found")).
Proof.
  intros db pool new name Hcfg.
  assert (Hel : forall pm,
             eligible_member None pool pm = true
             <-> PoolMembers.pool_id pm = pool
                 /\ PoolMembers.left_at pm = None
                 /\ PoolMembers.is_front_route_passenger pm = Some true).
  { intro pm. unfold eligible_member.
    rewrite !andb_true_iff, N.eqb_eq.
    destruct (PoolMembers.left_at pm);
      destruct (PoolMembers.is_front_route_passenger pm) as [[|] |];
      cbn; intuition congruence. }
  split.
  - intro Hnone. unfold can_join_pool, existing_ride_id. rewrite Hcfg.
    replace (find (eligible_member None pool) (pool_members db))
      with (@None PoolMembers.row); [reflexivity |].
    symmetry. apply find_none_iff. intros pm Hpm.
    destruct (eligible_member None pool pm) eqn:E; [| reflexivity].
    apply Hel in E. destruct E as [E1 [E2 E3]].
    exfalso. exact (Hnone pm Hpm E1 E2 E3).
  - intros [pm [Hpm Hx]]. unfold can_join_pool, existing_ride_id.
    rewrite Hcfg.
    destruct (find (eligible_member None pool) (pool_members db)) as [a |] eqn:F.
    + cbn [option_map]. unfold calculate_pool_viability_score.
      rewrite Hcfg. reflexivity.
    + exfalso. rewrite find_none_iff in F. specialize (F pm Hpm).
      apply Hel in Hx. congruence.
Qed.

End EngineEdges.

Lemma missing_ride_scores_100_witness :
  exists r,
    calculate_pool_viability_score grid_distance plain_format twin_db
      (Some 7%N) (Some 99%N) "default" = Ok r
    /\ total_score r = Some 100
    /\ is_viable r = Some true
    /\ rejection_reason r = None.
Proof.
  apply (missing_ride_scores_100 grid_distance plain_format twin_db
           (Some 7%N) (Some 99%N) "default" default_config 40).
  - reflexivity.
  - intros r [<- | [<- | []]]; discriminate.
  - right. vm_compute. discriminate.
  - reflexivity.
  - reflexivity.
  - vm_compute. discriminate.
Defined.

Lemma can_join_pool_approves_a_missing_ride_witness :
  exists r,
    can_join_pool grid_distance plain_format full_db 100%N 99%N "default"
    = Ok r
    /\ CanJoin.can_join r = Some true
    /\ CanJoin.viability_score r = Some 100
    /\ CanJoin.rejection_reason r = None.
Proof.
  apply (can_join_pool_approves_a_missing_ride grid_distance plain_format
           full_db 100%N 99%N "default" default_config 40 7%N).
  - reflexivity.
  - reflexivity.
  - intros r [<- | [<- | [<- | []]]]; discriminate.
  - right. vm_compute. discriminate.
  - reflexivity.
  - reflexivity.
  - vm_compute. discriminate.
Defined.

Lemma engine_result_is_well_formed_witness :
  exists r,
    calculate_pool_viability_score grid_distance plain_format late_db
      (Some 7%N) (Some 8%N) "default" = Ok r
    /\ (exists t, total_score r = Some t /\ 0 <= t <= 100)
    /\ (is_viable r = Some true \/ is_viable r = Some false)
    /\ (rejection_reason r <> None -> is_viable r = Some false).
Proof.
  eexists. split; [vm_compute; reflexivity |].
  apply (engine_result_is_well_formed grid_distance plain_format late_db
           (Some 7%N) (Some 8%N) "default").
  vm_compute. reflexivity.
Defined.

Lemma zero_threshold_makes_the_engine_raise_witness :
  exists msg,
    calculate_pool_viability_score grid_distance plain_format zero_time_db
      (Some 7%N) (Some 8%N) "default" = Raise msg.
Proof.
  apply (zero_threshold_makes_the_engine_raise grid_distance plain_format
           zero_time_db (Some 7%N) (Some 8%N) "default" zero_time_config).
  - reflexivity.
  - reflexivity.
  - left. split; reflexivity.
Defined.

Lemma can_join_pool_without_configuration_witness :
  can_join_pool grid_distance plain_format fleet_db 100%N 9%N "default"
  = Ok {| CanJoin.can_join := Some true;
          CanJoin.viability_score := Some 100;
          CanJoin.score_breakdown := JObject [];
          CanJoin.rejection_reason := Some "First member - auto-approved" |}
  /\ can_join_pool grid_distance plain_format unconfigured_db 100%N 9%N
                   "default"
     = Raise ("Scoring configuration " ++ dquote ++ "default" ++ dquote
              ++ " not found").
Proof.
  split.
  - apply (proj1 (can_join_pool_without_configuration grid_distance
                    plain_format fleet_db 100%N 9%N "default" eq_refl)).
    intros pm [].
  - apply (proj2 (can_join_pool_without_configuration grid_distance
                    plain_format unconfigured_db 100%N 9%N "default" eq_refl)).
    exists (example_member 1%N 100%N 70%N 7%N 0%Z None).
    split; [left; reflexivity |]. repeat split.
Defined.

(** ** The pool state machine: recomputation, drivers, capacity *)

(** An [UPDATE] of [pools] that a row violates raises. *)
Lemma update_pools_raises : forall db p_pool_id f p,
  In p (pools db) ->
  Pools.id p = p_pool_id ->
  Pools.id (f p) = p_pool_id ->
  pool_checks (f p) = false ->
  exists msg, update_pools db p_pool_id f = Raise msg.
Proof.
  intros db pid f p Hin Hid Hfid Hbad. unfold update_pools.
  match goal with
  | |- context [forallb ?g ?l] => destruct (forallb g l) eqn:E
  end; [| eexists; reflexivity].
  exfalso. rewrite forallb_forall in E.
  specialize (E _ (in_map _ _ _ Hin)). cbv beta in E.
  rewrite Hid, N.eqb_refl, Hfid, N.eqb_refl, Hbad in E. discriminate.
Qed.

Lemma set_pools_same : forall db, set_pools db (pools db) = db.
Proof. intros []. reflexivity. Qed.

(** Writing again what an [UPDATE] of [pools] has written changes
    nothing. *)
Lemma update_pools_again : forall db p_pool_id f db',
  (forall p, Pools.id (f p) = Pools.id p) ->
  (forall p, f (f p) = f p) ->
  update_pools db p_pool_id f = Ok db' ->
  update_pools db' p_pool_id f = Ok db'.
Proof.
  intros db pid f db' Hid Hidem H.
  destruct (update_pools_rows _ _ _ _ H) as [Hdb Hchk].
  unfold update_pools.
  assert (Hmap : map (fun p => if N.eqb (Pools.id p) pid then f p else p)
                     (pools db') = pools db').
  { rewrite Hdb. cbn [pools set_pools]. rewrite map_map.
    apply map_ext. intro p.
    destruct (N.eqb (Pools.id p) pid) eqn:E.
    - rewrite Hid, E. apply Hidem.
    - rewrite E. reflexivity. }
  rewrite Hmap.
  replace (forallb (fun p => negb (N.eqb (Pools.id p) pid) || pool_checks p)
                   (pools db')) with true.
  - rewrite set_pools_same. reflexivity.
  - symmetry. apply forallb_forall. intros p Hp.
    destruct (N.eqb (Pools.id p) pid) eqn:E; [| reflexivity].
    apply N.eqb_eq in E. rewrite (Hchk p Hp E). reflexivity.
Qed.

Lemma next_status_again : forall s c m d,
  next_status (next_status s c m d) c m d = next_status s c m d.
Proof.
  intros s c m d. unfold next_status.
  destruct (terminal s) eqn:T; [rewrite T; reflexivity |].
  destruct (c >=? m)%Z; destruct d; reflexivity.
Qed.

(** The flag [COALESCE(c.front_route_only, TRUE)] of a pool reads the
    pool's configuration only. *)
Lemma pool_front_route_only_update : forall db p_pool_id f db',
  (forall p, Pools.id (f p) = Pools.id p) ->
  (forall p, Pools.scoring_config_id (f p) = Pools.scoring_config_id p) ->
  update_pools db p_pool_id f = Ok db' ->
  forall q, pool_front_route_only db' q = pool_front_route_only db q.
Proof.
  intros db pid f db' Hid Hcfg H q. unfold pool_front_route_only.
  rewrite (update_pools_select _ _ _ _ Hid H).
  destruct (update_pools_other_tables _ _ _ _ H) as [_ [_ [_ Hc]]].
  destruct (select_pool db q) as [p |]; [| reflexivity].
  cbn [option_map]. unfold config_of_pool. rewrite Hc.
  destruct (N.eqb (Pools.id p) pid); [rewrite Hcfg |]; reflexivity.
Qed.

Lemma count_members_update : forall db p_pool_id f db',
  update_pools db p_pool_id f = Ok db' ->
  forall q fo, count_members db' q fo = count_members db q fo.
Proof.
  intros db pid f db' H q fo. unfold count_members.
  destruct (update_pools_other_tables _ _ _ _ H) as [_ [Hm _]].
  rewrite Hm. reflexivity.
Qed.

Lemma select_pool_id : forall db q p,
  select_pool db q = Some p -> In p (pools db) /\ Pools.id p = q.
Proof.
  intros db q p H. unfold select_pool in H. apply find_some in H.
  destruct H as [Hin Hid]. apply N.eqb_eq in Hid. auto.
Qed.

(** Neither recomputation changes what the counts are computed from. *)
Lemma sync_pool_status_reads : forall db p_pool_id db',
  sync_pool_status db p_pool_id = Ok db' ->
  (forall q, pool_front_route_only db' q = pool_front_route_only db q)
  /\ (forall q fo, count_members db' q fo = count_members db q fo).
Proof.
  intros db pid db' H. unfold sync_pool_status in H.
  destruct (select_pool db pid) as [p0 |].
  - split.
    + eapply pool_front_route_only_update; [| | exact H]; intro; reflexivity.
    + eapply count_members_update. exact H.
  - injection H as <-. split; reflexivity.
Qed.

Lemma sync_pool_status_again : forall db p_pool_id db',
  sync_pool_status db p_pool_id = Ok db' ->
  sync_pool_status db' p_pool_id = Ok db'.
Proof.
  intros db pid db' H. unfold sync_pool_status in *.
  destruct (select_pool db pid) as [p0 |] eqn:S.
  - assert (Hid : forall c s p,
               Pools.id (pool_with_count_status c s p) = Pools.id p)
      by reflexivity.
    rewrite (update_pools_select _ _ _ _ (fun p => Hid _ _ p) H).
    rewrite S. cbn [option_map].
    destruct (select_pool_id _ _ _ S) as [_ Hp0]. rewrite Hp0, N.eqb_refl.
    cbn [pool_with_count_status Pools.min_passengers_to_start Pools.driver_id].
    rewrite (pool_front_route_only_update _ _ _ _ (fun p => Hid _ _ p)
               (fun p => eq_refl) H).
    rewrite (count_members_update _ _ _ _ H).
    eapply update_pools_again; [| | exact H].
    + intro p. reflexivity.
    + intro p. unfold pool_with_count_status.
      cbn [Pools.id Pools.creator_user_id Pools.driver_id Pools.vehicle_id
           Pools.status Pools.destination_location Pools.vehicle_type
           Pools.gender_restriction Pools.current_passengers
           Pools.max_passengers Pools.min_passengers_to_start
           Pools.viability_score Pools.score_breakdown
           Pools.scoring_config_id Pools.deleted_at Pools.created_at].
      rewrite next_status_again. reflexivity.
  - injection H as <-. rewrite S. reflexivity.
Qed.

Lemma sync_pool_status_internal_again : forall db p_pool_id db',
  sync_pool_status_internal db p_pool_id = Ok db' ->
  sync_pool_status_internal db' p_pool_id = Ok db'.
Proof.
  intros db pid db' H. unfold sync_pool_status_internal in *.
  destruct (select_pool db pid) as [p0 |] eqn:S.
  - assert (Hid : forall c s p,
               Pools.id (pool_with_count_status c s p) = Pools.id p)
      by reflexivity.
    rewrite (update_pools_select _ _ _ _ (fun p => Hid _ _ p) H).
    rewrite S. cbn [option_map].
    destruct (select_pool_id _ _ _ S) as [_ Hp0]. rewrite Hp0, N.eqb_refl.
    cbn [pool_with_count_status Pools.min_passengers_to_start Pools.driver_id].
    rewrite (pool_front_route_only_update _ _ _ _ (fun p => Hid _ _ p)
               (fun p => eq_refl) H).
    rewrite (count_members_update _ _ _ _ H).
    eapply update_pools_again; [| | exact H].
    + intro p. reflexivity.
    + intro p. unfold pool_with_count_status.
      cbn [Pools.id Pools.creator_user_id Pools.driver_id Pools.vehicle_id
           Pools.status Pools.destination_location Pools.vehicle_type
           Pools.gender_restriction Pools.current_passengers
           Pools.max_passengers Pools.min_passengers_to_start
           Pools.viability_score Pools.score_breakdown
           Pools.scoring_config_id Pools.deleted_at Pools.created_at].
      rewrite next_status_again. reflexivity.
  - injection H as <-. rewrite S. reflexivity.
Qed.

(** X11: recomputing the status of a pool is idempotent: a second run of
    [sync_pool_status] (the member trigger) or of
    [sync_pool_status_internal] right after a first one succeeds and leaves
    the database as the first one left it. *)
Theorem recomputation_is_idempotent :
  forall db p_pool_id db',
    (sync_pool_status db p_pool_id = Ok db' ->
     sync_pool_status db' p_pool_id = Ok db')
    /\ (sync_pool_status_internal db p_pool_id = Ok db' ->
        sync_pool_status_internal db' p_pool_id = Ok db').
Proof.
  intros db pid db'. split.
  - apply sync_pool_status_again.
  - apply sync_pool_status_internal_again.
Qed.

(** What the status of a pool that is not on its way, completed or
    cancelled is recomputed to. *)
Lemma next_status_waiting : forall s c m d,
  terminal s = false ->
  next_status s c m d
  = if (c <? m)%Z then WAITING_FOR_RIDERS
    else if d then READY_TO_START else WAITING_FOR_DRIVER.
Proof.
  intros s c m d T. unfold next_status. rewrite T.
  rewrite Z.geb_leb. destruct (Z.leb_spec m c); destruct (Z.ltb_spec c m);
    try lia; destruct d; reflexivity.
Qed.

Lemma filter_head_of_find : forall (B : Type) (f : B -> bool) (l : list B) x,
  find f l = Some x -> exists rest, filter f l = x :: rest.
Proof.
  intros B f l x. induction l as [| y l IH]; simpl; [discriminate |].
  destruct (f y) eqn:E.
  - intro H. injection H as <-. eexists. reflexivity.
  - exact IH.
Qed.

(** The driver trigger for further rows of the same pool, after a first
    recomputation. *)
Lemma sync_pool_status_on_driver_change_again : forall olds db p_pool_id d,
  Forall (fun p => Pools.id p = p_pool_id) olds ->
  sync_pool_status_internal db p_pool_id = Ok db ->
  sync_pool_status_on_driver_change db olds d = Ok db.
Proof.
  induction olds as [| OLD rest IH]; intros db pid d Hall Hfix; simpl.
  - reflexivity.
  - apply Forall_cons_iff in Hall. destruct Hall as [Hid Hrest].
    destruct (is_distinct_from (Pools.driver_id OLD) d).
    + rewrite Hid, Hfix. cbn [bind]. apply (IH _ _ _ Hrest Hfix).
    + cbn [bind]. apply (IH _ _ _ Hrest Hfix).
Qed.

(** X12: assigning or removing the driver of a pool that is still waiting
    sets its status from the number of its counted members: too few
    members give [WAITING_FOR_RIDERS], enough members give
    [READY_TO_START] with a driver and [WAITING_FOR_DRIVER] without. *)
Theorem driver_change_sets_the_status :
  forall db p_pool_id d v db' p,
    select_pool db p_pool_id = Some p ->
    terminal (Pools.status p) = false ->
    is_distinct_from (Pools.driver_id p) d = true ->
    set_pool_driver db p_pool_id d v = Ok db' ->
    pool_status_of db' p_pool_id
    = Some (if (count_members db p_pool_id
                  (pool_front_route_only db p_pool_id)
                <? Pools.min_passengers_to_start p)%Z
            then WAITING_FOR_RIDERS
            else if is_null d then WAITING_FOR_DRIVER else READY_TO_START).
Proof.
  intros db pid d v db' p S T Hd H. unfold set_pool_driver in H.
  apply bind_ok in H. destruct H as [db1 [H1 H]].
  destruct (filter_head_of_find _ _ _ _ S) as [rest Hf].
  change (filter (fun p => N.eqb (Pools.id p) pid) (pools db)) with
    (filter (fun p => N.eqb (Pools.id p) pid) (pools db)) in H.
  rewrite Hf in H. cbn [sync_pool_status_on_driver_change] in H.
  rewrite Hd in H. apply bind_ok in H. destruct H as [db2 [H2 H]].
  destruct (select_pool_id _ _ _ S) as [_ Hpid]. rewrite Hpid in H2.
  assert (Hrest : Forall (fun q => Pools.id q = pid) rest).
  { assert (Hall : Forall (fun q => Pools.id q = pid) (p :: rest)).
    { rewrite <- Hf. apply Forall_forall. intros q Hq.
      apply filter_In in Hq. destruct Hq as [_ Hq]. apply N.eqb_eq. exact Hq. }
    apply Forall_cons_iff in Hall. apply Hall. }
  rewrite (sync_pool_status_on_driver_change_again rest db2 pid d Hrest
             (sync_pool_status_internal_again _ _ _ H2)) in H.
  injection H as <-.
  unfold sync_pool_status_internal in H2.
  assert (Hid : forall p0, Pools.id (pool_with_driver d v p0) = Pools.id p0)
    by reflexivity.
  assert (S1 : select_pool db1 pid = Some (pool_with_driver d v p)).
  { rewrite (update_pools_select _ _ _ _ Hid H1), S. cbn [option_map].
    rewrite Hpid, N.eqb_refl. reflexivity. }
  rewrite S1 in H2.
  rewrite (pool_front_route_only_update _ _ _ _ Hid (fun p0 => eq_refl) H1)
    in H2.
  rewrite (count_members_update _ _ _ _ H1) in H2.
  unfold pool_status_of.
  rewrite (fun Hi => update_pools_select _ _ _ _ Hi H2)
    by (intro; reflexivity).
  rewrite S1.
  cbn [option_map pool_with_driver Pools.id]. rewrite Hpid, N.eqb_refl.
  cbn [pool_with_count_status Pools.status Pools.min_passengers_to_start
       Pools.driver_id].
  rewrite next_status_waiting by exact T.
  destruct d; reflexivity.
Qed.

Lemma pool_checks_without_driver : forall d v p,
  Pools.status p = STARTED \/ Pools.status p = COMPLETED ->
  d = None ->
  pool_checks (pool_with_driver d v p) = false.
Proof.
  intros d v p Hs ->. unfold pool_checks.
  cbn [pool_with_driver Pools.status Pools.driver_id Pools.current_passengers
       Pools.max_passengers is_null negb].
  destruct Hs as [-> | ->]; cbn; apply andb_false_r.
Qed.

Section PoolEdges.

Variable ST_Distance : geography -> geography -> Q.
Variable FORMAT : string -> list fmt_arg -> result string.

(** X13: a pool that is on its way or completed cannot lose its driver:
    the [UPDATE] that sets its [driver_id] to NULL violates
    [pool_driver_required_when_started], raises, and leaves the database
    as it was. *)
Theorem started_pool_keeps_its_driver :
  forall db p_pool_id v p now,
    In p (pools db) ->
    Pools.id p = p_pool_id ->
    Pools.status p = STARTED \/ Pools.status p = COMPLETED ->
    (exists msg, set_pool_driver db p_pool_id None v = Raise msg)
    /\ exec ST_Distance FORMAT db now (SetDriver p_pool_id None v) = db.
Proof.
  intros db pid v p now Hin Hid Hs.
  assert (H : exists msg, set_pool_driver db pid None v = Raise msg).
  { unfold set_pool_driver.
    destruct (update_pools_raises db pid (pool_with_driver None v) p Hin Hid)
      as [msg Hmsg]; [exact Hid | |].
    - apply pool_checks_without_driver; [exact Hs | reflexivity].
    - rewrite Hmsg. exists msg. reflexivity. }
  split; [exact H |].
  destruct H as [msg H]. unfold exec. cbn [step]. rewrite H. reflexivity.
Qed.

(** X14: the capacity of a pool is enforced on the write: a member insert
    that would bring the count of the pool above [max_passengers] raises,
    before any scoring, and leaves the database as it was. *)
Theorem overfull_insert_is_rolled_back :
  forall db NEW now p0,
    select_pool db (PoolMembers.pool_id NEW) = Some p0 ->
    (Pools.max_passengers p0
     < count_members (set_pool_members db (pool_members db ++ [NEW]))
         (PoolMembers.pool_id NEW)
         (pool_front_route_only db (PoolMembers.pool_id NEW)))%Z ->
    (exists msg, insert_pool_member ST_Distance FORMAT db NEW now = Raise msg)
    /\ exec ST_Distance FORMAT db now (InsertMember NEW) = db.
Proof.
  intros db NEW now p0 Hp Hfull.
  destruct (insert_beyond_capacity_raises ST_Distance FORMAT db NEW now p0
              Hp Hfull) as [msg H].
  split; [exists msg; exact H |].
  unfold exec. cbn [step]. rewrite H. reflexivity.
Qed.

(** X15: only the second member is scored.  When the pool does not count
    exactly two members after an insert, the insert does nothing but
    append the membership and recompute the count and status of the pool:
    no score is computed, nothing is cancelled, nobody is notified. *)
Theorem only_the_second_member_is_scored :
  forall db NEW now,
    pool_members_insertable db NEW = true ->
    count_members (set_pool_members db (pool_members db ++ [NEW]))
      (PoolMembers.pool_id NEW)
      (pool_front_route_only db (PoolMembers.pool_id NEW)) <> 2%Z ->
    insert_pool_member ST_Distance FORMAT db NEW now
    = sync_pool_status (set_pool_members db (pool_members db ++ [NEW]))
                       (PoolMembers.pool_id NEW).
Proof.
  intros db NEW now Hins Hcount. unfold insert_pool_member. rewrite Hins.
  destruct (sync_pool_status _ _) as [db2 | msg] eqn:H2; [| reflexivity].
  cbn [bind]. unfold update_pool_viability_score. cbv zeta.
  destruct (sync_pool_status_reads _ _ _ H2) as [Hfo Hc].
  rewrite Hfo, Hc.
  change (pool_front_route_only
            (set_pool_members db (pool_members db ++ [NEW]))
            (PoolMembers.pool_id NEW))
    with (pool_front_route_only db (PoolMembers.pool_id NEW)).
  destruct (Z.eqb_spec
              (count_members (set_pool_members db (pool_members db ++ [NEW]))
                 (PoolMembers.pool_id NEW)
                 (pool_front_route_only db (PoolMembers.pool_id NEW))) 2);
    [contradiction | reflexivity].
Qed.

End PoolEdges.

Lemma recomputation_is_idempotent_witness :
  exists db',
    sync_pool_status joining_db 100%N = Ok db'
    /\ sync_pool_status db' 100%N = Ok db'.
Proof.
  eexists. split; [vm_compute; reflexivity |].
  apply (proj1 (recomputation_is_idempotent joining_db 100%N _)).
  vm_compute. reflexivity.
Defined.

Lemma driver_change_sets_the_status_witness :
  exists db',
    set_pool_driver reordered_db 100%N (Some 90%N) None = Ok db'
    /\ pool_status_of db' 100%N = Some READY_TO_START.
Proof.
  eexists. split; [vm_compute; reflexivity |].
  apply (driver_change_sets_the_status reordered_db 100%N (Some 90%N) None _
           (example_pool 100%N WAITING_FOR_DRIVER None 2 4 2)).
  - reflexivity.
  - reflexivity.
  - reflexivity.
  - vm_compute. reflexivity.
Defined.

Lemma started_pool_keeps_its_driver_witness :
  (exists msg, set_pool_driver started_db 100%N None None = Raise msg)
  /\ exec grid_distance plain_format started_db 10%Z
          (SetDriver 100%N None None) = started_db.
Proof.
  apply (started_pool_keeps_its_driver grid_distance plain_format started_db
           100%N None (example_pool 100%N STARTED (Some 90%N) 1 4 1) 10%Z).
  - left. reflexivity.
  - reflexivity.
  - left. reflexivity.
Defined.

Lemma overfull_insert_is_rolled_back_witness :
  (exists msg,
      insert_pool_member grid_distance plain_format full_db third_member 10%Z
      = Raise msg)
  /\ exec grid_distance plain_format full_db 10%Z (InsertMember third_member)
     = full_db.
Proof.
  apply (overfull_insert_is_rolled_back grid_distance plain_format full_db
           third_member 10%Z full_started_pool).
  - reflexivity.
  - reflexivity.
Defined.

Lemma only_the_second_member_is_scored_witness :
  insert_pool_member grid_distance plain_format reordered_db third_member
    10%Z
  = sync_pool_status
      (set_pool_members reordered_db
         (pool_members reordered_db ++ [third_member]))
      (PoolMembers.pool_id third_member).
Proof.
  apply (only_the_second_member_is_scored grid_distance plain_format
           reordered_db third_member 10%Z).
  - reflexivity.
  - vm_compute. discriminate.
Defined.

(** ** Invariants of the pool tables *)

(** *** The [CHECK] constraints of [pools] *)

Lemma update_pools_valid : forall db p_pool_id f db',
  (forall p, Pools.id (f p) = Pools.id p) ->
  update_pools db p_pool_id f = Ok db' ->
  pools_valid db -> pools_valid db'.
Proof.
  intros db pid f db' Hid H Hv p' Hp'.
  destruct (update_pools_rows _ _ _ _ H) as [Hdb Hchk].
  destruct (N.eq_dec (Pools.id p') pid) as [E | E].
  - apply (Hchk p' Hp' E).
  - rewrite Hdb in Hp'. cbn [pools set_pools] in Hp'.
    apply in_map_iff in Hp'. destruct Hp' as [p [Hg Hp]].
    destruct (N.eqb (Pools.id p) pid) eqn:Ep.
    + exfalso. apply E. rewrite <- Hg, Hid. apply N.eqb_eq. exact Ep.
    + rewrite <- Hg. apply Hv. exact Hp.
Qed.

Lemma same_pools_valid : forall db db',
  pools db' = pools db -> pools_valid db -> pools_valid db'.
Proof. intros db db' E Hv p Hp. apply Hv. rewrite <- E. exact Hp. Qed.

Lemma sync_pool_status_valid : forall db p_pool_id db',
  sync_pool_status db p_pool_id = Ok db' -> pools_valid db -> pools_valid db'.
Proof.
  intros db pid db' H. unfold sync_pool_status in H.
  destruct (select_pool db pid).
  - eapply update_pools_valid; [| exact H]. intro; reflexivity.
  - injection H as <-. auto.
Qed.

Lemma sync_pool_status_internal_valid : forall db p_pool_id db',
  sync_pool_status_internal db p_pool_id = Ok db' ->
  pools_valid db -> pools_valid db'.
Proof.
  intros db pid db' H. unfold sync_pool_status_internal in H.
  destruct (select_pool db pid).
  - eapply update_pools_valid; [| exact H]. intro; reflexivity.
  - injection H as <-. auto.
Qed.

Lemma after_pool_members_change_valid : forall touched db db',
  after_pool_members_change db touched = Ok db' ->
  pools_valid db -> pools_valid db'.
Proof.
  induction touched as [| pm rest IH]; intros db db' H Hv; simpl in H.
  - injection H as <-. exact Hv.
  - apply bind_ok in H. destruct H as [db1 [H1 H2]].
    apply (IH _ _ H2). apply (sync_pool_status_valid _ _ _ H1 Hv).
Qed.

Lemma cascade_pool_cancellation_valid : forall db OLD NEW now db',
  cascade_pool_cancellation db OLD NEW now = Ok db' ->
  pools_valid db -> pools_valid db'.
Proof.
  intros db OLD NEW now db' H Hv. unfold cascade_pool_cancellation in H.
  destruct (becomes_cancelled OLD NEW).
  - apply (after_pool_members_change_valid _ _ _ H).
    eapply same_pools_valid; [| exact Hv]. reflexivity.
  - injection H as <-. exact Hv.
Qed.

Lemma cascade_pool_cancel_valid : forall olds db f now db',
  cascade_pool_cancel db olds f now = Ok db' ->
  pools_valid db -> pools_valid db'.
Proof.
  induction olds as [| OLD rest IH]; intros db f now db' H Hv; simpl in H.
  - injection H as <-. exact Hv.
  - apply bind_ok in H. destruct H as [db1 [H1 H2]].
    apply (IH _ _ _ _ H2).
    destruct (becomes_cancelled OLD (f OLD)).
    + apply (cascade_pool_cancellation_valid _ _ _ _ _ H1 Hv).
    + injection H1 as <-. exact Hv.
Qed.

Lemma update_pool_cancelled_valid : forall db p_pool_id now db',
  update_pool_cancelled db p_pool_id now = Ok db' ->
  pools_valid db -> pools_valid db'.
Proof.
  intros db pid now db' H Hv. unfold update_pool_cancelled in H.
  apply bind_ok in H. destruct H as [db1 [H1 H2]].
  apply (cascade_pool_cancel_valid _ _ _ _ _ H2).
  eapply update_pools_valid; [| exact H1 | exact Hv]. intro; reflexivity.
Qed.

(** *** [current_passengers] and the counted members *)

Lemma pool_front_route_only_frame : forall db db' q,
  pools db' = pools db ->
  pool_scoring_config db' = pool_scoring_config db ->
  pool_front_route_only db' q = pool_front_route_only db q.
Proof.
  intros db db' q Hp Hc.
  unfold pool_front_route_only, select_pool, config_of_pool.
  rewrite Hp, Hc. reflexivity.
Qed.

Lemma in_sync_at_frame : forall db db' q,
  pools db' = pools db ->
  pool_scoring_config db' = pool_scoring_config db ->
  (forall fo, count_members db' q fo = count_members db q fo) ->
  in_sync_at db q -> in_sync_at db' q.
Proof.
  intros db db' q Hp Hc Hn Hs p Hin Hid.
  rewrite Hn, (pool_front_route_only_frame _ _ _ Hp Hc).
  apply Hs; [rewrite <- Hp; exact Hin | exact Hid].
Qed.

Lemma update_pools_in_sync : forall db p_pool_id f db',
  (forall p, Pools.id (f p) = Pools.id p) ->
  (forall p, Pools.current_passengers (f p) = Pools.current_passengers p) ->
  (forall p, Pools.scoring_config_id (f p) = Pools.scoring_config_id p) ->
  update_pools db p_pool_id f = Ok db' ->
  forall q, in_sync_at db q -> in_sync_at db' q.
Proof.
  intros db pid f db' Hid Hcp Hcfg H q Hs p' Hp' Hq.
  destruct (update_pools_rows _ _ _ _ H) as [Hdb _].
  rewrite (count_members_update _ _ _ _ H).
  rewrite (pool_front_route_only_update _ _ _ _ Hid Hcfg H).
  rewrite Hdb in Hp'. cbn [pools set_pools] in Hp'.
  apply in_map_iff in Hp'. destruct Hp' as [p [Hg Hp]].
  subst p'. destruct (N.eqb (Pools.id p) pid).
  - rewrite Hcp. apply Hs; [exact Hp |]. rewrite <- Hid. exact Hq.
  - apply Hs; assumption.
Qed.

(** The member trigger brings the pool that it recomputes in line, and
    leaves the other pools as they are. *)
Lemma sync_pool_status_in_sync : forall db p_pool_id db',
  sync_pool_status db p_pool_id = Ok db' ->
  forall q, q = p_pool_id \/ in_sync_at db q -> in_sync_at db' q.
Proof.
  intros db pid db' H q Hq.
  destruct (sync_pool_status_reads _ _ _ H) as [Hfo Hn].
  unfold sync_pool_status in H.
  destruct (select_pool db pid) as [p0 |] eqn:S.
  - destruct (update_pools_rows _ _ _ _ H) as [Hdb _].
    intros p' Hp' Hid'. rewrite Hn, Hfo.
    rewrite Hdb in Hp'. cbn [pools set_pools] in Hp'.
    apply in_map_iff in Hp'. destruct Hp' as [p [Hg Hp]].
    subst p'. destruct (N.eqb (Pools.id p) pid) eqn:E.
    + cbn [pool_with_count_status Pools.current_passengers Pools.id] in *.
      apply N.eqb_eq in E. rewrite <- Hid', E. reflexivity.
    + destruct Hq as [-> | Hs].
      * apply N.eqb_neq in E. contradiction.
      * apply Hs; assumption.
  - injection H as <-. destruct Hq as [-> | Hs]; [| exact Hs].
    intros p Hp Hid. exfalso. unfold select_pool in S.
    rewrite find_none_iff in S. specialize (S p Hp).
    rewrite Hid, N.eqb_refl in S. discriminate.
Qed.

Lemma sync_pool_status_internal_in_sync : forall db p_pool_id db',
  sync_pool_status_internal db p_pool_id = Ok db' ->
  forall q, in_sync_at db q -> in_sync_at db' q.
Proof.
  intros db pid db' H q. unfold sync_pool_status_internal in H.
  destruct (select_pool db pid) as [p0 |].
  - eapply update_pools_in_sync; [| | | exact H]; intro; reflexivity.
  - injection H as <-. auto.
Qed.

Lemma after_pool_members_change_in_sync : forall touched db db',
  after_pool_members_change db touched = Ok db' ->
  forall q,
    In q (map PoolMembers.pool_id touched) \/ in_sync_at db q ->
    in_sync_at db' q.
Proof.
  induction touched as [| pm rest IH]; intros db db' H q Hq; simpl in H.
  - injection H as <-. destruct Hq as [[] | Hs]. exact Hs.
  - apply bind_ok in H. destruct H as [db1 [H1 H2]].
    apply (IH _ _ H2). cbn [map In] in Hq.
    destruct Hq as [[E | Hin] | Hs].
    + right. apply (sync_pool_status_in_sync _ _ _ H1). left. auto.
    + left. exact Hin.
    + right. apply (sync_pool_status_in_sync _ _ _ H1). right. exact Hs.
Qed.

Lemma filter_map_length : forall (B : Type) (P : B -> bool) (g : B -> B)
                                 (l : list B),
  (forall x, In x l -> P (g x) = P x) ->
  List.length (filter P (map g l)) = List.length (filter P l).
Proof.
  intros B P g l H. induction l as [| y l IH]; simpl; [reflexivity |].
  rewrite (H y (or_introl eq_refl)).
  assert (IH' := IH (fun x Hx => H x (or_intror Hx))).
  destruct (P y); simpl; congruence.
Qed.

Lemma filter_filter_length : forall (B : Type) (P hit : B -> bool)
                                    (l : list B),
  (forall x, In x l -> hit x = true -> P x = false) ->
  List.length (filter P (filter (fun x => negb (hit x)) l))
  = List.length (filter P l).
Proof.
  intros B P hit l H. induction l as [| y l IH]; simpl; [reflexivity |].
  assert (IH' := IH (fun x Hx => H x (or_intror Hx))).
  destruct (hit y) eqn:E; simpl.
  - rewrite (H y (or_introl eq_refl) E). exact IH'.
  - destruct (P y); simpl; congruence.
Qed.

Lemma counted_member_other_pool : forall q fo pm,
  PoolMembers.pool_id pm <> q -> counted_member q fo pm = false.
Proof.
  intros q fo pm H. unfold counted_member.
  replace (N.eqb (PoolMembers.pool_id pm) q) with false; [reflexivity |].
  symmetry. apply N.eqb_neq. exact H.
Qed.

(** An [UPDATE] of [pool_members] that keeps the pool of every row leaves
    in line every pool none of whose rows it rewrote. *)
Lemma members_update_in_sync : forall db (hit : PoolMembers.row -> bool) h q,
  (forall pm, PoolMembers.pool_id (h pm) = PoolMembers.pool_id pm) ->
  in_sync_at db q ->
  In q (map PoolMembers.pool_id (filter hit (pool_members db)))
  \/ in_sync_at
       (set_pool_members db
          (map (fun pm => if hit pm then h pm else pm) (pool_members db))) q.
Proof.
  intros db hit h q Hpool Hs.
  destruct (in_dec N.eq_dec q
              (map PoolMembers.pool_id (filter hit (pool_members db))))
    as [Hin | Hout]; [left; exact Hin | right].
  apply (in_sync_at_frame db); try reflexivity; [| exact Hs].
  intro fo. unfold count_members. cbn [pool_members set_pool_members].
  f_equal. apply filter_map_length. intros pm Hpm.
  destruct (hit pm) eqn:E; [| reflexivity].
  assert (Hne : PoolMembers.pool_id pm <> q).
  { intro Eq. apply Hout. apply in_map_iff. exists pm. split; [exact Eq |].
    apply filter_In. auto. }
  rewrite !counted_member_other_pool; [reflexivity | exact Hne |].
  rewrite Hpool. exact Hne.
Qed.

Lemma members_delete_in_sync : forall db (hit : PoolMembers.row -> bool) q,
  in_sync_at db q ->
  In q (map PoolMembers.pool_id (filter hit (pool_members db)))
  \/ in_sync_at
       (set_pool_members db
          (filter (fun pm => negb (hit pm)) (pool_members db))) q.
Proof.
  intros db hit q Hs.
  destruct (in_dec N.eq_dec q
              (map PoolMembers.pool_id (filter hit (pool_members db))))
    as [Hin | Hout]; [left; exact Hin | right].
  apply (in_sync_at_frame db); try reflexivity; [| exact Hs].
  intro fo. unfold count_members. cbn [pool_members set_pool_members].
  f_equal. apply filter_filter_length. intros pm Hpm E.
  apply counted_member_other_pool. intro Eq. apply Hout.
  apply in_map_iff. exists pm. split; [exact Eq |]. apply filter_In. auto.
Qed.

Lemma members_insert_in_sync : forall db NEW q,
  in_sync_at db q ->
  q = PoolMembers.pool_id NEW
  \/ in_sync_at (set_pool_members db (pool_members db ++ [NEW])) q.
Proof.
  intros db NEW q Hs.
  destruct (N.eq_dec q (PoolMembers.pool_id NEW)) as [E | E];
    [left; exact E | right].
  apply (in_sync_at_frame db); try reflexivity; [| exact Hs].
  intro fo. unfold count_members. cbn [pool_members set_pool_members].
  f_equal. rewrite filter_app, length_app. cbn [filter].
  rewrite counted_member_other_pool by (intro E'; apply E; auto).
  cbn. lia.
Qed.

Lemma same_members_in_sync : forall db db',
  pools db' = pools db ->
  pool_scoring_config db' = pool_scoring_config db ->
  pool_members db' = pool_members db ->
  passengers_in_sync db -> passengers_in_sync db'.
Proof.
  intros db db' Hp Hc Hm Hs q.
  apply (in_sync_at_frame db); try assumption; [| apply Hs].
  intro fo. unfold count_members. rewrite Hm. reflexivity.
Qed.

Lemma cascade_pool_cancellation_in_sync : forall db OLD NEW now db',
  cascade_pool_cancellation db OLD NEW now = Ok db' ->
  passengers_in_sync db -> passengers_in_sync db'.
Proof.
  intros db OLD NEW now db' H Hs. unfold cascade_pool_cancellation in H.
  destruct (becomes_cancelled OLD NEW); [| injection H as <-; exact Hs].
  intro q. apply (after_pool_members_change_in_sync _ _ _ H).
  match type of H with
  | after_pool_members_change (set_pool_members ?d _) _ = _ =>
      apply (members_update_in_sync d (member_active (Pools.id NEW))
               (member_left now) q)
  end; [intro; reflexivity |].
  apply (same_members_in_sync db); try reflexivity. exact Hs.
Qed.

Lemma cascade_pool_cancel_in_sync : forall olds db f now db',
  cascade_pool_cancel db olds f now = Ok db' ->
  passengers_in_sync db -> passengers_in_sync db'.
Proof.
  induction olds as [| OLD rest IH]; intros db f now db' H Hs; simpl in H.
  - injection H as <-. exact Hs.
  - apply bind_ok in H. destruct H as [db1 [H1 H2]].
    apply (IH _ _ _ _ H2).
    destruct (becomes_cancelled OLD (f OLD)).
    + apply (cascade_pool_cancellation_in_sync _ _ _ _ _ H1 Hs).
    + injection H1 as <-. exact Hs.
Qed.

Lemma update_pool_cancelled_in_sync : forall db p_pool_id now db',
  update_pool_cancelled db p_pool_id now = Ok db' ->
  passengers_in_sync db -> passengers_in_sync db'.
Proof.
  intros db pid now db' H Hs. unfold update_pool_cancelled in H.
  apply bind_ok in H. destruct H as [db1 [H1 H2]].
  apply (cascade_pool_cancel_in_sync _ _ _ _ _ H2).
  intro q. eapply update_pools_in_sync; [| | | exact H1 | apply Hs];
    intro; reflexivity.
Qed.

Lemma leave_pool_member_in_sync : forall db member_id now db',
  leave_pool_member db member_id now = Ok db' ->
  passengers_in_sync db -> passengers_in_sync db'.
Proof.
  intros db mid now db' H Hs q. unfold leave_pool_member in H.
  apply (after_pool_members_change_in_sync _ _ _ H).
  apply (members_update_in_sync db
           (fun pm => N.eqb (PoolMembers.id pm) mid) (member_left now) q);
    [intro; reflexivity | apply Hs].
Qed.

Lemma delete_pool_member_in_sync : forall db member_id db',
  delete_pool_member db member_id = Ok db' ->
  passengers_in_sync db -> passengers_in_sync db'.
Proof.
  intros db mid db' H Hs q. unfold delete_pool_member in H.
  apply (after_pool_members_change_in_sync _ _ _ H).
  apply (members_delete_in_sync db
           (fun pm => N.eqb (PoolMembers.id pm) mid) q).
  apply Hs.
Qed.

Lemma sync_pool_status_on_driver_change_in_sync : forall olds db d db',
  sync_pool_status_on_driver_change db olds d = Ok db' ->
  (pools_valid db -> pools_valid db')
  /\ (passengers_in_sync db -> passengers_in_sync db').
Proof.
  induction olds as [| OLD rest IH]; intros db d db' H; simpl in H.
  - injection H as <-. auto.
  - apply bind_ok in H. destruct H as [db1 [H1 H2]].
    destruct (IH _ _ _ H2) as [IHv IHs].
    destruct (is_distinct_from (Pools.driver_id OLD) d).
    + split; intro G.
      * apply IHv. apply (sync_pool_status_internal_valid _ _ _ H1 G).
      * apply IHs. intro q.
        apply (sync_pool_status_internal_in_sync _ _ _ H1). apply G.
    + injection H1 as <-. auto.
Qed.

Lemma set_pool_driver_in_sync : forall db p_pool_id d v db',
  set_pool_driver db p_pool_id d v = Ok db' ->
  (pools_valid db -> pools_valid db')
  /\ (passengers_in_sync db -> passengers_in_sync db').
Proof.
  intros db pid d v db' H. unfold set_pool_driver in H.
  apply bind_ok in H. destruct H as [db1 [H1 H2]].
  destruct (sync_pool_status_on_driver_change_in_sync _ _ _ _ H2) as [Gv Gs].
  split; intro G.
  - apply Gv. eapply update_pools_valid; [| exact H1 | exact G].
    intro; reflexivity.
  - apply Gs. intro q.
    eapply update_pools_in_sync; [| | | exact H1 | apply G]; intro; reflexivity.
Qed.

Section Invariants.

Variable ST_Distance : geography -> geography -> Q.
Variable FORMAT : string -> list fmt_arg -> result string.

Lemma update_pool_viability_score_in_sync : forall db NEW now db',
  update_pool_viability_score ST_Distance FORMAT db NEW now = Ok db' ->
  (pools_valid db -> pools_valid db')
  /\ (passengers_in_sync db -> passengers_in_sync db').
Proof.
  intros db NEW now db' H. unfold update_pool_viability_score in H.
  cbv zeta in H.
  destruct (count_members db _ _ =? 2)%Z; [| injection H as <-; auto].
  apply bind_ok in H. destruct H as [sc [_ H]].
  apply bind_ok in H. destruct H as [db1 [H1 H]].
  apply bind_ok in H. destruct H as [db3 [H3 H]].
  assert (V13 : pools_valid db -> pools_valid db3).
  { intro G. apply (after_pool_members_change_valid _ _ _ H3).
    apply (same_pools_valid db1); [reflexivity |].
    eapply update_pools_valid; [| exact H1 | exact G]. intro; reflexivity. }
  assert (S13 : passengers_in_sync db -> passengers_in_sync db3).
  { intros G q. apply (after_pool_members_change_in_sync _ _ _ H3).
    apply (members_update_in_sync db1
             (fun pm => N.eqb (PoolMembers.id pm) (PoolMembers.id NEW))
             (member_with_score (ROUND (total_score sc) 2)
                                (Some (breakdown sc))) q);
      [intro; reflexivity |].
    eapply update_pools_in_sync; [| | | exact H1 | apply G];
      intro; reflexivity. }
  destruct (is_true (tv_not (is_viable sc))).
  - apply bind_ok in H. destruct H as [db4 [H4 H]].
    apply bind_ok in H. destruct H as [inserted [_ H]].
    injection H as <-. split; intro G.
    + apply (same_pools_valid db4); [reflexivity |].
      apply (update_pool_cancelled_valid _ _ _ _ H4). auto.
    + apply (same_members_in_sync db4); try reflexivity.
      apply (update_pool_cancelled_in_sync _ _ _ _ H4). auto.
  - injection H as <-. auto.
Qed.

Lemma insert_pool_member_in_sync : forall db NEW now db',
  insert_pool_member ST_Distance FORMAT db NEW now = Ok db' ->
  (pools_valid db -> pools_valid db')
  /\ (passengers_in_sync db -> passengers_in_sync db').
Proof.
  intros db NEW now db' H. unfold insert_pool_member in H.
  destruct (pool_members_insertable db NEW); [| discriminate].
  apply bind_ok in H. destruct H as [db2 [H2 H]].
  destruct (update_pool_viability_score_in_sync _ _ _ _ H) as [Gv Gs].
  split; intro G.
  - apply Gv. apply (sync_pool_status_valid _ _ _ H2).
    apply (same_pools_valid db); [reflexivity | exact G].
  - apply Gs. intro q. apply (sync_pool_status_in_sync _ _ _ H2).
    apply members_insert_in_sync. apply G.
Qed.

Lemma exec_in_sync : forall db now e,
  (pools_valid db -> pools_valid (exec ST_Distance FORMAT db now e))
  /\ (passengers_in_sync db ->
      passengers_in_sync (exec ST_Distance FORMAT db now e)).
Proof.
  intros db now e. unfold exec.
  destruct (step ST_Distance FORMAT db now e) as [db1 | msg] eqn:H;
    [| auto].
  destruct e; simpl in H.
  - apply (insert_pool_member_in_sync _ _ _ _ H).
  - split; intro G.
    + unfold leave_pool_member in H.
      apply (after_pool_members_change_valid _ _ _ H).
      apply (same_pools_valid db); [reflexivity | exact G].
    + apply (leave_pool_member_in_sync _ _ _ _ H G).
  - split; intro G.
    + unfold delete_pool_member in H.
      apply (after_pool_members_change_valid _ _ _ H).
      apply (same_pools_valid db); [reflexivity | exact G].
    + apply (delete_pool_member_in_sync _ _ _ H G).
  - apply (set_pool_driver_in_sync _ _ _ _ _ H).
  - split; intro G.
    + apply (sync_pool_status_internal_valid _ _ _ H G).
    + intro q. apply (sync_pool_status_internal_in_sync _ _ _ H). apply G.
Qed.

(** X16: the constraints of [pools] are invariants of the state machine.
    Along every sequence of member inserts, leaves and deletes, driver
    writes and recomputations (a statement that raises being rolled back),
    no pool ever has more passengers than [max_passengers] or a negative
    count, and a pool that is on its way or completed always has a
    driver. *)
Theorem pool_constraints_are_invariant :
  forall evs db,
    pools_valid db ->
    forall p,
      In p (pools (run ST_Distance FORMAT db evs)) ->
      (0 <= Pools.current_passengers p <= Pools.max_passengers p)%Z
      /\ (Pools.status p = STARTED \/ Pools.status p = COMPLETED ->
          Pools.driver_id p <> None).
Proof.
  intros evs db Hv.
  assert (G : pools_valid (run ST_Distance FORMAT db evs)).
  { revert db Hv. induction evs as [| [now e] rest IH]; intros db Hv; simpl.
    - exact Hv.
    - apply IH. apply (proj1 (exec_in_sync db now e) Hv). }
  intros p Hp. specialize (G p Hp). unfold pool_checks in G.
  apply andb_prop in G. destruct G as [G G3].
  apply andb_prop in G. destruct G as [G1 G2].
  apply Z.leb_le in G1. apply Z.leb_le in G2.
  split; [lia |].
  intros Hs E. rewrite E in G3.
  destruct Hs as [Hs | Hs]; rewrite Hs in G3; discriminate.
Qed.

(** X17: the passenger count mirrors the membership.  If
    [current_passengers] of every pool equals the number of its counted
    members (its active members, on the front route when its
    configuration asks for that), then it still does after every sequence
    of member inserts, leaves and deletes, driver writes and
    recomputations, including the inserts that cancel the pool. *)
Theorem passenger_count_mirrors_membership :
  forall evs db,
    passengers_in_sync db ->
    forall p,
      In p (pools (run ST_Distance FORMAT db evs)) ->
      Pools.current_passengers p
      = count_members (run ST_Distance FORMAT db evs) (Pools.id p)
          (pool_front_route_only (run ST_Distance FORMAT db evs)
                                 (Pools.id p)).
Proof.
  intros evs db Hs.
  assert (G : passengers_in_sync (run ST_Distance FORMAT db evs)).
  { revert db Hs. induction evs as [| [now e] rest IH]; intros db Hs; simpl.
    - exact Hs.
    - apply IH. apply (proj2 (exec_in_sync db now e) Hs). }
  intros p Hp. apply (G (Pools.id p) p Hp). reflexivity.
Qed.

End Invariants.

Lemma pool_constraints_are_invariant_witness :
  exists p,
    In p (pools (run grid_distance plain_format forming_db busy_events))
    /\ (0 <= Pools.current_passengers p <= Pools.max_passengers p)%Z
    /\ (Pools.status p = STARTED \/ Pools.status p = COMPLETED ->
        Pools.driver_id p <> None).
Proof.
  eexists. split; [vm_compute; left; reflexivity |].
  apply (pool_constraints_are_invariant grid_distance plain_format busy_events
           forming_db).
  - intros p Hp. simpl in Hp. destruct Hp as [<- | []]. reflexivity.
  - vm_compute. left. reflexivity.
Defined.

Lemma passenger_count_mirrors_membership_witness :
  exists p,
    In p (pools (run grid_distance plain_format forming_db busy_events))
    /\ Pools.current_passengers p
       = count_members (run grid_distance plain_format forming_db busy_events)
           (Pools.id p)
           (pool_front_route_only
              (run grid_distance plain_format forming_db busy_events)
              (Pools.id p)).
Proof.
  eexists. split; [vm_compute; left; reflexivity |].
  apply (passenger_count_mirrors_membership grid_distance plain_format
           busy_events forming_db).
  - intros q p Hp Hid. simpl in Hp. destruct Hp as [<- | []].
    subst q. reflexivity.
  - vm_compute. left. reflexivity.
Defined.

(** ** Formation failure *)

Lemma not_yet_cancelled_iff : forall db q,
  not_yet_cancelled db q = true
  <-> exists p, In p (pools db) /\ Pools.id p = q
                /\ Pools.status p <> CANCELLED.
Proof.
  intros db q. unfold not_yet_cancelled. rewrite existsb_exists.
  split; intros [p [Hp H]]; exists p.
  - apply andb_prop in H. destruct H as [H1 H2].
    apply N.eqb_eq in H1. split; [exact Hp |]. split; [exact H1 |].
    intro E. rewrite E in H2. discriminate.
  - destruct H as [H1 H2]. split; [exact Hp |].
    apply andb_true_intro. split; [apply N.eqb_eq; exact H1 |].
    destruct (pool_status_eqb (Pools.status p) CANCELLED) eqn:E;
      [| reflexivity].
    apply pool_status_eqb_eq in E. contradiction.
Qed.

Lemma not_yet_cancelled_update : forall db p_pool_id f db' q,
  (forall p, Pools.id (f p) = Pools.id p) ->
  (forall p, Pools.status (f p) = CANCELLED -> Pools.status p = CANCELLED) ->
  update_pools db p_pool_id f = Ok db' ->
  not_yet_cancelled db q = true -> not_yet_cancelled db' q = true.
Proof.
  intros db pid f db' q Hid Hst H Hn.
  destruct (update_pools_rows _ _ _ _ H) as [Hdb _].
  apply not_yet_cancelled_iff in Hn. destruct Hn as [p [Hp [Hq Hs]]].
  apply not_yet_cancelled_iff.
  exists (if N.eqb (Pools.id p) pid then f p else p).
  split; [| split].
  - rewrite Hdb. cbn [pools set_pools].
    apply (in_map (fun p => if N.eqb (Pools.id p) pid then f p else p)).
    exact Hp.
  - destruct (N.eqb (Pools.id p) pid); [rewrite Hid |]; exact Hq.
  - destruct (N.eqb (Pools.id p) pid); [| exact Hs].
    intro E. apply Hs, Hst, E.
Qed.

Lemma sync_pool_status_not_yet_cancelled : forall db p_pool_id db' q,
  sync_pool_status db p_pool_id = Ok db' ->
  not_yet_cancelled db q = true -> not_yet_cancelled db' q = true.
Proof.
  intros db pid db' q H. unfold sync_pool_status in H.
  destruct (select_pool db pid).
  - eapply not_yet_cancelled_update; [| | exact H].
    + intro; reflexivity.
    + intros p E. cbn [pool_with_count_status Pools.status] in E.
      apply (next_status_cancelled _ _ _ _ E).
  - injection H as <-. auto.
Qed.

Lemma after_pool_members_change_not_yet_cancelled : forall touched db db' q,
  after_pool_members_change db touched = Ok db' ->
  not_yet_cancelled db q = true -> not_yet_cancelled db' q = true.
Proof.
  induction touched as [| pm rest IH]; intros db db' q H Hn; simpl in H.
  - injection H as <-. exact Hn.
  - apply bind_ok in H. destruct H as [db1 [H1 H2]].
    apply (IH _ _ _ H2).
    apply (sync_pool_status_not_yet_cancelled _ _ _ _ H1 Hn).
Qed.

Lemma quiet_refl : forall db, quiet db db.
Proof. intro db. repeat split; auto. Qed.

Lemma quiet_trans : forall a b c, quiet a b -> quiet b c -> quiet a c.
Proof.
  intros a b c [N1 [R1 C1]] [N2 [R2 C2]].
  split; [congruence |]. split; [congruence |]. auto.
Qed.

(** A statement that leaves [pools], [rides] and [notifications] alone. *)
Lemma same_tables_quiet : forall a b,
  pools b = pools a -> rides b = rides a ->
  notifications b = notifications a -> quiet a b.
Proof.
  intros a b P R N. split; [exact N |]. split; [exact R |].
  intros q H. unfold not_yet_cancelled in *. rewrite P. exact H.
Qed.

Lemma update_pools_quiet : forall db p_pool_id f db',
  (forall p, Pools.id (f p) = Pools.id p) ->
  (forall p, Pools.status (f p) = CANCELLED -> Pools.status p = CANCELLED) ->
  update_pools db p_pool_id f = Ok db' -> quiet db db'.
Proof.
  intros db pid f db' Hid Hst H.
  destruct (update_pools_other_tables _ _ _ _ H) as [R [_ [N _]]].
  split; [exact N |]. split; [exact R |].
  intros q. apply (not_yet_cancelled_update _ _ _ _ _ Hid Hst H).
Qed.

Lemma sync_pool_status_quiet : forall db v_pool_id db',
  sync_pool_status db v_pool_id = Ok db' -> quiet db db'.
Proof.
  intros db pid db' H. unfold sync_pool_status in H.
  destruct (select_pool db pid).
  - eapply update_pools_quiet; [| | exact H].
    + intro; reflexivity.
    + intros p E. cbn [pool_with_count_status Pools.status] in E.
      apply (next_status_cancelled _ _ _ _ E).
  - injection H as <-. apply quiet_refl.
Qed.

Lemma sync_pool_status_internal_quiet : forall db p_pool_id db',
  sync_pool_status_internal db p_pool_id = Ok db' -> quiet db db'.
Proof.
  intros db pid db' H. unfold sync_pool_status_internal in H.
  destruct (select_pool db pid).
  - eapply update_pools_quiet; [| | exact H].
    + intro; reflexivity.
    + intros p E. cbn [pool_with_count_status Pools.status] in E.
      apply (next_status_cancelled _ _ _ _ E).
  - injection H as <-. apply quiet_refl.
Qed.

Lemma after_pool_members_change_quiet : forall touched db db',
  after_pool_members_change db touched = Ok db' -> quiet db db'.
Proof.
  induction touched as [| pm rest IH]; intros db db' H; simpl in H.
  - injection H as <-. apply quiet_refl.
  - apply bind_ok in H. destruct H as [db1 [H1 H2]].
    eapply quiet_trans; [apply (sync_pool_status_quiet _ _ _ H1) |].
    apply (IH _ _ H2).
Qed.

Lemma sync_pool_status_on_driver_change_quiet : forall olds db d db',
  sync_pool_status_on_driver_change db olds d = Ok db' -> quiet db db'.
Proof.
  induction olds as [| OLD rest IH]; intros db d db' H; simpl in H.
  - injection H as <-. apply quiet_refl.
  - apply bind_ok in H. destruct H as [db1 [H1 H2]].
    eapply quiet_trans; [| apply (IH _ _ _ H2)].
    destruct (is_distinct_from (Pools.driver_id OLD) d).
    + apply (sync_pool_status_internal_quiet _ _ _ H1).
    + injection H1 as <-. apply quiet_refl.
Qed.

Lemma map_result_ok_in :
  forall (A B : Type) (f : A -> result B) (l : list A) (ys : list B) (x : A),
    map_result f l = Ok ys -> In x l -> exists y, f x = Ok y.
Proof.
  intros A B f l. induction l as [| a l IH]; intros ys x H Hin; simpl in H.
  - destruct Hin.
  - apply bind_ok in H. destruct H as [y [Hy H]].
    apply bind_ok in H. destruct H as [ys' [Hys _]].
    destruct Hin as [<- | Hin]; [exists y; exact Hy |].
    apply (IH ys' x Hys Hin).
Qed.

(** A pool that counts a member has a membership row. *)
Lemma counted_member_exists : forall db q fo,
  (0 < count_members db q fo)%Z ->
  exists pm, In pm (pool_members db) /\ PoolMembers.pool_id pm = q.
Proof.
  intros db q fo H. unfold count_members in H.
  destruct (filter (counted_member q (is_true fo)) (pool_members db))
    as [| pm rest] eqn:F; [simpl in H; lia |].
  assert (Hin : In pm (filter (counted_member q (is_true fo))
                              (pool_members db)))
    by (rewrite F; left; reflexivity).
  apply filter_In in Hin. destruct Hin as [Hin Hc].
  exists pm. split; [exact Hin |].
  unfold counted_member in Hc.
  apply andb_prop in Hc. destruct Hc as [Hc _].
  apply andb_prop in Hc. destruct Hc as [Hc _].
  apply N.eqb_eq. exact Hc.
Qed.

Section FormationFailure.

Variable ST_Distance : geography -> geography -> Q.
Variable FORMAT : string -> list fmt_arg -> result string.

Hypothesis FORMAT_rejects : rejects_unrecognized FORMAT.

(** The text of the notification is never rendered. *)
Lemma pool_cancelled_notification_raises : forall pm p_pool_id sc,
  exists msg, pool_cancelled_notification FORMAT pm p_pool_id sc = Raise msg.
Proof.
  intros pm pid sc. unfold pool_cancelled_notification.
  destruct (FORMAT_rejects "Pool cancelled: %s (Score: %.1f/100)"
              [FText (rejection_reason sc); FNum (total_score sc)] eq_refl)
    as [msg Hmsg].
  rewrite Hmsg. exists msg. reflexivity.
Qed.

(** The scoring trigger returns only where it does not cancel. *)
Lemma update_pool_viability_score_quiet : forall db NEW now db',
  update_pool_viability_score ST_Distance FORMAT db NEW now = Ok db' ->
  quiet db db' /\ frozen db db'.
Proof.
  intros db NEW now db' H. unfold update_pool_viability_score in H.
  cbv zeta in H.
  destruct (Z.eqb_spec
              (count_members db (PoolMembers.pool_id NEW)
                 (pool_front_route_only db (PoolMembers.pool_id NEW))) 2)
    as [Hcount | _].
  2:{ injection H as <-. split; [apply quiet_refl | apply frozen_refl]. }
  set (pid := PoolMembers.pool_id NEW) in *.
  apply bind_ok in H. destruct H as [sc [_ H]].
  apply bind_ok in H. destruct H as [db1 [H1 H]].
  apply bind_ok in H. destruct H as [db3 [H3 H]].
  assert (Q13 : quiet db db3).
  { eapply quiet_trans.
    - eapply update_pools_quiet; [| | exact H1].
      + intro; reflexivity.
      + intros p E. exact E.
    - eapply quiet_trans; [| apply (after_pool_members_change_quiet _ _ _ H3)].
      apply same_tables_quiet; reflexivity. }
  assert (F13 : frozen db db3).
  { eapply frozen_trans.
    - eapply update_pools_frozen; [| | exact H1]; intros; reflexivity.
    - eapply frozen_trans;
        [| apply (after_pool_members_change_frozen _ _ _ H3)].
      apply same_pools_frozen. reflexivity. }
  destruct (is_true (tv_not (is_viable sc))).
  2:{ injection H as <-. split; assumption. }
  exfalso.
  apply bind_ok in H. destruct H as [db4 [H4 H]].
  apply bind_ok in H. destruct H as [inserted [Hins _]].
  destruct (counted_member_exists db pid (pool_front_route_only db pid))
    as [pm [Hpm Hpid]]; [lia |].
  destruct (update_pools_other_tables _ _ _ _ H1) as [_ [M1 _]].
  destruct (after_pool_members_change_tables _ _ _ H3) as [_ [M3 _]].
  cbn [pool_members set_pool_members] in M3.
  destruct (update_pool_cancelled_tables _ _ _ _ H4) as [_ [M4 _]].
  rewrite M3, M1 in M4.
  set (g := fun pm0 : PoolMembers.row =>
              if not_yet_cancelled db3 pid
              then leave_member_of pid now pm0 else pm0) in *.
  set (h := fun pm0 : PoolMembers.row =>
              if N.eqb (PoolMembers.id pm0) (PoolMembers.id NEW)
              then member_with_score (ROUND (total_score sc) 2)
                     (Some (breakdown sc)) pm0
              else pm0) in *.
  assert (Hin : In (g (h pm))
                   (filter (fun pm0 => N.eqb (PoolMembers.pool_id pm0) pid)
                           (pool_members db4))).
  { apply filter_In. split.
    - rewrite M4. apply in_map. apply in_map. exact Hpm.
    - apply N.eqb_eq. rewrite <- Hpid. unfold g, h, leave_member_of.
      destruct (not_yet_cancelled db3 pid);
        destruct (N.eqb (PoolMembers.id pm) (PoolMembers.id NEW));
        try destruct (member_active _ _); reflexivity. }
  destruct (map_result_ok_in _ _ _ _ _ _ Hins Hin) as [n Hn].
  destruct (pool_cancelled_notification_raises (g (h pm)) pid sc)
    as [msg Hmsg].
  congruence.
Qed.

Lemma insert_pool_member_quiet : forall db NEW now db',
  insert_pool_member ST_Distance FORMAT db NEW now = Ok db' ->
  quiet db db' /\ frozen db db'.
Proof.
  intros db NEW now db' H. unfold insert_pool_member in H.
  destruct (pool_members_insertable db NEW); [| discriminate].
  apply bind_ok in H. destruct H as [db2 [H2 H]].
  destruct (update_pool_viability_score_quiet _ _ _ _ H) as [Q F].
  split.
  - eapply quiet_trans; [| exact Q].
    eapply quiet_trans; [| apply (sync_pool_status_quiet _ _ _ H2)].
    apply same_tables_quiet; reflexivity.
  - eapply frozen_trans; [| exact F].
    eapply frozen_trans; [| apply (sync_pool_status_frozen _ _ _ H2)].
    apply same_pools_frozen. reflexivity.
Qed.

Lemma exec_quiet : forall db now e,
  quiet db (exec ST_Distance FORMAT db now e)
  /\ frozen db (exec ST_Distance FORMAT db now e).
Proof.
  intros db now e.
  destruct e as [NEW | mid | mid | pid d v | pid].
  - unfold exec. cbn [step].
    destruct (insert_pool_member ST_Distance FORMAT db NEW now) as [db1 |]
      eqn:H; [| split; [apply quiet_refl | apply frozen_refl]].
    apply (insert_pool_member_quiet _ _ _ _ H).
  - split; [| apply exec_frozen; discriminate].
    unfold exec. cbn [step].
    destruct (leave_pool_member db mid now) as [db1 |] eqn:H;
      [| apply quiet_refl].
    unfold leave_pool_member in H.
    eapply quiet_trans; [| apply (after_pool_members_change_quiet _ _ _ H)].
    apply same_tables_quiet; reflexivity.
  - split; [| apply exec_frozen; discriminate].
    unfold exec. cbn [step].
    destruct (delete_pool_member db mid) as [db1 |] eqn:H;
      [| apply quiet_refl].
    unfold delete_pool_member in H.
    eapply quiet_trans; [| apply (after_pool_members_change_quiet _ _ _ H)].
    apply same_tables_quiet; reflexivity.
  - split; [| apply exec_frozen; discriminate].
    unfold exec. cbn [step].
    destruct (set_pool_driver db pid d v) as [db1 |] eqn:H;
      [| apply quiet_refl].
    unfold set_pool_driver in H.
    apply bind_ok in H. destruct H as [db0 [H0 H]].
    eapply quiet_trans;
      [| apply (sync_pool_status_on_driver_change_quiet _ _ _ _ H)].
    eapply update_pools_quiet; [| | exact H0].
    + intro; reflexivity.
    + intros p E. exact E.
  - split; [| apply exec_frozen; discriminate].
    unfold exec. cbn [step].
    destruct (sync_pool_status_internal db pid) as [db1 |] eqn:H;
      [| apply quiet_refl].
    apply (sync_pool_status_internal_quiet _ _ _ H).
Qed.

(** X18: a failed formation never commits.  The text of the notification
    that [update_pool_viability_score] writes for a pool whose second
    member is not viable has the conversion [%.1f]; with a [FORMAT] that
    rejects it, as PostgreSQL's does, that branch raises and the insert is
    rolled back.  So along every sequence of member inserts, leaves and
    deletes, driver writes and recomputations no notification is written,
    no ride is rewritten, no pool that is not [CANCELLED] is cancelled, and
    a pool that is [STARTED], [COMPLETED] or [CANCELLED] keeps exactly that
    status. *)
Theorem failed_formation_never_commits :
  forall evs db,
    notifications (run ST_Distance FORMAT db evs) = notifications db
    /\ rides (run ST_Distance FORMAT db evs) = rides db
    /\ (forall q,
          not_yet_cancelled db q = true ->
          not_yet_cancelled (run ST_Distance FORMAT db evs) q = true)
    /\ (forall q s,
          pool_status_of db q = Some s ->
          terminal s = true ->
          pool_status_of (run ST_Distance FORMAT db evs) q = Some s).
Proof.
  assert (G : forall evs db,
             quiet db (run ST_Distance FORMAT db evs)
             /\ frozen db (run ST_Distance FORMAT db evs)).
  { induction evs as [| [now e] rest IH]; intro db; simpl.
    - split; [apply quiet_refl | apply frozen_refl].
    - destruct (exec_quiet db now e) as [Q1 F1].
      destruct (IH (exec ST_Distance FORMAT db now e)) as [Q2 F2].
      split; [apply (quiet_trans _ _ _ Q1 Q2)
             | apply (frozen_trans _ _ _ F1 F2)]. }
  intros evs db. destruct (G evs db) as [[N [R C]] F].
  split; [exact N |]. split; [exact R |]. split; [exact C | exact F].
Qed.

End FormationFailure.

Lemma plain_format_rejects : rejects_unrecognized plain_format.
Proof.
  intros template args H. unfold plain_format. rewrite H.
  eexists. reflexivity.
Qed.

Lemma failed_formation_never_commits_witness :
  notifications (run grid_distance plain_format forming_db busy_events)
  = notifications forming_db
  /\ rides (run grid_distance plain_format forming_db busy_events)
     = rides forming_db
  /\ (forall q,
        not_yet_cancelled forming_db q = true ->
        not_yet_cancelled
          (run grid_distance plain_format forming_db busy_events) q = true)
  /\ (forall q s,
        pool_status_of forming_db q = Some s ->
        terminal s = true ->
        pool_status_of
          (run grid_distance plain_format forming_db busy_events) q = Some s).
Proof.
  apply (failed_formation_never_commits grid_distance plain_format
           plain_format_rejects busy_events forming_db).
Defined.

(** ** Location ingestion and the driver search *)

Lemma existsb_find : forall (B : Type) (f : B -> bool) (l : list B),
  existsb f l = true -> exists x, find f l = Some x /\ In x l /\ f x = true.
Proof.
  intros B f l H. destruct (find f l) as [x |] eqn:F.
  - exists x. split; [reflexivity |]. apply find_some in F. exact F.
  - exfalso. rewrite find_none_iff in F. apply existsb_exists in H.
    destruct H as [x [Hx Hf]]. rewrite (F x Hx) in Hf. discriminate.
Qed.

(** X19: what a location update requires.  A call of
    [update_driver_location] that returns has found the driver among the
    users, with [is_driver] not [FALSE], the vehicle among the vehicles
    and, when a pool is named, that pool among the pools; for every other
    input it raises. *)
Theorem location_update_needs_driver_and_vehicle :
  forall db p_driver_id p_vehicle_id p_current_lat p_current_lng p_heading
         p_speed_kmh p_accuracy_meters p_pool_id v_location_id now db' id,
    update_driver_location db p_driver_id p_vehicle_id p_current_lat
      p_current_lng p_heading p_speed_kmh p_accuracy_meters p_pool_id
      v_location_id now = Ok (db', id) ->
    (exists u, In u (users db) /\ Users.id u = p_driver_id
               /\ Users.is_driver u <> Some false)
    /\ (exists veh, In veh (vehicles db) /\ Vehicles.id veh = p_vehicle_id)
    /\ (forall p_id, p_pool_id = Some p_id ->
                     exists p, In p (pools db) /\ Pools.id p = p_id).
Proof.
  intros db drv veh lat lng hd sp acc pool lid now db' id H.
  destruct (update_driver_location_inversion _ _ _ _ _ _ _ _ _ _ _ _ _ H)
    as [v_lat [v_lng [v_hd [v_sp [NEW [_ [_ [_ [_ [HNEW [Hdrv [Hins _]]]]]]]]]]]].
  unfold vehicle_location_insertable in Hins.
  rewrite HNEW in Hins.
  cbn [VehicleLocations.id VehicleLocations.vehicle_id
       VehicleLocations.driver_id VehicleLocations.pool_id
       VehicleLocations.heading VehicleLocations.speed_kmh
       users vehicles pools set_vehicle_locations] in Hins.
  repeat (apply andb_prop in Hins; destruct Hins as [Hins ?]).
  match goal with
  | Hu : existsb (fun u => N.eqb (Users.id u) drv) (users db) = true |- _ =>
      destruct (existsb_find _ _ _ Hu) as [u [Fu [Hu1 Hu2]]]
  end.
  match goal with
  | Hv : existsb (fun v => N.eqb (Vehicles.id v) veh) (vehicles db) = true
    |- _ =>
      apply existsb_exists in Hv; destruct Hv as [vh [Hv1 Hv2]]
  end.
  split; [| split].
  - exists u. split; [exact Hu1 |]. split; [apply N.eqb_eq; exact Hu2 |].
    rewrite Fu in Hdrv. intro E. rewrite E in Hdrv. discriminate.
  - exists vh. split; [exact Hv1 | apply N.eqb_eq; exact Hv2].
  - intros p_id ->.
    match goal with
    | Hp : existsb (fun p => N.eqb (Pools.id p) p_id) (pools db) = true |- _ =>
        apply existsb_exists in Hp; destruct Hp as [p [Hp1 Hp2]]
    end.
    exists p. split; [exact Hp1 | apply N.eqb_eq; exact Hp2].
Qed.

Lemma round_to_360 : forall h,
  359995 # 1000 <= h -> h < 360 ->
  to_decimal_opt 5 2 (Some h) = Ok (Some (inject_Z 36000 / pow10 2)).
Proof.
  intros h Hlo Hhi. unfold to_decimal_opt, to_decimal, ROUND.
  cbn [option_map].
  assert (Hpow : pow10 2 == 100) by reflexivity.
  assert (Hr : round_half_away (h * pow10 2) = 36000%Z).
  { unfold round_half_away.
    replace (Qle_bool 0 (h * pow10 2)) with true
      by (symmetry; apply Qle_bool_iff; rewrite Hpow; lra).
    assert (L : (36000 <= Qfloor (h * pow10 2 + (1 # 2)))%Z).
    { rewrite <- (Qfloor_Z 36000). apply Qfloor_resp_le.
      rewrite Hpow. change (inject_Z 36000) with 36000. lra. }
    assert (U : (Qfloor (h * pow10 2 + (1 # 2)) < 36001)%Z).
    { rewrite Zlt_Qlt.
      apply Qle_lt_trans with (h * pow10 2 + (1 # 2)); [apply Qfloor_le |].
      rewrite Hpow. change (inject_Z 36001) with 36001. lra. }
    lia. }
  rewrite Hr. reflexivity.
Qed.

(** X20: a heading just below 360 degrees is rejected.  [heading] is a
    [DECIMAL(5,2)] column, so a heading from 359.995 up to (but below) 360
    is stored as 360.00, which the check [heading < 360] refuses: the call
    raises for every such heading, whatever the other arguments are. *)
Theorem heading_rounding_to_360_raises :
  forall db p_driver_id p_vehicle_id p_current_lat p_current_lng h
         p_speed_kmh p_accuracy_meters p_pool_id v_location_id now,
    359995 # 1000 <= h -> h < 360 ->
    exists msg,
      update_driver_location db p_driver_id p_vehicle_id p_current_lat
        p_current_lng (Some h) p_speed_kmh p_accuracy_meters p_pool_id
        v_location_id now = Raise msg.
Proof.
  intros db drv veh lat lng h sp acc pool lid now Hlo Hhi.
  destruct (update_driver_location db drv veh lat lng (Some h) sp acc pool
              lid now) as [[db' id] | msg] eqn:H;
    [| exists msg; reflexivity].
  exfalso.
  destruct (update_driver_location_inversion _ _ _ _ _ _ _ _ _ _ _ _ _ H)
    as [v_lat [v_lng [v_hd [v_sp [NEW [_ [_ [Ehd [_ [HNEW [_ [Hins _]]]]]]]]]]]].
  rewrite (round_to_360 h Hlo Hhi) in Ehd. injection Ehd as <-.
  unfold vehicle_location_insertable in Hins. rewrite HNEW in Hins.
  cbn [VehicleLocations.heading] in Hins.
  apply andb_prop in Hins. destruct Hins as [Hins _].
  apply andb_prop in Hins. destruct Hins as [_ Hins].
  vm_compute in Hins. discriminate.
Qed.

Section DriverSearch.

Variable ST_Distance : geography -> geography -> Q.

(** X21: a driver who reports a position for a pool is not offered to
    riders: after [update_driver_location] with a pool, no row of
    [find_nearest_available_drivers] is of the vehicle, whatever the
    search asks for. *)
Theorem driver_on_a_pool_is_not_offered :
  forall db p_driver_id p_vehicle_id p_current_lat p_current_lng p_heading
         p_speed_kmh p_accuracy_meters p_id v_location_id now db' id
         lat lng vt maxd limit rows r,
    update_driver_location db p_driver_id p_vehicle_id p_current_lat
      p_current_lng p_heading p_speed_kmh p_accuracy_meters (Some p_id)
      v_location_id now = Ok (db', id) ->
    find_nearest_available_drivers ST_Distance db' lat lng vt maxd limit
    = Ok rows ->
    In r rows ->
    Nearest.vehicle_id r <> p_vehicle_id.
Proof.
  intros db drv veh clat clng hd sp acc pid lid now db' id lat lng vt maxd
         limit rows r H Hrows Hr Hveh.
  destruct (update_driver_location_table _ _ _ _ _ _ _ _ _ _ _ _ _ H)
    as [NEW [Htab [_ [_ [_ [_ [_ [_ [_ [_ [Havail _]]]]]]]]]]].
  destruct (nearest_rows_qualify ST_Distance _ _ _ _ _ _ _ _ Hrows Hr)
    as [[[vl vh] u] [Hj [Hq Er]]].
  apply samples_joined_In in Hj. destruct Hj as [Hvl _].
  destruct Hq as [Qav [Qac _]].
  rewrite Er in Hveh. cbn [nearest_row Nearest.vehicle_id] in Hveh.
  rewrite Htab in Hvl. apply in_app_or in Hvl.
  destruct Hvl as [Hold | [<- | []]].
  - apply in_map_iff in Hold. destruct Hold as [x [Ex _]].
    pose proof (deactivated_not_active veh x) as Hno.
    rewrite Ex in Hno. unfold active_sample_of in Hno.
    rewrite Hveh, N.eqb_refl, Qac in Hno. discriminate.
  - rewrite Havail in Qav. discriminate.
Qed.

(** X22: a free driver is found where they reported to be.  After
    [update_driver_location] without a pool, for a driver and a vehicle
    that are active and not deleted, every search without a limit whose
    radius covers the stored position and whose class filter admits the
    vehicle returns a row of that driver, at a distance not above that of
    the stored position. *)
Theorem free_driver_is_found :
  forall db p_driver_id p_vehicle_id p_current_lat p_current_lng p_heading
         p_speed_kmh p_accuracy_meters v_location_id now db' id
         u veh v_lat v_lng lat lng vt maxd,
    update_driver_location db p_driver_id p_vehicle_id p_current_lat
      p_current_lng p_heading p_speed_kmh p_accuracy_meters None
      v_location_id now = Ok (db', id) ->
    In u (users db) ->
    Users.id u = p_driver_id ->
    Users.is_driver u = Some true ->
    Users.deleted_at u = None ->
    In veh (vehicles db) ->
    Vehicles.id veh = p_vehicle_id ->
    Vehicles.is_active veh = Some true ->
    Vehicles.deleted_at veh = None ->
    vt = None \/ vt = Some (Vehicles.vehicle_type veh) ->
    to_decimal 10 8 p_current_lat = Ok v_lat ->
    to_decimal 11 8 p_current_lng = Ok v_lng ->
    ST_Distance (MakePoint lng lat) (MakePoint v_lng v_lat) <= maxd * 1000 ->
    exists rows r,
      find_nearest_available_drivers ST_Distance db' lat lng vt (Some maxd)
        None = Ok rows
      /\ In r rows
      /\ Nearest.driver_id r = p_driver_id
      /\ num_leb (Nearest.distance_km r)
                 (Some (ST_Distance (MakePoint lng lat) (MakePoint v_lng v_lat)
                        / 1000)) = true.
Proof.
  intros db drv vid clat clng hd sp acc lid now db' id u veh v_lat v_lng
         lat lng vt maxd H Hu Huid Hdrv Hudel Hv Hvid Hvact Hvdel Hvt Elat
         Elng Hdist.
  destruct (update_driver_location_inversion _ _ _ _ _ _ _ _ _ _ _ _ _ H)
    as [v_lat' [v_lng' [v_hd [v_sp [NEW [Elat' [Elng' [_ [_ [HNEW [_ [_ Hdb]]]]]]]]]]]].
  rewrite Elat in Elat'. injection Elat' as <-.
  rewrite Elng in Elng'. injection Elng' as <-.
  set (pickup := MakePoint lng lat) in *.
  set (j := (NEW, veh, u) : joined_sample).
  assert (Hj : In j (samples_joined db')).
  { apply samples_joined_In. rewrite Hdb.
    cbn [vehicle_locations vehicles users set_vehicle_locations].
    split; [apply in_or_app; right; left; reflexivity |].
    rewrite HNEW. cbn. auto. }
  assert (Hq : qualifying_sample ST_Distance pickup vt (Some maxd) j).
  { unfold j. rewrite HNEW. cbn.
    repeat (split; [first [assumption | reflexivity] |]).
    exists (MakePoint v_lng v_lat), maxd. auto. }
  unfold find_nearest_available_drivers. cbv zeta. fold pickup.
  cbn [LIMIT].
  set (ordered := ORDER_BY nearest_leb
                    (map (nearest_row ST_Distance pickup)
                         (filter (fun j0 => is_true (nearest_where ST_Distance
                                                       pickup vt (Some maxd) j0))
                                 (samples_joined db')))).
  assert (Hin : In (nearest_row ST_Distance pickup j) ordered).
  { unfold ordered. apply ORDER_BY_In. apply in_map. apply filter_In.
    split; [exact Hj |]. apply nearest_where_spec. exact Hq. }
  assert (Hsorted : StronglySorted (fun a b => nearest_leb a b = true) ordered).
  { apply ORDER_BY_sorted;
      [apply nearest_leb_total | apply nearest_leb_trans]. }
  destruct (DISTINCT_ON_complete _ Nearest.driver_id ordered
              (nearest_row ST_Distance pickup j) Hin) as [r [Hr Hd]].
  exists (DISTINCT_ON Nearest.driver_id ordered), r.
  split; [reflexivity |]. split; [exact Hr |]. split.
  - rewrite Hd. unfold j. rewrite HNEW. reflexivity.
  - assert (Hleb : nearest_leb r (nearest_row ST_Distance pickup j) = true).
    { eapply (DISTINCT_ON_first _ nearest_leb Nearest.driver_id);
        first [ exact nearest_leb_total
              | exact nearest_leb_key
              | exact Hsorted
              | exact Hr
              | exact Hin
              | symmetry; exact Hd ]. }
    apply nearest_leb_cases in Hleb. destruct Hleb as [Hlt | [_ Hle]].
    + rewrite Hd in Hlt. lia.
    + unfold j in Hle. rewrite HNEW in Hle. exact Hle.
Qed.

(** X23: the search at its edges: without a radius ([p_max_distance_km]
    NULL) no driver is within it and the result is empty, and a negative
    limit raises. *)
Theorem driver_search_without_radius_is_empty :
  (forall db lat lng vt limit rows,
      find_nearest_available_drivers ST_Distance db lat lng vt None limit
      = Ok rows ->
      rows = [])
  /\ (forall db lat lng vt maxd n,
        (n < 0)%Z ->
        find_nearest_available_drivers ST_Distance db lat lng vt maxd (Some n)
        = Raise "LIMIT must not be negative").
Proof.
  split.
  - intros db lat lng vt limit rows H.
    destruct rows as [| r rest]; [reflexivity | exfalso].
    destruct (nearest_rows_qualify ST_Distance _ _ _ _ _ _ _ r H
                (or_introl eq_refl)) as [[[vl vh] u] [_ [Hq _]]].
    destruct Hq as [_ [_ [_ [_ [_ [_ [_ [loc [km [_ [E _]]]]]]]]]]].
    discriminate.
  - intros db lat lng vt maxd n Hn. unfold find_nearest_available_drivers.
    cbv zeta. unfold LIMIT.
    replace (n <? 0)%Z with true by (symmetry; apply Z.ltb_lt; exact Hn).
    reflexivity.
Qed.

End DriverSearch.

Lemma location_update_needs_driver_and_vehicle_witness :
  (exists u, In u (users pooled_fleet_db) /\ Users.id u = 1%N
             /\ Users.is_driver u <> Some false)
  /\ (exists veh, In veh (vehicles pooled_fleet_db)
                  /\ Vehicles.id veh = 10%N)
  /\ (forall p_id, Some 100%N = Some p_id ->
                   exists p, In p (pools pooled_fleet_db)
                             /\ Pools.id p = p_id).
Proof.
  apply (location_update_needs_driver_and_vehicle pooled_fleet_db 1%N 10%N 6 0
           None None None (Some 100%N) 504%N 400%Z _ _ eq_refl).
Defined.

Lemma heading_rounding_to_360_raises_witness :
  exists msg,
    update_driver_location fleet_db 1%N 10%N 6 0 (Some (359999 # 1000)) None
      None None 504%N 400%Z = Raise msg.
Proof.
  apply (heading_rounding_to_360_raises fleet_db 1%N 10%N 6 0
           (359999 # 1000) None None None 504%N 400%Z).
  - vm_compute. discriminate.
  - reflexivity.
Defined.

Lemma driver_on_a_pool_is_not_offered_witness :
  exists db' id rows r,
    update_driver_location pooled_fleet_db 1%N 10%N 6 0 None None None
      (Some 100%N) 504%N 400%Z = Ok (db', id)
    /\ find_nearest_available_drivers grid_distance db' 0 0 None (Some 10)
         None = Ok rows
    /\ In r rows
    /\ Nearest.vehicle_id r <> 10%N.
Proof.
  eexists. eexists. eexists. eexists.
  split; [vm_compute; reflexivity |].
  split; [vm_compute; reflexivity |].
  split; [left; reflexivity |].
  eapply (driver_on_a_pool_is_not_offered grid_distance pooled_fleet_db 1%N
           10%N 6 0 None None None 100%N 504%N 400%Z _ _ 0 0 None (Some 10)
           None _ _).
  - vm_compute. reflexivity.
  - vm_compute. reflexivity.
  - left. reflexivity.
Defined.

Lemma free_driver_is_found_witness :
  exists db' id v_lat v_lng,
    update_driver_location fleet_db 1%N 10%N 6 0 None None None None 504%N
      400%Z = Ok (db', id)
    /\ to_decimal 10 8 6 = Ok v_lat
    /\ to_decimal 11 8 0 = Ok v_lng
    /\ exists rows r,
         find_nearest_available_drivers grid_distance db' 0 0 None (Some 10)
           None = Ok rows
         /\ In r rows
         /\ Nearest.driver_id r = 1%N
         /\ num_leb (Nearest.distance_km r)
                    (Some (grid_distance (MakePoint 0 0)
                                         (MakePoint v_lng v_lat) / 1000))
            = true.
Proof.
  eexists. eexists. eexists. eexists.
  split; [vm_compute; reflexivity |].
  split; [vm_compute; reflexivity |].
  split; [vm_compute; reflexivity |].
  eapply (free_driver_is_found grid_distance fleet_db 1%N 10%N 6 0 None None
           None 504%N 400%Z _ _ (example_user 1%N true)
           (example_vehicle 10%N 1%N "D-10") _ _ 0 0 None 10).
  - vm_compute. reflexivity.
  - left. reflexivity.
  - reflexivity.
  - reflexivity.
  - reflexivity.
  - left. reflexivity.
  - reflexivity.
  - reflexivity.
  - reflexivity.
  - left. reflexivity.
  - vm_compute. reflexivity.
  - vm_compute. reflexivity.
  - vm_compute. discriminate.
Defined.

Lemma driver_search_without_radius_is_empty_witness :
  (exists rows,
      find_nearest_available_drivers grid_distance fleet_db 0 0 None None None
      = Ok rows
      /\ rows = [])
  /\ find_nearest_available_drivers grid_distance fleet_db 0 0 None (Some 10)
       (Some (-1)%Z) = Raise "LIMIT must not be negative".
Proof.
  split.
  - eexists. split; [vm_compute; reflexivity |].
    apply (proj1 (driver_search_without_radius_is_empty grid_distance)
             fleet_db 0 0 None None).
    vm_compute. reflexivity.
  - apply (proj2 (driver_search_without_radius_is_empty grid_distance)
             fleet_db 0 0 None (Some 10) (-1)%Z).
    reflexivity.
Defined.

(** ** The triggers of [rides] *)

Lemma distance_null_r : forall ST_Distance a,
  distance ST_Distance a None = None.
Proof. intros f [a |]; reflexivity. Qed.

Lemma round_half_away_nonneg : forall x, 0 <= x -> (0 <= round_half_away x)%Z.
Proof.
  intros x Hx. unfold round_half_away.
  replace (Qle_bool 0 x) with true by (symmetry; apply Qle_bool_iff; exact Hx).
  rewrite <- (Qfloor_Z 0). apply Qfloor_resp_le.
  change (inject_Z 0) with 0. lra.
Qed.

Lemma ROUND_nonneg : forall x places y,
  0 <= x -> ROUND (Some x) places = Some y -> 0 <= y.
Proof.
  intros x places y Hx H. unfold ROUND in H. cbn [option_map] in H.
  injection H as <-.
  assert (Hp : 0 < pow10 places).
  { unfold pow10. change 0 with (inject_Z 0). rewrite <- Zlt_Qlt.
    apply Z.pow_pos_nonneg; lia. }
  apply Qle_shift_div_l; [exact Hp |]. rewrite Qmult_0_l.
  change 0 with (inject_Z 0). rewrite <- Zle_Qle.
  apply round_half_away_nonneg. apply Qmult_le_0_compat; [exact Hx |].
  apply Qlt_le_weak, Hp.
Qed.

Section RoutePosition.

Variable ST_Distance : geography -> geography -> Q.

(** X24: the flag of the first ride of a pool.  For a pool whose
    configuration has [front_route_only] set and which has no ride yet,
    the route-position trigger computes no deviation and leaves
    [is_on_front_route] NULL, neither [TRUE] nor [FALSE]. *)
Theorem first_ride_of_a_pool_has_no_route_flag :
  forall db NEW p_pool_id p c,
    Rides.pool_id NEW = Some p_pool_id ->
    select_pool db p_pool_id = Some p ->
    config_of_pool db p = Some c ->
    Config.front_route_only c = Some true ->
    (forall r, In r (rides db) -> Rides.pool_id r <> Some p_pool_id) ->
    update_ride_route_position ST_Distance db NEW
    = Ok (ride_with_front_route None NEW, None).
Proof.
  intros db NEW pid p c Hpool Hp Hc Hfo Hnone.
  unfold update_ride_route_position. rewrite Hpool, Hp, Hc, Hfo.
  assert (Hfirst : first_pickup_of_pool db pid = None).
  { unfold first_pickup_of_pool.
    rewrite (filter_none _ _ (rides db)); [reflexivity |].
    intros r Hr. specialize (Hnone r Hr).
    destruct (Rides.pool_id r) as [q |]; [| reflexivity].
    cbn. destruct (N.eqb_spec q pid) as [-> | _];
      [exfalso; apply Hnone; reflexivity | reflexivity]. }
  rewrite Hfirst. rewrite distance_null_r.
  cbn [num_div_by option_map num_sub lift2 num_add distance].
  destruct (Rides.pickup_location NEW);
    destruct (Pools.destination_location p); reflexivity.
Qed.

(** X25: where the flag is set without a measurement, and what a
    measurement can give.  A ride without a pool is on the front route
    with deviation 0; a ride of a pool whose configuration does not set
    [front_route_only] is on the front route; and if [ST_Distance] is
    symmetric and satisfies the triangle inequality, the deviation that
    the trigger stores is never negative. *)
Theorem route_position_of_a_ride :
  (forall db NEW,
      Rides.pool_id NEW = None ->
      update_ride_route_position ST_Distance db NEW
      = Ok (ride_with_front_route (Some true) NEW, Some 0))
  /\ (forall db NEW NEW' deviation p_pool_id,
        update_ride_route_position ST_Distance db NEW = Ok (NEW', deviation) ->
        Rides.pool_id NEW = Some p_pool_id ->
        (forall p c, select_pool db p_pool_id = Some p ->
                     config_of_pool db p = Some c ->
                     Config.front_route_only c <> Some true) ->
        NEW' = ride_with_front_route (Some true) NEW)
  /\ ((forall a b, ST_Distance a b == ST_Distance b a) ->
      (forall a b c, ST_Distance a c <= ST_Distance a b + ST_Distance b c) ->
      forall db NEW NEW' deviation,
        update_ride_route_position ST_Distance db NEW
        = Ok (NEW', Some deviation) ->
        0 <= deviation).
Proof.
  split; [| split].
  - intros db NEW Hpool. unfold update_ride_route_position.
    rewrite Hpool. reflexivity.
  - intros db NEW NEW' dev pid H Hpool Hcfg.
    unfold update_ride_route_position in H. rewrite Hpool in H.
    apply bind_ok in H. destruct H as [stored [_ H]].
    injection H as <- _.
    destruct (select_pool db pid) as [p |]; [| reflexivity].
    destruct (config_of_pool db p) as [c |] eqn:Ec; [| reflexivity].
    specialize (Hcfg p c eq_refl Ec).
    destruct (Config.front_route_only c) as [[|] |];
      [exfalso; apply Hcfg; reflexivity | reflexivity | reflexivity].
  - intros Hsym Htri db NEW NEW' dev H.
    unfold update_ride_route_position in H.
    destruct (Rides.pool_id NEW) as [pid |].
    2:{ injection H as _ <-. lra. }
    apply bind_ok in H. destruct H as [stored [Hst H]].
    injection H as _ ->.
    destruct (match select_pool db pid with
              | Some p => Pools.destination_location p
              | None => None
              end) as [dest |];
      destruct (first_pickup_of_pool db pid) as [first |];
      destruct (Rides.pickup_location NEW) as [pk |];
      cbn [distance lift2 num_add num_sub num_div_by option_map
           to_decimal_opt] in Hst;
      try discriminate.
    apply bind_ok in Hst. destruct Hst as [q [Hq Hst]].
    injection Hst as <-.
    unfold to_decimal in Hq.
    match type of Hq with
    | match ROUND (Some ?x) 2 with _ => _ end = _ =>
        destruct (ROUND (Some x) 2) as [y |] eqn:Hr; [| discriminate];
        assert (Hx : 0 <= x)
    end.
    { pose proof (Htri first pk dest) as T. pose proof (Hsym dest first) as S.
      assert (G : ST_Distance dest first / 1000
                  <= (ST_Distance first pk + ST_Distance pk dest) / 1000).
      { unfold Qdiv. apply Qmult_le_compat_r; [| discriminate].
        rewrite S. exact T. }
      lra. }
    destruct (Qlt_bool (Qabs y) (pow10 (5 - 2))); [| discriminate].
    injection Hq as <-. apply (ROUND_nonneg _ _ _ Hx Hr).
Qed.

End RoutePosition.

Lemma Qabs_minus_triangle : forall x y z,
  Qabs (x - z) <= Qabs (x - y) + Qabs (y - z).
Proof.
  intros x y z. setoid_replace (x - z) with ((x - y) + (y - z)) by ring.
  apply Qabs_triangle.
Qed.

Lemma grid_distance_sym : forall a b, grid_distance a b == grid_distance b a.
Proof.
  intros a b. unfold grid_distance.
  rewrite (Qabs_Qminus (lng a)), (Qabs_Qminus (lat a)). reflexivity.
Qed.

Lemma grid_distance_triangle : forall a b c,
  grid_distance a c <= grid_distance a b + grid_distance b c.
Proof.
  intros a b c. unfold grid_distance.
  pose proof (Qabs_minus_triangle (lng a) (lng b) (lng c)).
  pose proof (Qabs_minus_triangle (lat a) (lat b) (lat c)).
  lra.
Qed.

Lemma first_ride_of_a_pool_has_no_route_flag_witness :
  update_ride_route_position grid_distance empty_pool_db
    (example_ride 7%N 70%N (Some 100%N) point_a point_b true 0%Z)
  = Ok (ride_with_front_route None
          (example_ride 7%N 70%N (Some 100%N) point_a point_b true 0%Z),
        None).
Proof.
  apply (first_ride_of_a_pool_has_no_route_flag grid_distance empty_pool_db
           (example_ride 7%N 70%N (Some 100%N) point_a point_b true 0%Z)
           100%N (example_pool 100%N WAITING_FOR_RIDERS None 0 4 2)
           default_config).
  - reflexivity.
  - reflexivity.
  - reflexivity.
  - reflexivity.
  - intros r [].
Defined.

Lemma route_position_of_a_ride_witness :
  exists NEW' deviation,
    update_ride_route_position grid_distance forming_db beside_ride
    = Ok (NEW', Some deviation)
    /\ Rides.is_on_front_route NEW' = Some false
    /\ 0 <= deviation.
Proof.
  eexists. eexists. split; [vm_compute; reflexivity |].
  split; [reflexivity |].
  eapply (proj2 (proj2 (route_position_of_a_ride grid_distance))
            grid_distance_sym grid_distance_triangle forming_db beside_ride).
  vm_compute. reflexivity.
Defined.

(** *** The route flag of a membership *)

Lemma sync_pool_member_route_status_in_sync : forall db NEW db',
  sync_pool_member_route_status db NEW = Ok db' ->
  (passengers_in_sync db -> passengers_in_sync db')
  /\ rides db' = rides db
  /\ pool_members db'
     = map (fun pm => if N.eqb (PoolMembers.ride_id pm) (Rides.id NEW)
                      then member_with_front_route (Rides.is_on_front_route NEW)
                                                   pm
                      else pm)
           (pool_members db).
Proof.
  intros db NEW db' H. unfold sync_pool_member_route_status in H.
  destruct (after_pool_members_change_tables _ _ _ H) as [R [M _]].
  split; [| split; [exact R | exact M]].
  intros Hs q. apply (after_pool_members_change_in_sync _ _ _ H).
  apply (members_update_in_sync db
           (fun pm => N.eqb (PoolMembers.ride_id pm) (Rides.id NEW))
           (member_with_front_route (Rides.is_on_front_route NEW)) q);
    [intro; reflexivity | apply Hs].
Qed.

(** The memberships of the ride carry the flag [b]. *)
Lemma route_flag_set_stays : forall olds db b db' p_ride_id,
  Forall (fun r => Rides.id r = p_ride_id) olds ->
  sync_pool_member_route_status_trigger db olds b = Ok db' ->
  (passengers_in_sync db -> passengers_in_sync db')
  /\ ((forall pm, In pm (pool_members db) ->
                  PoolMembers.ride_id pm = p_ride_id ->
                  PoolMembers.is_front_route_passenger pm = b)
      \/ (exists r, In r olds
                    /\ flag_is_distinct_from (Rides.is_on_front_route r) b
                       = true) ->
      forall pm, In pm (pool_members db') ->
                 PoolMembers.ride_id pm = p_ride_id ->
                 PoolMembers.is_front_route_passenger pm = b).
Proof.
  induction olds as [| OLD rest IH]; intros db b db' rid Hall H; simpl in H.
  - injection H as <-. split; [auto |].
    intros [Hset | [r [[] _]]]. exact Hset.
  - apply Forall_cons_iff in Hall. destruct Hall as [Hid Hrest].
    apply bind_ok in H. destruct H as [db1 [H1 H2]].
    destruct (IH _ _ _ _ Hrest H2) as [IHs IHf].
    destruct (flag_is_distinct_from (Rides.is_on_front_route OLD) b) eqn:Ed.
    + destruct (sync_pool_member_route_status_in_sync _ _ _ H1)
        as [Gs [_ Gm]].
      split; [auto |]. intros _. apply IHf. left.
      intros pm Hpm Hride. rewrite Gm in Hpm. apply in_map_iff in Hpm.
      destruct Hpm as [pm0 [E _]]. subst pm.
      cbn [ride_with_front_route Rides.id Rides.is_on_front_route] in *.
      destruct (N.eqb (PoolMembers.ride_id pm0) (Rides.id OLD)) eqn:Er.
      * reflexivity.
      * exfalso. apply N.eqb_neq in Er. apply Er. rewrite Hid. exact Hride.
    + injection H1 as <-. split; [exact IHs |].
      intros [Hset | [r [[<- | Hr] Hd]]].
      * apply IHf. left. exact Hset.
      * rewrite Hd in Ed. discriminate.
      * apply IHf. right. exists r. auto.
Qed.

(** X26: the route flag of a ride reaches its membership and the count of
    its pool.  An update of [is_on_front_route] that changes the flag of
    the ride writes the new flag into every membership of the ride, and
    the trigger of [pool_members] recomputes the pools of these
    memberships: passenger counts that mirrored the membership before
    still do afterwards. *)
Theorem route_flag_reaches_the_membership :
  forall db p_ride_id b db',
    set_ride_front_route db p_ride_id b = Ok db' ->
    (passengers_in_sync db -> passengers_in_sync db')
    /\ ((exists r, In r (rides db) /\ Rides.id r = p_ride_id
                   /\ flag_is_distinct_from (Rides.is_on_front_route r) b
                      = true) ->
        forall pm, In pm (pool_members db') ->
                   PoolMembers.ride_id pm = p_ride_id ->
                   PoolMembers.is_front_route_passenger pm = b).
Proof.
  intros db rid b db' H. unfold set_ride_front_route in H.
  assert (Hall : Forall (fun r => Rides.id r = rid)
                        (filter (fun r => N.eqb (Rides.id r) rid) (rides db))).
  { apply Forall_forall. intros r Hr. apply filter_In in Hr.
    apply N.eqb_eq. apply Hr. }
  destruct (route_flag_set_stays _ _ _ _ _ Hall H) as [Gs Gf].
  split.
  - intro Hs. apply Gs. apply (same_members_in_sync db); try reflexivity.
    exact Hs.
  - intros [r [Hr [Hid Hd]]]. apply Gf. right. exists r.
    split; [| exact Hd]. apply filter_In. split; [exact Hr |].
    apply N.eqb_eq. exact Hid.
Qed.

Lemma route_flag_reaches_the_membership_witness :
  exists db',
    set_ride_front_route forming_db 7%N (Some false) = Ok db'
    /\ passengers_in_sync db'
    /\ (forall pm, In pm (pool_members db') ->
                   PoolMembers.ride_id pm = 7%N ->
                   PoolMembers.is_front_route_passenger pm = Some false).
Proof.
  eexists. split; [vm_compute; reflexivity |].
  eassert (H : set_ride_front_route forming_db 7%N (Some false) = Ok _)
    by (vm_compute; reflexivity).
  destruct (route_flag_reaches_the_membership forming_db 7%N (Some false) _ H)
    as [Hs Hf].
  split.
  - apply Hs. intros q p Hp Hid. simpl in Hp. destruct Hp as [<- | []].
    subst q. reflexivity.
  - apply Hf.
    exists (example_ride 7%N 70%N (Some 100%N) point_a point_b true 0%Z).
    split; [left; reflexivity |]. split; reflexivity.
Defined.

(** *** The count of completed rides *)

Lemma set_rides_same : forall db, set_rides db (rides db) = db.
Proof. intros []. reflexivity. Qed.

Lemma ride_status_eqb_eq : forall a b, ride_status_eqb a b = true <-> a = b.
Proof. intros [] []; cbn; split; congruence. Qed.

Lemma update_user_ride_count_tables : forall db OLD NEW,
  rides (update_user_ride_count db OLD NEW) = rides db.
Proof.
  intros db OLD NEW. unfold update_user_ride_count.
  destruct (becomes_completed OLD NEW); reflexivity.
Qed.

(** The trigger for rows that bring no ride into [COMPLETED]. *)
Lemma ride_count_trigger_idle : forall olds db s,
  (forall OLD, In OLD olds ->
               becomes_completed OLD (ride_with_status s OLD) = false) ->
  fold_left (fun d OLD => update_user_ride_count d OLD (ride_with_status s OLD))
            olds db = db.
Proof.
  induction olds as [| OLD rest IH]; intros db s H; simpl; [reflexivity |].
  unfold update_user_ride_count at 2.
  rewrite (H OLD (or_introl eq_refl)). apply IH.
  intros O HO. apply H. right. exact HO.
Qed.

Lemma ride_count_trigger_rides : forall olds db s,
  rides (fold_left
           (fun d OLD => update_user_ride_count d OLD (ride_with_status s OLD))
           olds db) = rides db.
Proof.
  induction olds as [| OLD rest IH]; intros db s; simpl; [reflexivity |].
  rewrite IH. apply update_user_ride_count_tables.
Qed.

(** X27: completed rides are counted once.  Writing a status other than
    [COMPLETED] never changes a user; the write of [COMPLETED] to a ride
    that is not completed yet adds one to [total_rides] of the users with
    the ride's [user_id] (a NULL count stays NULL); and writing
    [COMPLETED] a second time changes nothing. *)
Theorem completed_rides_are_counted_once :
  (forall db p_ride_id s,
      s <> RIDE_COMPLETED ->
      users (update_ride_status db p_ride_id s) = users db)
  /\ (forall db p_ride_id r,
        filter (fun x => N.eqb (Rides.id x) p_ride_id) (rides db) = [r] ->
        Rides.status r <> RIDE_COMPLETED ->
        users (update_ride_status db p_ride_id RIDE_COMPLETED)
        = map (fun u => if N.eqb (Users.id u) (Rides.user_id r)
                        then user_with_total_rides
                               (option_map (fun n => (n + 1)%Z)
                                           (Users.total_rides u)) u
                        else u)
              (users db))
  /\ (forall db p_ride_id,
        update_ride_status (update_ride_status db p_ride_id RIDE_COMPLETED)
                           p_ride_id RIDE_COMPLETED
        = update_ride_status db p_ride_id RIDE_COMPLETED).
Proof.
  split; [| split].
  - intros db rid s Hs. unfold update_ride_status.
    rewrite ride_count_trigger_idle; [reflexivity |].
    intros OLD _. unfold becomes_completed.
    cbn [ride_with_status Rides.status].
    destruct (ride_status_eqb s RIDE_COMPLETED) eqn:E; [| reflexivity].
    apply ride_status_eqb_eq in E. contradiction.
  - intros db rid r Hf Hs. unfold update_ride_status. rewrite Hf.
    cbn [fold_left]. unfold update_user_ride_count, becomes_completed.
    cbn [ride_with_status Rides.status Rides.user_id ride_status_eqb].
    destruct (ride_status_eqb (Rides.status r) RIDE_COMPLETED) eqn:E.
    + apply ride_status_eqb_eq in E. contradiction.
    + reflexivity.
  - intros db rid.
    set (db1 := update_ride_status db rid RIDE_COMPLETED).
    assert (R1 : rides db1
                 = map (fun r => if N.eqb (Rides.id r) rid
                                 then ride_with_status RIDE_COMPLETED r else r)
                       (rides db)).
    { unfold db1, update_ride_status. rewrite ride_count_trigger_rides.
      reflexivity. }
    unfold update_ride_status at 1.
    rewrite ride_count_trigger_idle.
    + replace (map (fun r => if N.eqb (Rides.id r) rid
                             then ride_with_status RIDE_COMPLETED r else r)
                   (rides db1)) with (rides db1).
      * apply set_rides_same.
      * rewrite R1, map_map. apply map_ext. intro r.
        destruct (N.eqb (Rides.id r) rid) eqn:E.
        -- cbn [ride_with_status Rides.id]. rewrite E. reflexivity.
        -- rewrite E. reflexivity.
    + intros OLD HO. apply filter_In in HO. destruct HO as [HO Hid].
      rewrite R1 in HO. apply in_map_iff in HO. destruct HO as [r [E _]].
      unfold becomes_completed. cbn [ride_with_status Rides.status].
      subst OLD. destruct (N.eqb (Rides.id r) rid) eqn:Er.
      * reflexivity.
      * rewrite Er in Hid. discriminate.
Qed.

Lemma completed_rides_are_counted_once_witness :
  users (update_ride_status forming_db 7%N RIDE_COMPLETED)
  = map (fun u => if N.eqb (Users.id u) 70%N
                  then user_with_total_rides
                         (option_map (fun n => (n + 1)%Z)
                                     (Users.total_rides u)) u
                  else u)
        (users forming_db).
Proof.
  apply (proj1 (proj2 completed_rides_are_counted_once) forming_db 7%N
           (example_ride 7%N 70%N (Some 100%N) point_a point_b true 0%Z)).
  - reflexivity.
  - discriminate.
Defined.

(** ** Companions *)

Lemma uuid_eq_some_true : forall u a,
  uuid_eq (Some u) a = Some true <-> a = Some u.
Proof.
  intros u [x |]; cbn; [| split; discriminate].
  destruct (N.eqb_spec u x); split; congruence.
Qed.

Lemma sathi_condition : forall ps a b,
  is_true
    (tv_and (tv_and (uuid_eq (Some (PriyoSathi.user_id ps)) a)
                    (uuid_eq (Some (PriyoSathi.companion_id ps)) b))
            (Some (sathi_accepted (PriyoSathi.status ps)))) = true
  <-> a = Some (PriyoSathi.user_id ps)
      /\ b = Some (PriyoSathi.companion_id ps)
      /\ PriyoSathi.status ps = ACCEPTED.
Proof.
  intros ps a b. rewrite tv_and_true, tv_and_some_true.
  rewrite !uuid_eq_some_true.
  assert (H : Some (sathi_accepted (PriyoSathi.status ps)) = Some true
              <-> PriyoSathi.status ps = ACCEPTED).
  { destruct (PriyoSathi.status ps); cbn; split; congruence. }
  rewrite H. tauto.
Qed.

Lemma is_true_tv_or : forall x y,
  is_true (tv_or x y) = true <-> is_true x = true \/ is_true y = true.
Proof. intros [[|] |] [[|] |]; cbn; split; intros; intuition discriminate. Qed.

(** X28: companionship is mutual.  [are_priyo_sathi] gives the same answer
    for a pair of users in either order; it holds exactly when an
    [ACCEPTED] row links the two, in one direction or the other (pending
    and blocked rows never count, nor does a NULL argument); and on a
    table that satisfies [CHECK (user_id != companion_id)] nobody is their
    own companion. *)
Theorem companionship_is_mutual :
  (forall t a b, are_priyo_sathi t a b = are_priyo_sathi t b a)
  /\ (forall t a b,
        are_priyo_sathi t a b = true
        <-> exists ps,
              In ps t
              /\ PriyoSathi.status ps = ACCEPTED
              /\ ((a = Some (PriyoSathi.user_id ps)
                   /\ b = Some (PriyoSathi.companion_id ps))
                  \/ (b = Some (PriyoSathi.user_id ps)
                      /\ a = Some (PriyoSathi.companion_id ps))))
  /\ (forall t a,
        (forall ps, In ps t -> sathi_check ps = true) ->
        are_priyo_sathi t a a = false).
Proof.
  assert (Hiff : forall t a b,
             are_priyo_sathi t a b = true
             <-> exists ps,
                   In ps t
                   /\ PriyoSathi.status ps = ACCEPTED
                   /\ ((a = Some (PriyoSathi.user_id ps)
                        /\ b = Some (PriyoSathi.companion_id ps))
                       \/ (b = Some (PriyoSathi.user_id ps)
                           /\ a = Some (PriyoSathi.companion_id ps)))).
  { intros t a b. unfold are_priyo_sathi. rewrite existsb_exists.
    split; intros [ps [Hps H]]; exists ps; (split; [exact Hps |]).
    - apply is_true_tv_or in H. rewrite !sathi_condition in H.
      destruct H as [[H1 [H2 H3]] | [H1 [H2 H3]]]; auto.
    - apply is_true_tv_or. rewrite !sathi_condition.
      destruct H as [H3 [[H1 H2] | [H1 H2]]]; auto. }
  split; [| split; [exact Hiff |]].
  - intros t a b.
    destruct (are_priyo_sathi t a b) eqn:E1;
      destruct (are_priyo_sathi t b a) eqn:E2; try reflexivity; exfalso.
    + apply Hiff in E1. destruct E1 as [ps [Hps [Hs Hd]]].
      assert (G : are_priyo_sathi t b a = true).
      { apply Hiff. exists ps. split; [exact Hps |]. split; [exact Hs |].
        destruct Hd as [Hd | Hd]; [right | left]; exact Hd. }
      congruence.
    + apply Hiff in E2. destruct E2 as [ps [Hps [Hs Hd]]].
      assert (G : are_priyo_sathi t a b = true).
      { apply Hiff. exists ps. split; [exact Hps |]. split; [exact Hs |].
        destruct Hd as [Hd | Hd]; [right | left]; exact Hd. }
      congruence.
  - intros t a Hchk.
    destruct (are_priyo_sathi t a a) eqn:E; [exfalso | reflexivity].
    apply Hiff in E. destruct E as [ps [Hps [_ Hd]]].
    specialize (Hchk ps Hps). unfold sathi_check in Hchk.
    assert (Heq : PriyoSathi.user_id ps = PriyoSathi.companion_id ps).
    { destruct Hd as [[H1 H2] | [H1 H2]]; congruence. }
    rewrite Heq, N.eqb_refl in Hchk. discriminate.
Qed.

Lemma companionship_is_mutual_witness :
  are_priyo_sathi example_companions (Some 70%N) (Some 70%N) = false.
Proof.
  apply (proj2 (proj2 companionship_is_mutual) example_companions
           (Some 70%N)).
  intros ps [<- | [<- | []]]; reflexivity.
Defined.

(** ** The pool finder of riders *)

Section LexOrder.

Variable B : Type.
Variables first second : B -> B -> bool.

Hypothesis first_total : forall a b, first a b = true \/ first b a = true.
Hypothesis first_trans : forall a b c,
  first a b = true -> first b c = true -> first a c = true.
Hypothesis second_total : forall a b, second a b = true \/ second b a = true.
Hypothesis second_trans : forall a b c,
  second a b = true -> second b c = true -> second a c = true.

Lemma lex_leb_first : forall a b,
  lex_leb first second a b = true -> first a b = true.
Proof.
  intros a b. unfold lex_leb.
  destruct (first b a) eqn:E1; destruct (first a b) eqn:E2; cbn;
    try congruence.
  destruct (first_total a b); congruence.
Qed.

Lemma lex_leb_total : forall a b,
  lex_leb first second a b = true \/ lex_leb first second b a = true.
Proof.
  intros a b. unfold lex_leb.
  destruct (first b a) eqn:E1; destruct (first a b) eqn:E2; cbn; auto.
Qed.

Lemma lex_leb_trans : forall a b c,
  lex_leb first second a b = true ->
  lex_leb first second b c = true ->
  lex_leb first second a c = true.
Proof.
  intros a b c. unfold lex_leb.
  pose proof (first_total a b) as Tab.
  pose proof (first_total b c) as Tbc.
  pose proof (first_total a c) as Tac.
  pose proof (first_trans a b c) as Rabc.
  pose proof (first_trans b c a) as Rbca.
  pose proof (first_trans c a b) as Rcab.
  pose proof (first_trans c b a) as Rcba.
  pose proof (first_trans b a c) as Rbac.
  pose proof (first_trans a c b) as Racb.
  pose proof (second_trans a b c) as Sabc.
  destruct (first b a); destruct (first a b);
    destruct (first c b); destruct (first b c);
    destruct (first c a); destruct (first a c);
    cbn; intuition congruence.
Qed.

End LexOrder.

Lemma ORDER_BY_map : forall (B C : Type) (leb : C -> C -> bool)
                            (leb' : B -> B -> bool) (f : B -> C) (l : list B),
  (forall x y, leb (f x) (f y) = leb' x y) ->
  ORDER_BY leb (map f l) = map f (ORDER_BY leb' l).
Proof.
  intros B C leb leb' f l H.
  assert (Hins : forall x s,
             insert_by leb (f x) (map f s) = map f (insert_by leb' x s)).
  { intros x s. induction s as [| y s IH]; simpl; [reflexivity |].
    rewrite H. destruct (leb' x y); simpl; [reflexivity |].
    rewrite IH. reflexivity. }
  induction l as [| x l IH]; simpl; [reflexivity |].
  unfold ORDER_BY in *. simpl. rewrite IH. apply Hins.
Qed.

Lemma StronglySorted_weaken : forall (B : Type) (R S : B -> B -> Prop)
                                     (l : list B),
  (forall a b, R a b -> S a b) -> StronglySorted R l -> StronglySorted S l.
Proof.
  intros B R S l H Hs. induction Hs as [| a l Hs IH Hall]; constructor.
  - exact IH.
  - eapply Forall_impl; [| exact Hall]. intros b. apply H.
Qed.

Lemma matching_leb_lex : forall a b,
  matching_leb a b
  = lex_leb score_desc (lex_leb distance_asc passengers_desc) a b.
Proof. reflexivity. Qed.

Lemma Qle_bool_total : forall x y, Qle_bool x y = true \/ Qle_bool y x = true.
Proof.
  intros x y. rewrite !Qle_bool_iff.
  destruct (Qlt_le_dec x y) as [H | H]; [left; apply Qlt_le_weak, H | right; exact H].
Qed.

Lemma matching_leb_total : forall a b,
  matching_leb a b = true \/ matching_leb b a = true.
Proof.
  intros a b. rewrite !matching_leb_lex.
  apply lex_leb_total. intros x y.
  apply lex_leb_total. intros u v.
  unfold passengers_desc. rewrite !Z.leb_le. lia.
Qed.

Lemma score_desc_trans : forall x y z,
  score_desc x y = true -> score_desc y z = true -> score_desc x z = true.
Proof.
  intros x y z. unfold score_desc. rewrite !Qle_bool_iff. intros; lra.
Qed.

Lemma passengers_desc_trans : forall x y z,
  passengers_desc x y = true -> passengers_desc y z = true ->
  passengers_desc x z = true.
Proof.
  intros x y z. unfold passengers_desc. rewrite !Z.leb_le. lia.
Qed.

Lemma matching_leb_trans : forall a b c,
  matching_leb a b = true -> matching_leb b c = true ->
  matching_leb a c = true.
Proof.
  intros a b c. rewrite !matching_leb_lex.
  apply lex_leb_trans;
    first [ intros x y; apply Qle_bool_total
          | exact score_desc_trans
          | idtac ].
  intros x y z.
  apply lex_leb_trans;
    first [ intros u v; apply num_leb_total
          | intros u v w; apply num_leb_trans
          | exact passengers_desc_trans ].
Qed.

Lemma tv_or_some_true : forall x y,
  tv_or x y = Some true <-> x = Some true \/ y = Some true.
Proof. intros [[|] |] [[|] |]; cbn; split; intros; intuition discriminate. Qed.

Lemma text_eq_some_true : forall a s,
  text_eq a (Some s) = Some true <-> a = Some s.
Proof.
  intros [x |] s; cbn; [| split; discriminate].
  destruct (String.eqb_spec x s); split; congruence.
Qed.

Section PoolFinder.

Variable ST_Distance : geography -> geography -> Q.

Lemma matching_where_spec :
  forall dest p_vehicle_type p_gender_restriction p_destination_radius_km p,
    is_true (matching_where ST_Distance dest p_vehicle_type
               p_gender_restriction p_destination_radius_km p) = true
    <-> matching_pool ST_Distance dest p_vehicle_type p_gender_restriction
          p_destination_radius_km p.
Proof.
  intros dest vt g radius p. unfold matching_where, matching_pool.
  rewrite tv_and_true. rewrite !tv_and_some_true.
  rewrite !tv_or_some_true.
  assert (H1 : Some (is_null (Pools.deleted_at p)) = Some true
               <-> Pools.deleted_at p = None).
  { destruct (Pools.deleted_at p); cbn; split; congruence. }
  assert (H2 : Some (negb (terminal (Pools.status p))) = Some true
               <-> terminal (Pools.status p) = false).
  { destruct (terminal (Pools.status p)); cbn; split; congruence. }
  assert (H3 : Some (Pools.current_passengers p <? Pools.max_passengers p)%Z
               = Some true
               <-> (Pools.current_passengers p < Pools.max_passengers p)%Z).
  { rewrite <- Z.ltb_lt.
    destruct (Pools.current_passengers p <? Pools.max_passengers p)%Z;
      split; congruence. }
  assert (H4 : text_eq (Some (vehicle_type_text (Pools.vehicle_type p))) vt
               = Some true
               <-> vt = Some (vehicle_type_text (Pools.vehicle_type p))).
  { destruct vt as [s |]; cbn; [| split; discriminate].
    destruct (String.eqb_spec (vehicle_type_text (Pools.vehicle_type p)) s);
      split; congruence. }
  assert (H5 : text_eq (option_map gender_restriction_text
                                   (Pools.gender_restriction p)) (Some "ANY")
               = Some true
               <-> Pools.gender_restriction p = Some ANY).
  { rewrite text_eq_some_true.
    destruct (Pools.gender_restriction p) as [[|] |]; cbn; split; congruence. }
  assert (H6 : text_eq (option_map gender_restriction_text
                                   (Pools.gender_restriction p)) g
               = Some true
               <-> exists g', Pools.gender_restriction p = Some g'
                              /\ g = Some (gender_restriction_text g')).
  { destruct g as [s |].
    - rewrite text_eq_some_true.
      destruct (Pools.gender_restriction p) as [g0 |]; cbn.
      + split.
        * intro E. exists g0. split; congruence.
        * intros [g' [E1 E2]]. congruence.
      + split; [discriminate | intros [g' [E _]]; discriminate].
    - split.
      + destruct (Pools.gender_restriction p); discriminate.
      + intros [g' [_ E]]. discriminate. }
  assert (H7 : text_eq g (Some "ANY") = Some true <-> g = Some "ANY")
    by apply text_eq_some_true.
  assert (H8 : ST_DWithin ST_Distance (Pools.destination_location p)
                 (Some dest) (num_mul radius (Some 1000)) = Some true
               <-> exists loc r,
                     Pools.destination_location p = Some loc
                     /\ radius = Some r
                     /\ ST_Distance loc dest <= r * 1000).
  { unfold ST_DWithin, distance, num_le, num_mul, lift2.
    destruct (Pools.destination_location p) as [loc |];
      destruct radius as [r |].
    - cbn. split.
      + intro E. exists loc, r. split; [reflexivity |].
        split; [reflexivity |]. apply Qle_bool_iff. congruence.
      + intros [loc' [r' [E1 [E2 E3]]]].
        injection E1 as <-. injection E2 as <-.
        apply Qle_bool_iff in E3. rewrite E3. reflexivity.
    - split; [discriminate | intros [? [? [_ [E _]]]]; discriminate].
    - split; [discriminate | intros [? [? [E _]]]; discriminate].
    - split; [discriminate | intros [? [? [E _]]]; discriminate]. }
  rewrite H1, H2, H3, H4, H5, H6, H7, H8. tauto.
Qed.

(** X29: the pools that a rider is offered are exactly the pools that are
    not deleted and not on their way, completed or cancelled, have a free
    seat, are of the vehicle class asked for, admit the rider's gender
    restriction (every pool does for a rider who asks for [ANY]) and have
    their destination within the destination radius; they come in the
    order of the [ORDER BY], so a pool never comes before a pool with a
    higher viability score; and every row has at least one available
    seat. *)
Theorem matching_pools_are_open_and_in_reach :
  forall db p_pickup_lat p_pickup_lng p_dest_lat p_dest_lng p_vehicle_type
         p_gender_restriction p_destination_radius_km p_pickup_radius_km
         p_config_name,
    let rows :=
      find_matching_pools ST_Distance db p_pickup_lat p_pickup_lng p_dest_lat
        p_dest_lng p_vehicle_type p_gender_restriction
        p_destination_radius_km p_pickup_radius_km p_config_name in
    (forall r,
        In r rows
        <-> exists p,
              In p (pools db)
              /\ matching_pool ST_Distance (MakePoint p_dest_lng p_dest_lat)
                   p_vehicle_type p_gender_restriction
                   p_destination_radius_km p
              /\ r = matching_row ST_Distance
                       (MakePoint p_pickup_lng p_pickup_lat)
                       (MakePoint p_dest_lng p_dest_lat) p)
    /\ StronglySorted (fun a b => matching_leb a b = true) rows
    /\ StronglySorted
         (fun a b => COALESCE (Matching.viability_score b) 0
                     <= COALESCE (Matching.viability_score a) 0) rows
    /\ (forall r, In r rows -> (1 <= Matching.available_seats r)%Z).
Proof.
  intros db plat plng dlat dlng vt g radius pradius cfg rows.
  assert (Hin : forall r,
             In r rows
             <-> exists p,
                   In p (pools db)
                   /\ matching_pool ST_Distance (MakePoint dlng dlat) vt g
                        radius p
                   /\ r = matching_row ST_Distance (MakePoint plng plat)
                            (MakePoint dlng dlat) p).
  { intro r. unfold rows, find_matching_pools. cbv zeta.
    rewrite ORDER_BY_In.
    rewrite in_map_iff. split.
    - intros [p [E Hp]]. apply filter_In in Hp. destruct Hp as [Hp Hw].
      exists p. rewrite <- matching_where_spec. auto.
    - intros [p [Hp [Hm E]]]. exists p. split; [auto |].
      apply filter_In. rewrite matching_where_spec. auto. }
  assert (Hsorted : StronglySorted (fun a b => matching_leb a b = true) rows).
  { unfold rows, find_matching_pools. cbv zeta.
    apply ORDER_BY_sorted; [apply matching_leb_total | apply matching_leb_trans]. }
  split; [exact Hin |]. split; [exact Hsorted |]. split.
  - eapply StronglySorted_weaken; [| exact Hsorted].
    intros a b Hab. cbv beta in Hab |- *. rewrite matching_leb_lex in Hab.
    apply lex_leb_first in Hab; [| intros x y; apply Qle_bool_total].
    unfold score_desc in Hab. apply Qle_bool_iff in Hab. exact Hab.
  - intros r Hr. apply Hin in Hr. destruct Hr as [p [_ [Hm ->]]].
    destruct Hm as [_ [_ [Hseat _]]].
    cbn [matching_row Matching.available_seats]. lia.
Qed.

(** X30: the pickup of the rider plays no part in the choice.  Neither the
    pickup point nor the parameters [p_pickup_radius_km] and
    [p_config_name] change which pools [find_matching_pools] returns, or
    their order: only the column [pickup_distance_km] depends on the
    pickup point. *)
Theorem pickup_does_not_filter_the_pools :
  forall db p_dest_lat p_dest_lng p_vehicle_type p_gender_restriction
         p_destination_radius_km
         lat1 lng1 radius1 config1 lat2 lng2 radius2 config2,
    map Matching.pool_id
        (find_matching_pools ST_Distance db lat1 lng1 p_dest_lat p_dest_lng
           p_vehicle_type p_gender_restriction p_destination_radius_km
           radius1 config1)
    = map Matching.pool_id
          (find_matching_pools ST_Distance db lat2 lng2 p_dest_lat p_dest_lng
             p_vehicle_type p_gender_restriction p_destination_radius_km
             radius2 config2).
Proof.
  intros db dlat dlng vt g radius lat1 lng1 r1 c1 lat2 lng2 r2 c2.
  unfold find_matching_pools. cbv zeta.
  set (dest := MakePoint dlng dlat).
  set (kept := filter (fun p => is_true (matching_where ST_Distance dest vt g
                                           radius p)) (pools db)).
  set (leb' := fun p q : Pools.row =>
                 matching_leb (matching_row ST_Distance (MakePoint lng1 lat1)
                                            dest p)
                              (matching_row ST_Distance (MakePoint lng1 lat1)
                                            dest q)).
  rewrite (ORDER_BY_map _ _ matching_leb leb'
             (matching_row ST_Distance (MakePoint lng1 lat1) dest) kept)
    by reflexivity.
  rewrite (ORDER_BY_map _ _ matching_leb leb'
             (matching_row ST_Distance (MakePoint lng2 lat2) dest) kept)
    by reflexivity.
  rewrite !map_map. reflexivity.
Qed.

End PoolFinder.
